(** * KTX2 array assembly: a shallow embedding of [KTX2Assembler]

    The repository assembles N independently encoded single-layer KTX2
    textures into one KTX2 2D-array texture.  The assembler class
    [KTX2Assembler] (ktx2-assembler.js) and its two older copies in
    [ImagesToKtxSequential] share the same algorithm:

    - [_validateLayerConsistency] checks every layer against the first;
    - [_assembleMipLevels] concatenates, per mip level, the payloads of all
      layers (trimmed and padded when there is no supercompression);
    - [_createArrayContainer] builds the container handed to [write].

    JavaScript numbers are modelled by [Z]: the code computes with doubles,
    which hold every integer below 2^53 exactly, so a sum or a product in
    [Z] is the code's value as long as it stays below 2^53.  Typed arrays
    are modelled by [list byte], thrown exceptions by a result type, and
    observable effects (fetches, encoder calls, buffer allocations,
    [TypedArray.set] calls) by a trace of events carried in a writer
    monad. *)

From Stdlib Require Import String Ascii DecimalString.
From Stdlib Require Import Strings.Byte.
From Stdlib Require Import ZArith List Lia Bool Arith.
Import ListNotations.

Open Scope Z_scope.

(** ** JavaScript arithmetic *)

Module Js.

(** [ToInt32]: the operand conversion of the bitwise operators. *)
Definition toInt32 (x : Z) : Z :=
  (x + 2^31) mod 2^32 - 2^31.

(** [x >> n]: signed right shift; only the low five bits of the shift
    count are used. *)
Definition shr (x n : Z) : Z :=
  Z.shiftr (toInt32 x) (n mod 32).

(** [Math.ceil(n / 4)] for an integer [n]. *)
Definition ceilDiv4 (n : Z) : Z := - ((- n) / 4).

(** [a % b]: the remainder takes the sign of the dividend. *)
Definition rem (a b : Z) : Z := Z.rem a b.

(** The double nearest to [p / 2^52], given by its numerator over 2^52: a
    double keeps 53 significant bits, and a tie goes to the even
    mantissa. *)
Definition roundDouble52 (p : Z) : Z :=
  let a := Z.abs p in
  let s := Z.log2 a - 52 in
  if s <=? 0 then p
  else
    let q := Z.shiftr a s in
    let r := a - Z.shiftl q s in
    let half := 2 ^ (s - 1) in
    let m := if r <? half then q
             else if half <? r then q + 1
             else if Z.even q then q else q + 1 in
    Z.sgn p * Z.shiftl m s.

(** [Math.ceil(n * 1.35)] for an integer [n] that a double holds: the
    double written [1.35] is 6079859496950170 / 2^52, the product is
    rounded to a double and then taken to the next integer. *)
Definition ceilTimes135 (n : Z) : Z :=
  - ((- roundDouble52 (n * 6079859496950170)) / 2 ^ 52).

End Js.

(** ** Size helpers of [_assembleMipLevels] *)

(** [uastcBytesPerImageAtLevel(level, width, height)].  The code multiplies
    doubles: the product below is its value wherever it is less than 2^53,
    which covers all dimensions up to 2^26. *)
Definition uastcBytesPerImageAtLevel (level width height : Z) : Z :=
  let wL := Z.max 1 (Js.shr width level) in
  let hL := Z.max 1 (Js.shr height level) in
  let blocksX := Js.ceilDiv4 wL in
  let blocksY := Js.ceilDiv4 hL in
  blocksX * blocksY * 16.

(** [pad8(n)]. *)
Definition pad8 (n : Z) : Z := Js.rem (8 - Js.rem n 8) 8.

(** The size rule as the specification words it: successive halving of the
    base dimension with a floor at 1, then 4x4 blocks of 16 bytes. *)
Module SizeSpec.

Definition dimAtMip (base m : Z) : Z := Z.max 1 (base / 2 ^ m).

(** Least number of 4-pixel blocks covering [n] pixels. *)
Definition blocks (n : Z) : Z := (n + 3) / 4.

Definition exactSize (m baseWidth baseHeight : Z) : Z :=
  blocks (dimAtMip baseWidth m) * blocks (dimAtMip baseHeight m) * 16.

End SizeSpec.


(** ** Typed arrays *)

Definition bytes := list byte.

Definition byteLength (b : bytes) : Z := Z.of_nat (length b).

(** The zero-filled content of [new Uint8Array(n)]. *)
Definition zeros (n : nat) : bytes := repeat x00 n.

(** Relative index of [subarray] and [slice]: negative indices count from
    the end, and the result is clamped to the array. *)
Definition clampIndex (len k : Z) : Z :=
  if k <? 0 then Z.max (len + k) 0 else Z.min k len.

(** [src.subarray(begin, end)]. *)
Definition subarray (src : bytes) (begin_ end_ : Z) : bytes :=
  let len := byteLength src in
  let from := clampIndex len begin_ in
  let to := clampIndex len end_ in
  let count := Z.max (to - from) 0 in
  firstn (Z.to_nat count) (skipn (Z.to_nat from) src).

(** The content of [target] after a successful [target.set(source, offset)]. *)
Definition overwrite (target source : bytes) (offset : nat) : bytes :=
  firstn offset target ++ source ++ skipn (offset + length source) target.

(** ** Errors *)

(** What the code throws.  The repository throws plain [Error] objects whose
    message is built from a template; a constructor stands for a template and
    carries the values interpolated into it.  [TypeError] and [RangeError]
    are the exceptions of the JavaScript runtime itself, and [External]
    stands for anything thrown by a collaborator (fetch, the Basis encoder,
    ktx-parse). *)
Inductive JsError : Type :=
| NoUrlsProvided
| NoInputLayers
| MissingLayerData (layerIndex : nat)
| HdrNotSupported
| FormatMismatch (layerIndex : nat) (expected got : Z)
| SizeMismatch (layerIndex : nat) (expectedWidth expectedHeight gotWidth gotHeight : Z)
| MipCountMismatch (layerIndex : nat) (expected got : nat)
| TypeError
| RangeError
| External (message : string).

(** The error taxonomy of the specification. *)
Inductive ErrorClass : Type :=
| InputError
| ConsistencyError
| UnsupportedFormatError
| CollaboratorError
| RuntimeError.

(** No [throw] of the repository reports an unsupported format, so no
    constructor of [JsError] is classified as [UnsupportedFormatError]. *)
Definition classify (e : JsError) : ErrorClass :=
  match e with
  | NoUrlsProvided | NoInputLayers | MissingLayerData _ => InputError
  | FormatMismatch _ _ _ | SizeMismatch _ _ _ _ _ | MipCountMismatch _ _ _ =>
      ConsistencyError
  | HdrNotSupported | External _ => CollaboratorError
  | TypeError | RangeError => RuntimeError
  end.

(** The layer index a consistency error reports. *)
Definition reportedLayer (e : JsError) : option nat :=
  match e with
  | FormatMismatch i _ _ | SizeMismatch i _ _ _ _ | MipCountMismatch i _ _ => Some i
  | _ => None
  end.

Inductive result (A : Type) : Type :=
| Ok (a : A)
| Throw (e : JsError).
Arguments Ok {A} a.
Arguments Throw {A} e.

(** ** Effects *)

(** The observable steps of a run, in program order. *)
Inductive Event : Type :=
| EvFetch (url : string)          (* [fetch(url)] is started *)
| EvEncode (layerIndex : nat)     (* a [KTX2Encoder] / Basis encoder call *)
| EvAlloc (size : Z)              (* [new Uint8Array(totalSize)] of a combined level *)
| EvSet (offset len : Z)          (* [combined.set(src, offset)] with [src.byteLength = len] *)
| EvWrite.                        (* ktx-parse [write] *)

Definition trace := list Event.

(** A computation: the events it performed and how it ended. *)
Definition M (A : Type) : Type := (trace * result A)%type.

Definition ret {A} (a : A) : M A := ([], Ok a).

Definition throw {A} (e : JsError) : M A := ([], Throw e).

Definition emit (ev : Event) : M unit := ([ev], Ok tt).

Definition lift {A} (r : result A) : M A := ([], r).

Definition bind {A B} (m : M A) (f : A -> M B) : M B :=
  match m with
  | (t, Ok a) => let (t', r) := f a in (t ++ t', r)
  | (t, Throw e) => (t, Throw e)
  end.

Declare Scope js_scope.
Delimit Scope js_scope with js.
Notation "x <- m ;; k" := (bind m (fun x => k))
  (at level 61, m at next level, right associativity) : js_scope.
Notation "' pat <- m ;; k" := (bind m (fun x => match x with pat => k end))
  (at level 61, pat pattern, m at next level, right associativity) : js_scope.
Notation "m ;;; k" := (bind m (fun _ => k))
  (at level 61, right associativity) : js_scope.
Open Scope js_scope.

Definition events {A} (m : M A) : trace := fst m.

Definition outcome {A} (m : M A) : result A := snd m.

(** Reading a property of [undefined] or [null] is a [TypeError]. *)
Definition deref {A} (o : option A) : M A :=
  match o with
  | Some a => ret a
  | None => throw TypeError
  end.

Fixpoint mapM {A B} (f : A -> M B) (xs : list A) : M (list B) :=
  match xs with
  | [] => ret []
  | x :: rest =>
      y <- f x ;;
      ys <- mapM f rest ;;
      ret (y :: ys)
  end.

(** [xs.reduce((sum, l) => sum + f(l), init)] where an element may be
    [undefined]. *)
Fixpoint reduceSum {A} (f : A -> Z) (xs : list (option A)) (sum : Z) : M Z :=
  match xs with
  | [] => ret sum
  | l :: rest =>
      v <- deref l ;;
      reduceSum f rest (sum + f v)
  end.

(** [new Uint8Array(size)] for the combined buffer of a mip level.  A
    negative size is refused with a [RangeError]; so is, in an engine, a
    size above its allocation limit, which this model does not know: what
    is proved of a run that allocates holds of the code where the engine
    grants the buffer. *)
Definition newCombined (size : Z) : M bytes :=
  emit (EvAlloc size) ;;;
  if size <? 0 then throw RangeError else ret (zeros (Z.to_nat size)).

(** [target.set(source, offset)]: a [RangeError] when the source does not
    fit at that offset. *)
Definition typedArraySet (target source : bytes) (offset : Z) : M bytes :=
  emit (EvSet offset (byteLength source)) ;;;
  if (offset <? 0) || (byteLength target <? offset + byteLength source)
  then throw RangeError
  else ret (overwrite target source (Z.to_nat offset)).

(** ** Data model *)

(** [{ levelData, uncompressedByteLength }]: a mip level of one layer, and
    also a combined level of the array. *)
Record MipLevel : Type := {
  levelData : bytes;
  uncompressedByteLength : Z
}.

(** The data format descriptor is passed through untouched. *)
Definition Dfd := bytes.

Definition KeyValue := list (string * bytes).

(** A ktx-parse container. *)
Module Container.
Record t : Type := {
  vkFormat : Z;
  typeSize : Z;
  pixelWidth : Z;
  pixelHeight : Z;
  pixelDepth : Z;
  layerCount : Z;
  faceCount : Z;
  levelCount : Z;
  supercompressionScheme : Z;
  levels : list MipLevel;
  dataFormatDescriptor : Dfd;
  keyValue : option KeyValue;
  globalData : option bytes
}.
End Container.

(** An element of [encodedLayers]. *)
Module Layer.
Record t : Type := {
  levels : list MipLevel;
  format : Z;
  width : Z;
  height : Z
}.
End Layer.

Record BaseParams : Type := {
  baseFormat : Z;
  baseWidth : Z;
  baseHeight : Z;
  baseSupercompression : Z;
  baseKeyValue : option KeyValue;
  baseTypeSize : Z;
  sharedDfd : Dfd;
  firstLayerMipCount : nat
}.

(** ** [KTX2Assembler]: the pure steps *)

Definition _extractBaseParams (container : Container.t) : BaseParams :=
  {| baseFormat := Container.vkFormat container;
     baseWidth := Container.pixelWidth container;
     baseHeight := Container.pixelHeight container;
     baseSupercompression := Container.supercompressionScheme container;
     baseKeyValue := Container.keyValue container;
     baseTypeSize := Container.typeSize container;
     sharedDfd := Container.dataFormatDescriptor container;
     firstLayerMipCount := length (Container.levels container) |}.

Definition _validateLayerConsistency
    (container : Container.t) (baseParams : BaseParams) (layerIndex : nat)
    : result unit :=
  if negb (baseFormat baseParams =? 0)
     && negb (Container.vkFormat container =? 0)
     && negb (Container.vkFormat container =? baseFormat baseParams)
  then Throw (FormatMismatch layerIndex (baseFormat baseParams)
                (Container.vkFormat container))
  else if negb (Container.pixelWidth container =? baseWidth baseParams)
          || negb (Container.pixelHeight container =? baseHeight baseParams)
  then Throw (SizeMismatch layerIndex (baseWidth baseParams) (baseHeight baseParams)
                (Container.pixelWidth container) (Container.pixelHeight container))
  else if negb (length (Container.levels container) =? firstLayerMipCount baseParams)%nat
  then Throw (MipCountMismatch layerIndex (firstLayerMipCount baseParams)
                (length (Container.levels container)))
  else Ok tt.

(** The inner loop of [_assembleMipLevels]:
    [for (const levelData of layersForThisMip) { ... }], threading the
    mutable [combined] and [offset]. *)
Fixpoint copyLayers (baseSupercompression exactSize perImagePadding : Z)
    (layersForThisMip : list (option MipLevel)) (combined : bytes) (offset : Z)
    : M (bytes * Z) :=
  match layersForThisMip with
  | [] => ret (combined, offset)
  | l :: rest =>
      lv <- deref l ;;
      let srcData := levelData lv in
      if baseSupercompression =? 0 then
        let trimmed := subarray srcData 0 exactSize in
        combined' <- typedArraySet combined trimmed offset ;;
        let offset := offset + byteLength trimmed in
        let offset := if perImagePadding >? 0 then offset + perImagePadding else offset in
        copyLayers baseSupercompression exactSize perImagePadding rest combined' offset
      else
        combined' <- typedArraySet combined srcData offset ;;
        let offset := offset + byteLength srcData in
        copyLayers baseSupercompression exactSize perImagePadding rest combined' offset
  end.

(** One iteration of [for (let mipLevel = 0; mipLevel < mipCount; mipLevel++)]:
    the combined level pushed for [mipLevel].  [ImagesToKtxSequential.encode]
    and [encodeFromVideoGenerator] inline the same loop body, statement for
    statement, over their local [baseWidth], [baseHeight] and
    [baseSupercompression]. *)
Definition assembleLevel (encodedLayers : list Layer.t) (baseParams : BaseParams)
    (mipLevel : nat) : M MipLevel :=
  let layerCount := Z.of_nat (length encodedLayers) in
  let layersForThisMip :=
    map (fun layer => nth_error (Layer.levels layer) mipLevel) encodedLayers in
  let exactSize :=
    uastcBytesPerImageAtLevel (Z.of_nat mipLevel)
      (baseWidth baseParams) (baseHeight baseParams) in
  let perImagePadding := pad8 exactSize in
  let perImageWithPad := exactSize + perImagePadding in
  totalSize <-
    (if baseSupercompression baseParams =? 0
     then ret (perImageWithPad * layerCount)
     else reduceSum (fun l => byteLength (levelData l)) layersForThisMip 0) ;;
  combined <- newCombined totalSize ;;
  '(combined, _) <-
    copyLayers (baseSupercompression baseParams) exactSize perImagePadding
      layersForThisMip combined 0 ;;
  totalUncompressed <-
    (if baseSupercompression baseParams =? 0
     then ret totalSize
     else reduceSum uncompressedByteLength layersForThisMip 0) ;;
  ret {| levelData := combined; uncompressedByteLength := totalUncompressed |}.

(** [_assembleMipLevels(encodedLayers, baseParams)].  [baseParams] is [null]
    until the first layer has been seen; destructuring [null] and reading
    [encodedLayers[0].levels] of an empty array are [TypeError]s. *)
Definition _assembleMipLevels (encodedLayers : list Layer.t)
    (baseParams : option BaseParams) : M (list MipLevel) :=
  bp <- deref baseParams ;;
  first <- deref (nth_error encodedLayers 0) ;;
  let mipCount := length (Layer.levels first) in
  mapM (assembleLevel encodedLayers bp) (seq 0 mipCount).

(** [x || {}] for the key/value object. *)
Definition orEmpty (kv : option KeyValue) : option KeyValue :=
  match kv with
  | Some o => Some o
  | None => Some []
  end.

Definition _createArrayContainer (encodedLayers : list Layer.t)
    (baseParams : BaseParams) (combinedLevels : list MipLevel) : Container.t :=
  {| Container.vkFormat := baseFormat baseParams;
     Container.typeSize := baseTypeSize baseParams;
     Container.pixelWidth := baseWidth baseParams;
     Container.pixelHeight := baseHeight baseParams;
     Container.pixelDepth := 0;
     Container.layerCount := Z.of_nat (length encodedLayers);
     Container.faceCount := 1;
     Container.levelCount := Z.of_nat (length combinedLevels);
     Container.supercompressionScheme := baseSupercompression baseParams;
     Container.levels := combinedLevels;
     Container.dataFormatDescriptor := sharedDfd baseParams;
     Container.keyValue := orEmpty (baseKeyValue baseParams);
     Container.globalData := None |}.

(** ** Layer sources *)

(** What an async generator of layers yields: an image file
    [{data, fileName, extension}] or a video frame
    [{rgba, width, height, fileName}]. *)
Inductive LayerItem : Type :=
| ImageLayer (data : bytes) (fileName extension : string)
| FrameLayer (rgba : bytes) (width height : Z) (fileName : string).

(** An async iterable, as the consumer's [for await] sees it: the requests it
    starts before each [yield], the items it yields, and how it ends.  The
    consumer's loop body runs between a [GYield] and what follows it. *)
Inductive Gen : Type :=
| GReturn
| GThrow (e : JsError)
| GFetch (url : string) (next : Gen)
| GYield (item : LayerItem) (next : Gen).

(** An array used as a layer source. *)
Fixpoint genOfList (items : list LayerItem) : Gen :=
  match items with
  | [] => GReturn
  | item :: rest => GYield item (genOfList rest)
  end.

(** [s.split(sep).pop()]: what follows the last separator. *)
Fixpoint splitPop (sep : ascii) (s current : string) : string :=
  match s with
  | EmptyString => current
  | String c rest =>
      if Ascii.eqb c sep then splitPop sep rest EmptyString
      else splitPop sep rest (current ++ String c EmptyString)%string
  end.

(** [s || fallback] on strings: the empty string is falsy. *)
Definition orElse (s fallback : string) : string :=
  match s with
  | EmptyString => fallback
  | _ => s
  end.

(** [n.toString()] for a loop counter. *)
Definition decimal (n : nat) : string := NilEmpty.string_of_uint (Nat.to_uint n).

(** [s.padStart(width, '0')]. *)
Definition padStart0 (width : nat) (s : string) : string :=
  (string_of_list_ascii (repeat "0"%char (width - String.length s)) ++ s)%string.

(** The item built by [imageGenerator] for [urls[i]] once its bytes are there. *)
Definition imageItem (i : nat) (url : string) (data : bytes) : LayerItem :=
  let fileName := orElse (splitPop "/" url EmptyString) ("image" ++ decimal i)%string in
  let extension := orElse (splitPop "." fileName EmptyString) "jpg"%string in
  ImageLayer data fileName extension.

(** A decoded video sample: RGBA pixels and display size. *)
Record Frame : Type := {
  frameRgba : bytes;
  frameWidth : Z;
  frameHeight : Z
}.

(** An input layer of [encodeImagesToKtxArray]. *)
Record SliceInput : Type := {
  sliceData : option bytes;
  sliceFileName : option string;
  sliceExtension : string
}.

Section Pipeline.

(** The collaborators, each with the failures it can raise. *)
Variable fetch : string -> result bytes.
Variable fromImageFile : bytes -> string -> result bytes.
Variable fromRGBA : bytes -> Z -> Z -> result bytes.
Variable read : bytes -> result Container.t.
Variable write : Container.t -> result bytes.
Variable decodeSamples : string -> Z -> option Z -> result (list (result Frame)).

(** The loop of [imageGenerator] from index [i] on: [url] is [urls[i]],
    [rest] the URLs after it and [nextFetchPromise] the pending request for
    [url].  [fetch(u).then(r => { if (!r.ok) throw ...; return r.arrayBuffer() })]
    is a promise: [GFetch u] marks where the request starts, and [fetch u]
    is the outcome a later [await] of the promise sees. *)
Fixpoint imageGeneratorFrom (i : nat) (url : string) (rest : list string)
    (nextFetchPromise : result bytes) : Gen :=
  match nextFetchPromise with
  | Throw e => GThrow e
  | Ok data =>
      match rest with
      | [] => GYield (imageItem i url data) GReturn
      | url' :: rest' =>
          let nextFetchPromise := fetch url' in
          GFetch url'
            (GYield (imageItem i url data)
               (imageGeneratorFrom (S i) url' rest' nextFetchPromise))
      end
  end.

(** [imageGenerator()] of [fromImageUrls], which runs it on a non-empty
    array only: [url] is [urls[0]] and [rest] the URLs after it. *)
Definition imageGenerator (url : string) (rest : list string) : Gen :=
  let nextFetchPromise := fetch url in
  GFetch url (imageGeneratorFrom 0 url rest nextFetchPromise).

(** [rgbaFrameGenerator()] of [fromVideoUrl] over the samples still to come. *)
Fixpoint rgbaFrameGenerator (maxFrames : option Z) (samples : list (result Frame))
    (frameCount : nat) : Gen :=
  match samples with
  | [] => GReturn
  | videoSample :: rest =>
      if match maxFrames with
         | Some m => Z.of_nat frameCount >=? m
         | None => false
         end
      then GReturn
      else
        match videoSample with
        | Throw e => GThrow e
        | Ok f =>
            let frameFileName := ("frame_" ++ padStart0 5 (decimal frameCount))%string in
            GYield (FrameLayer (frameRgba f) (frameWidth f) (frameHeight f) frameFileName)
              (rgbaFrameGenerator maxFrames rest (S frameCount))
        end
  end.

(** ** [KTX2Assembler.encode] *)

(** The encoder call of the loop body, by the kind of layer. *)
Definition encodeLayer (layer : LayerItem) (layerIndex : nat) : M bytes :=
  emit (EvEncode layerIndex) ;;;
  match layer with
  | FrameLayer rgba width height _ => lift (fromRGBA rgba width height)
  | ImageLayer data _ extension => lift (fromImageFile data extension)
  end.

Definition layerOfContainer (container : Container.t) : Layer.t :=
  {| Layer.levels :=
       map (fun level =>
              {| levelData := levelData level;
                 uncompressedByteLength := uncompressedByteLength level |})
           (Container.levels container);
     Layer.format := Container.vkFormat container;
     Layer.width := Container.pixelWidth container;
     Layer.height := Container.pixelHeight container |}.

(** [for await (const layer of layerSource) { ... }] with the loop's
    mutable [encodedLayers], [baseParams] and [layerIndex].  The final
    [container.levels = null] only drops a reference: the level objects
    pushed into [encodedLayers] are fresh and keep the payloads. *)
Fixpoint encodeLoop (layerSource : Gen) (encodedLayers : list Layer.t)
    (baseParams : option BaseParams) (layerIndex : nat)
    : M (list Layer.t * option BaseParams) :=
  match layerSource with
  | GReturn => ret (encodedLayers, baseParams)
  | GThrow e => throw e
  | GFetch url next =>
      emit (EvFetch url) ;;; encodeLoop next encodedLayers baseParams layerIndex
  | GYield layer next =>
      ktx2Buffer <- encodeLayer layer layerIndex ;;
      container <- lift (read ktx2Buffer) ;;
      baseParams <-
        (if (layerIndex =? 0)%nat
         then ret (Some (_extractBaseParams container))
         else
           bp <- deref baseParams ;;
           lift (_validateLayerConsistency container bp layerIndex) ;;;
           ret baseParams) ;;
      encodeLoop next (encodedLayers ++ [layerOfContainer container])
        baseParams (S layerIndex)
  end.

(** [encode] up to the container handed to [write]. *)
Definition encodeContainer (layerSource : Gen) : M Container.t :=
  '(encodedLayers, baseParams) <- encodeLoop layerSource [] None 0%nat ;;
  combinedLevels <- _assembleMipLevels encodedLayers baseParams ;;
  bp <- deref baseParams ;;
  ret (_createArrayContainer encodedLayers bp combinedLevels).

(** [KTX2Assembler.encode(layerSource)]. *)
Definition encode (layerSource : Gen) : M bytes :=
  arrayContainer <- encodeContainer layerSource ;;
  emit EvWrite ;;;
  lift (write arrayContainer).

(** [KTX2Assembler.fromImageUrls(urls)]. *)
Definition fromImageUrls (urls : list string) : M bytes :=
  match urls with
  | [] => throw NoUrlsProvided
  | url :: rest => encode (imageGenerator url rest)
  end.

(** [KTX2Assembler.fromVideoUrl(videoUrl, {maxFrames, startTime, endTime})];
    opening the track and decoding its samples is the decoder's business. *)
Definition fromVideoUrl (videoUrl : string) (maxFrames : option Z)
    (startTime : Z) (endTime : option Z) : M bytes :=
  samples <- lift (decodeSamples videoUrl startTime endTime) ;;
  encode (rgbaFrameGenerator maxFrames samples 0).

(** ** The layers of [encodeImagesToKtxArray] (images_to_ktx.js) *)

(** What [toLowerCase] makes of an ASCII character: the letters A-Z become
    a-z and nothing else changes.  Beyond ASCII [toLowerCase] follows the
    Unicode case mapping, which is not modelled. *)
Definition lowerAscii (c : ascii) : ascii :=
  let n := nat_of_ascii c in
  if ((65 <=? n) && (n <=? 90))%nat then ascii_of_nat (n + 32) else c.

(** Every character of the string is an ASCII one. *)
Fixpoint asciiOnly (s : string) : bool :=
  match s with
  | EmptyString => true
  | String c rest => (nat_of_ascii c <? 128)%nat && asciiOnly rest
  end.

(** [getFileExtension(input)]: cut at the first [#] or [?], lower-cased;
    the code's result for every input that is [asciiOnly]. *)
Fixpoint getFileExtension (input : string) : string :=
  match input with
  | EmptyString => EmptyString
  | String c rest =>
      if Ascii.eqb c "#" || Ascii.eqb c "?" then EmptyString
      else String (lowerAscii c) (getFileExtension rest)
  end.

(** The check made on each layer by [layers.map(...)]. *)
Definition normalizeSlice (idx : nat) (l : SliceInput) : result SliceInput :=
  match sliceData l with
  | None => Throw (MissingLayerData idx)
  | Some _ =>
      let ext := getFileExtension (sliceExtension l) in
      if String.eqb ext "exr" || String.eqb ext "hdr" then Throw HdrNotSupported
      else Ok {| sliceData := sliceData l;
                 sliceFileName :=
                   Some (match sliceFileName l with
                         | Some n => orElse n ("layer_" ++ decimal idx)%string
                         | None => ("layer_" ++ decimal idx)%string
                         end);
                 sliceExtension := ext |}
  end.

Fixpoint normalizeFrom (idx : nat) (layers : list SliceInput) : result (list SliceInput) :=
  match layers with
  | [] => Ok []
  | l :: rest =>
      match normalizeSlice idx l with
      | Throw e => Throw e
      | Ok n =>
          match normalizeFrom (S idx) rest with
          | Throw e => Throw e
          | Ok ns => Ok (n :: ns)
          end
      end
  end.

(** ** The eager mode of the specification *)

(** "Eager: all inputs fetched/encoded up front, then assembled": every URL
    is fetched, then every layer is encoded and parsed, then each layer is
    validated against the first, and only then the levels are assembled and
    the container is built and serialised. *)
Definition eagerFetchAll (urls : list string) : M (list bytes) :=
  mapM (fun url => emit (EvFetch url) ;;; lift (fetch url)) urls.

Fixpoint eagerItemsFrom (i : nat) (urls : list string) (datas : list bytes) : list LayerItem :=
  match urls, datas with
  | url :: urls', data :: datas' => imageItem i url data :: eagerItemsFrom (S i) urls' datas'
  | _, _ => []
  end.

Fixpoint eagerEncodeAllFrom (i : nat) (items : list LayerItem) : M (list Container.t) :=
  match items with
  | [] => ret []
  | item :: rest =>
      ktx2Buffer <- encodeLayer item i ;;
      container <- lift (read ktx2Buffer) ;;
      containers <- eagerEncodeAllFrom (S i) rest ;;
      ret (container :: containers)
  end.

Fixpoint eagerValidateFrom (i : nat) (containers : list Container.t) (bp : BaseParams)
    : result unit :=
  match containers with
  | [] => Ok tt
  | c :: rest =>
      match _validateLayerConsistency c bp i with
      | Throw e => Throw e
      | Ok _ => eagerValidateFrom (S i) rest bp
      end
  end.

(** Validation, assembly and container building over the collected layers. *)
Definition eagerContainer (containers : list Container.t) : M Container.t :=
  match containers with
  | [] => throw NoInputLayers
  | first :: others =>
      let bp := _extractBaseParams first in
      lift (eagerValidateFrom 1 others bp) ;;;
      let layers := map layerOfContainer containers in
      combinedLevels <- _assembleMipLevels layers (Some bp) ;;
      ret (_createArrayContainer layers bp combinedLevels)
  end.

(** Everything fetched, then everything encoded and parsed. *)
Definition eagerCollect (urls : list string) : M (list Container.t) :=
  datas <- eagerFetchAll urls ;;
  eagerEncodeAllFrom 0 (eagerItemsFrom 0 urls datas).

Definition eagerContainerFromUrls (urls : list string) : M Container.t :=
  containers <- eagerCollect urls ;;
  eagerContainer containers.

Definition eagerFromImageUrls (urls : list string) : M bytes :=
  match urls with
  | [] => throw NoUrlsProvided
  | _ =>
      arrayContainer <- eagerContainerFromUrls urls ;;
      emit EvWrite ;;;
      lift (write arrayContainer)
  end.

(** ** What a run of [encode] depends on *)

(** The items a source yields, in order. *)
Fixpoint yielded (g : Gen) : list LayerItem :=
  match g with
  | GReturn | GThrow _ => []
  | GFetch _ next => yielded next
  | GYield item next => item :: yielded next
  end.

(** How a source ends. *)
Fixpoint genEnd (g : Gen) : result unit :=
  match g with
  | GReturn => Ok tt
  | GThrow e => Throw e
  | GFetch _ next | GYield _ next => genEnd next
  end.

(** The parsed container of a layer: the encoder's output read back. *)
Definition parseLayer (layer : LayerItem) : result Container.t :=
  match
    match layer with
    | FrameLayer rgba width height _ => fromRGBA rgba width height
    | ImageLayer data _ extension => fromImageFile data extension
    end
  with
  | Ok ktx2Buffer => read ktx2Buffer
  | Throw e => Throw e
  end.

Fixpoint parseAll (layers : list LayerItem) : result (list Container.t) :=
  match layers with
  | [] => Ok []
  | layer :: rest =>
      match parseLayer layer with
      | Throw e => Throw e
      | Ok c =>
          match parseAll rest with
          | Throw e => Throw e
          | Ok cs => Ok (c :: cs)
          end
      end
  end.

End Pipeline.

(** No event of the trace belongs to the assembler or the serialiser. *)
Definition assemblerIdle (t : trace) : Prop :=
  Forall (fun ev => match ev with
                    | EvAlloc _ | EvSet _ _ | EvWrite => False
                    | _ => True
                    end) t.

(** No encoder was called. *)
Definition encoderIdle (t : trace) : Prop :=
  Forall (fun ev => match ev with
                    | EvEncode _ => False
                    | _ => True
                    end) t.

(** The three ways a layer can disagree with the first one, with the values
    the error message gives. *)
Definition reports (e : JsError) (layerIndex : nat) (first layer : Container.t) : Prop :=
  e = FormatMismatch layerIndex (Container.vkFormat first) (Container.vkFormat layer)
  \/ e = SizeMismatch layerIndex
           (Container.pixelWidth first) (Container.pixelHeight first)
           (Container.pixelWidth layer) (Container.pixelHeight layer)
  \/ e = MipCountMismatch layerIndex
           (length (Container.levels first)) (length (Container.levels layer)).

(** ** The layout of a combined level *)

(** What the inner loop hands to [set] for one layer. *)
Definition written (scheme exactSize : Z) (l : MipLevel) : bytes :=
  if scheme =? 0 then subarray (levelData l) 0 exactSize else levelData l.

(** What one layer occupies in the combined buffer: the bytes written, and
    the padding the loop skips when there is no supercompression. *)
Definition slot (scheme exactSize perImagePadding : Z) (l : MipLevel) : bytes :=
  if scheme =? 0
  then subarray (levelData l) 0 exactSize ++ zeros (Z.to_nat perImagePadding)
  else levelData l.

(** The [set] calls of the inner loop, started at [offset]. *)
Fixpoint setTrace (scheme exactSize perImagePadding : Z) (ls : list MipLevel)
    (offset : Z) : trace :=
  match ls with
  | [] => []
  | l :: rest =>
      EvSet offset (byteLength (written scheme exactSize l))
      :: setTrace scheme exactSize perImagePadding rest
           (offset + byteLength (slot scheme exactSize perImagePadding l))
  end.

(** The offsets at which the layers of [ls] start, the first at [offset]. *)
Fixpoint layerOffsets (scheme exactSize perImagePadding : Z) (ls : list MipLevel)
    (offset : Z) : list Z :=
  match ls with
  | [] => []
  | l :: rest =>
      offset
      :: layerOffsets scheme exactSize perImagePadding rest
           (offset + byteLength (slot scheme exactSize perImagePadding l))
  end.

(** The offsets of the [set] calls recorded in a trace, in order. *)
Fixpoint setOffsets (t : trace) : list Z :=
  match t with
  | [] => []
  | EvSet offset _ :: rest => offset :: setOffsets rest
  | _ :: rest => setOffsets rest
  end.

Definition emptyLevel : MipLevel :=
  {| levelData := []; uncompressedByteLength := 0 |}.

(** The level [mipLevel] of every layer, in layer order. *)
Definition levelsAt (mipLevel : nat) (encodedLayers : list Layer.t) : list MipLevel :=
  map (fun layer => nth mipLevel (Layer.levels layer) emptyLevel) encodedLayers.

(** Sum of [f] over a list. *)
Definition sumOf {A} (f : A -> Z) (xs : list A) : Z :=
  fold_right (fun x acc => f x + acc) 0 xs.

(** Every layer carries [mipCount] levels, as validation guarantees. *)
Definition uniformMips (mipCount : nat) (encodedLayers : list Layer.t) : Prop :=
  Forall (fun layer => length (Layer.levels layer) = mipCount) encodedLayers.

(** The sub-buffer of [len] bytes at [offset]. *)
Definition sliceAt (buf : bytes) (offset : Z) (len : nat) : bytes :=
  firstn len (skipn (Z.to_nat offset) buf).

(** The size [assembleLevel] allocates for the layers [ls] of a mip level. *)
Definition totalSizeOf (scheme exactSize perImagePadding : Z) (ls : list MipLevel) : Z :=
  if scheme =? 0
  then (exactSize + perImagePadding) * Z.of_nat (length ls)
  else sumOf (fun l => byteLength (levelData l)) ls.

(** The combined level in closed form: the slots of the layers in order,
    then whatever the allocation leaves untouched. *)
Definition combinedLevelOf (baseParams : BaseParams) (mipLevel : nat)
    (ls : list MipLevel) : MipLevel :=
  let scheme := baseSupercompression baseParams in
  let exactSize :=
    uastcBytesPerImageAtLevel (Z.of_nat mipLevel)
      (baseWidth baseParams) (baseHeight baseParams) in
  let perImagePadding := pad8 exactSize in
  let totalSize := totalSizeOf scheme exactSize perImagePadding ls in
  let slots := concat (map (slot scheme exactSize perImagePadding) ls) in
  {| levelData := slots ++ zeros (Z.to_nat totalSize - length slots);
     uncompressedByteLength :=
       if scheme =? 0 then totalSize else sumOf uncompressedByteLength ls |}.

(** The events of one [assembleLevel] run over the layers [ls]. *)
Definition levelTrace (baseParams : BaseParams) (mipLevel : nat)
    (ls : list MipLevel) : trace :=
  let scheme := baseSupercompression baseParams in
  let exactSize :=
    uastcBytesPerImageAtLevel (Z.of_nat mipLevel)
      (baseWidth baseParams) (baseHeight baseParams) in
  let perImagePadding := pad8 exactSize in
  EvAlloc (totalSizeOf scheme exactSize perImagePadding ls)
  :: setTrace scheme exactSize perImagePadding ls 0.

(** ** Properties of a combined level *)

(** The payload of [layer] at mip level [m]. *)
Definition payloadAt (m : nat) (layer : Layer.t) : bytes :=
  levelData (nth m (Layer.levels layer) emptyLevel).

(** The layout without supercompression: layer [i] owns the [E + pad] bytes
    at offset [i * (E + pad)], holding the first [E] bytes of its payload
    and then [pad] zero bytes; the buffer and the declared uncompressed
    length are both [layerCount * (E + pad)] long. *)
Definition nonePaddingLayout (encodedLayers : list Layer.t) (bp : BaseParams)
    (combinedLevels : list MipLevel) (m : nat) : Prop :=
  let E := uastcBytesPerImageAtLevel (Z.of_nat m) (baseWidth bp) (baseHeight bp) in
  let pad := (8 - E mod 8) mod 8 in
  let cl := nth m combinedLevels emptyLevel in
  (forall (i : nat) (layer : Layer.t),
      nth_error encodedLayers i = Some layer ->
      byteLength (firstn (Z.to_nat E) (payloadAt m layer) ++ zeros (Z.to_nat pad))
        = E + pad
      /\ sliceAt (levelData cl) (Z.of_nat i * (E + pad)) (Z.to_nat (E + pad))
         = firstn (Z.to_nat E) (payloadAt m layer) ++ zeros (Z.to_nat pad))
  /\ byteLength (levelData cl) = Z.of_nat (length encodedLayers) * (E + pad)
  /\ uncompressedByteLength cl = Z.of_nat (length encodedLayers) * (E + pad).


(** A run that ends with the specification's [UnsupportedFormatError]. *)
Definition failsUnsupported {A} (r : result A) : Prop :=
  exists e, r = Throw e /\ classify e = UnsupportedFormatError.

Definition withFormat (f : Z) (layer : Layer.t) : Layer.t :=
  {| Layer.levels := Layer.levels layer;
     Layer.format := f;
     Layer.width := Layer.width layer;
     Layer.height := Layer.height layer |}.

Definition withBaseFormat (f : Z) (bp : BaseParams) : BaseParams :=
  {| baseFormat := f;
     baseWidth := baseWidth bp;
     baseHeight := baseHeight bp;
     baseSupercompression := baseSupercompression bp;
     baseKeyValue := baseKeyValue bp;
     baseTypeSize := baseTypeSize bp;
     sharedDfd := sharedDfd bp;
     firstLayerMipCount := firstLayerMipCount bp |}.

(** The event is a [set] call that stays inside a buffer of [total] bytes;
    without supercompression it also copies at most [exactSize] bytes. *)
Definition inBounds (total exactSize scheme : Z) (ev : Event) : Prop :=
  match ev with
  | EvSet offset len =>
      0 <= offset /\ 0 <= len /\ offset + len <= total
      /\ (scheme = 0 -> len <= exactSize)
  | _ => False
  end.

(** The most one element of [layersForThisMip] can advance the offset. *)
Definition slotBound (scheme exactSize perImagePadding : Z) (o : option MipLevel) : Z :=
  if scheme =? 0 then exactSize + perImagePadding
  else match o with
       | Some l => byteLength (levelData l)
       | None => 0
       end.

(** ** Sample data *)

Definition sampleLevel (b : byte) (n : nat) : MipLevel :=
  {| levelData := repeat b n; uncompressedByteLength := Z.of_nat n |}.

Definition sampleLayer (fmt w h : Z) (lvls : list MipLevel) : Layer.t :=
  {| Layer.levels := lvls; Layer.format := fmt; Layer.width := w; Layer.height := h |}.

Definition sampleBase (fmt w h scheme : Z) (mips : nat) : BaseParams :=
  {| baseFormat := fmt;
     baseWidth := w;
     baseHeight := h;
     baseSupercompression := scheme;
     baseKeyValue := None;
     baseTypeSize := 1;
     sharedDfd := [];
     firstLayerMipCount := mips |}.

(** Two 4x4 layers with one mip level; the first payload is over-allocated. *)
Definition paddedLayers : list Layer.t :=
  [ sampleLayer 0 4 4 [sampleLevel x01 20];
    sampleLayer 0 4 4 [sampleLevel x02 16] ].

(** Two 4x4 layers; the first payload has 8 bytes where 16 are expected. *)
Definition shortLayers : list Layer.t :=
  [ sampleLayer 0 4 4 [sampleLevel x01 8];
    sampleLayer 0 4 4 [sampleLevel x02 16] ].

(** Two layers of an 8-bytes-per-block format (VK_FORMAT_BC1_RGB_UNORM_BLOCK). *)
Definition bc1Layers : list Layer.t :=
  [ sampleLayer 131 4 4 [sampleLevel x01 8];
    sampleLayer 131 4 4 [sampleLevel x02 8] ].


(** A validation that ends with a format-mismatch error. *)
Definition isFormatMismatch (r : result unit) : Prop :=
  exists i expected got, r = Throw (FormatMismatch i expected got).

Definition sampleContainer (fmt w h : Z) (lvls : list MipLevel) : Container.t :=
  {| Container.vkFormat := fmt;
     Container.typeSize := 1;
     Container.pixelWidth := w;
     Container.pixelHeight := h;
     Container.pixelDepth := 0;
     Container.layerCount := 0;
     Container.faceCount := 1;
     Container.levelCount := Z.of_nat (length lvls);
     Container.supercompressionScheme := 0;
     Container.levels := lvls;
     Container.dataFormatDescriptor := [];
     Container.keyValue := None;
     Container.globalData := None |}.

(** ** Sample collaborators *)

(** A stand-in encoder and parser: the "file" of a layer is its own bytes,
    and parsing gives a 4 x n texture for an n-byte file, with one level of
    the exact size. *)
Definition sampleFromImageFile (data : bytes) (extension : string) : result bytes :=
  Ok data.

Definition sampleFromRGBA (rgba : bytes) (width height : Z) : result bytes :=
  Ok rgba.

Definition sampleRead (ktx2Buffer : bytes) : result Container.t :=
  let h := byteLength ktx2Buffer in
  Ok (sampleContainer 0 4 h
        [sampleLevel x07 (Z.to_nat (uastcBytesPerImageAtLevel 0 4 h))]).

Definition sampleWrite (c : Container.t) : result bytes :=
  Ok (concat (map levelData (Container.levels c))).

Definition sampleFetch (url : string) : result bytes :=
  Ok (repeat x2a (String.length url)).

(** Three image layers; the file of the last one has another size. *)
Definition mismatchedSource : Gen :=
  genOfList [ ImageLayer [x01; x02; x03; x04] "a.png" "png";
              ImageLayer [x05; x06; x07; x08] "b.png" "png";
              ImageLayer [x09; x0a; x0b; x0c; x0d; x0e; x0f; x10] "c.png" "png" ].

(** A parser that reads a format as well: the first byte of the file is the
    VkFormat of the texture. *)
Definition taggedRead (ktx2Buffer : bytes) : result Container.t :=
  let h := byteLength ktx2Buffer in
  Ok (sampleContainer (Z.of_N (Byte.to_N (hd x00 ktx2Buffer))) 4 h
        [sampleLevel x07 (Z.to_nat (uastcBytesPerImageAtLevel 0 4 h))]).

(** Three image layers of the formats 131, 147 and 131; the file of the
    last one has another size as well. *)
Definition taggedSource : Gen :=
  genOfList [ ImageLayer [x83; x02; x03; x04] "a.png" "png";
              ImageLayer [x93; x06; x07; x08] "b.png" "png";
              ImageLayer [x83; x0a; x0b; x0c; x0d; x0e; x0f; x10] "c.png" "png" ].

(** ** Reading a trace *)

(** The URLs requested, in request order. *)
Fixpoint fetchUrls (t : trace) : list string :=
  match t with
  | [] => []
  | EvFetch url :: rest => url :: fetchUrls rest
  | _ :: rest => fetchUrls rest
  end.

(** The layer indices of the encoder calls, in call order. *)
Fixpoint encodeIndices (t : trace) : list nat :=
  match t with
  | [] => []
  | EvEncode i :: rest => i :: encodeIndices rest
  | _ :: rest => encodeIndices rest
  end.

(** Events of the layer loop: requests and encoder calls. *)
Definition isSourceEvent (ev : Event) : Prop :=
  match ev with
  | EvFetch _ | EvEncode _ => True
  | _ => False
  end.

(** Events of [_assembleMipLevels]: allocations and copies. *)
Definition isAssemblerEvent (ev : Event) : Prop :=
  match ev with
  | EvAlloc _ | EvSet _ _ => True
  | _ => False
  end.

(** What [_validateLayerConsistency] accepts: a format that is equal to the
    base format or left open on either side, and the base dimensions and
    mip count. *)
Definition formatCompatible (c : Container.t) (bp : BaseParams) : Prop :=
  baseFormat bp = 0 \/ Container.vkFormat c = 0
  \/ Container.vkFormat c = baseFormat bp.

Definition compatible (c : Container.t) (bp : BaseParams) : Prop :=
  formatCompatible c bp
  /\ Container.pixelWidth c = baseWidth bp
  /\ Container.pixelHeight c = baseHeight bp
  /\ length (Container.levels c) = firstLayerMipCount bp.

(** A layer with fewer mip levels than the first one of [paddedLayers]. *)
Definition raggedLayers : list Layer.t :=
  [ sampleLayer 0 8 8 [sampleLevel x01 64; sampleLevel x01 16];
    sampleLayer 0 8 8 [sampleLevel x02 64] ].

(** Two image layers of the same size, as an array source. *)
Definition matchingSource : Gen :=
  genOfList [ ImageLayer [x01; x02; x03; x04] "a.png" "png";
              ImageLayer [x05; x06; x07; x08] "b.png" "png" ].

(** The container [encode] builds from [matchingSource] with the sample
    collaborators. *)
Definition matchingContainer : Container.t :=
  Eval vm_compute in
    match outcome (encodeContainer sampleFromImageFile sampleFromRGBA sampleRead
                     matchingSource) with
    | Ok c => c
    | Throw _ => sampleContainer 0 0 0 []
    end.

(** The requests a source starts, in order. *)
Fixpoint genFetches (g : Gen) : list string :=
  match g with
  | GReturn | GThrow _ => []
  | GFetch url next => url :: genFetches next
  | GYield _ next => genFetches next
  end.

(** How many requests were started before the encoder call for layer [j];
    [None] when the encoder was never called for it. *)
Fixpoint fetchesBefore (j : nat) (t : trace) : option nat :=
  match t with
  | [] => None
  | EvEncode i :: rest => if (i =? j)%nat then Some 0%nat else fetchesBefore j rest
  | EvFetch _ :: rest => option_map S (fetchesBefore j rest)
  | _ :: rest => fetchesBefore j rest
  end.

Definition sampleUrls : list string :=
  ["a/x.png"%string; "b/y.png"%string; "c/z.png"%string].

(** A network on which the second sample URL cannot be fetched. *)
Definition flakyFetch (url : string) : result bytes :=
  if String.eqb url "b/y.png" then Throw (External "Failed to fetch b/y.png")
  else sampleFetch url.

Definition sampleFrames : list (result Frame) :=
  [ Ok {| frameRgba := [x01; x02; x03; x04]; frameWidth := 1; frameHeight := 1 |};
    Ok {| frameRgba := [x05; x06; x07; x08]; frameWidth := 1; frameHeight := 1 |};
    Ok {| frameRgba := [x09; x0a; x0b; x0c]; frameWidth := 1; frameHeight := 1 |} ].

(** The container [encode] builds from the first two of [sampleFrames]. *)
Definition cappedContainer : Container.t :=
  Eval vm_compute in
    match outcome (encodeContainer sampleFromImageFile sampleFromRGBA sampleRead
                     (rgbaFrameGenerator (Some 2) sampleFrames 0)) with
    | Ok c => c
    | Throw _ => sampleContainer 0 0 0 []
    end.

(** ** Buffer sizing (utils/image-utils.js) *)

(** The loop [while (w > 1 || h > 1) { w = Math.max(1, w >> 1);
    h = Math.max(1, h >> 1); bytes += ... }] of [uastcBytesAcrossMips] and
    of [calculateKTX2BufferSize], with the running total [bytes].  [fuel]
    bounds the number of iterations; [None] when it runs out. *)
Fixpoint mipChainLoop (fuel : nat) (w h bytes : Z) : option Z :=
  if (w >? 1) || (h >? 1) then
    match fuel with
    | O => None
    | S fuel' =>
        let w := Z.max 1 (Js.shr w 1) in
        let h := Z.max 1 (Js.shr h 1) in
        mipChainLoop fuel' w h (bytes + Js.ceilDiv4 w * Js.ceilDiv4 h * 16)
    end
  else Some bytes.

(** Iterations granted to the loop: more than a 32-bit halving can take. *)
Definition mipChainFuel : nat := 32.

(** [uastcBytesAcrossMips(width, height, mipmaps)].  The code adds doubles:
    the sum below is its value wherever it is less than 2^53, which covers
    all dimensions up to 2^25. *)
Definition uastcBytesAcrossMips (width height : Z) (mipmaps : bool) : option Z :=
  let bytes := Js.ceilDiv4 width * Js.ceilDiv4 height * 16 in
  if mipmaps then mipChainLoop mipChainFuel width height bytes else Some bytes.

(** [Math.ceil(bytes * 1.25)]: 1.25 is a binary fraction, so the product is
    the exact 5 * bytes / 4 for every total below 2^50. *)
Definition ceilSafety (bytes : Z) : Z := Js.ceilDiv4 (5 * bytes).

(** [calculateKTX2BufferSize(imageData, ext, {mipmaps})], with [meta] the
    answer of [sniffImageSize(imageData, ext)]: [None] for [null], and a
    zero width or height is falsy. *)
Definition calculateKTX2BufferSize (meta : option (Z * Z)) (mipmaps : bool)
    : option Z :=
  let '(width, height) :=
    match meta with
    | Some (w, h) => if (w =? 0) || (h =? 0) then (1024, 1024) else (w, h)
    | None => (1024, 1024)
    end in
  let blocksW0 := Js.ceilDiv4 width in
  let blocksH0 := Js.ceilDiv4 height in
  let bytes := blocksW0 * blocksH0 * 16 in
  match (if mipmaps then mipChainLoop mipChainFuel width height bytes
         else Some bytes) with
  | None => None
  | Some bytes =>
      let header := 4096 in
      let total := ceilSafety bytes + header in
      let minSize := 1024 * 1024 in
      let maxSize := 16 * 1024 * 1024 in
      Some (Z.max minSize (Z.min maxSize total))
  end.

(** The level sizes of a full mip chain, as [_assembleMipLevels] computes
    them, for the levels first .. first + count - 1. *)
Definition chainSizes (first count : nat) (width height : Z) : list Z :=
  map (fun m => uastcBytesPerImageAtLevel (Z.of_nat m) width height) (seq first count).

(** Number of levels of a full mip chain. *)
Definition fullMipCount (width height : Z) : nat :=
  S (Z.to_nat (Z.log2 (Z.max width height))).

(** [calculateKTX2ArrayBufferSize(firstImageData, ext, layerCount,
    {mipmaps})], with [meta] the answer of [sniffImageSize(firstImageData,
    ext)] as in [calculateKTX2BufferSize].  The code computes with doubles;
    they agree with the integers below as long as these stay under 2^53,
    and from there on they round, but never below 2^53, so that the result
    is [maxSize] in the code as it is here. *)
Definition calculateKTX2ArrayBufferSize (meta : option (Z * Z)) (layerCount : Z)
    (mipmaps : bool) : option Z :=
  let '(width, height) :=
    match meta with
    | Some (w, h) => if (w =? 0) || (h =? 0) then (1024, 1024) else (w, h)
    | None => (1024, 1024)
    end in
  match uastcBytesAcrossMips width height mipmaps with
  | None => None
  | Some bytesPerLayer =>
      let totalBytes := bytesPerLayer * Z.max 1 layerCount in
      let header := 4096 in
      let total := Js.ceilTimes135 totalBytes + header in
      let minSize := 1 * 1024 * 1024 in
      let maxSize := 32 * 1024 * 1024 in
      Some (Z.max minSize (Z.min maxSize total))
  end.

(** ** [encodeImagesToKtxArray] (images_to_ktx.js) *)

(** The image types of [Module.ldr_image_type]. *)
Inductive LdrImageType : Type := cPNGImage | cJPGImage.

(** What [encodeImagesToKtxArray] uses of the Basis module:
    [initializeBasis()], and a [BasisEncoder] run, from [new BasisEncoder()]
    to [encode(ktx2FileData)], on the slices set with
    [setSliceSourceImage], in index order, and on an output buffer of the
    given size.  The run answers with the bytes it wrote, [num_output_bytes]
    of them. *)
Record BasisModule : Type := {
  initializeBasis : result unit;
  basisEncode : list (bytes * LdrImageType) -> Z -> result bytes
}.

(** The image type chosen for a cleaned extension. *)
Definition imageTypeOf (ext : string) : LdrImageType :=
  if String.eqb ext "jpg" || String.eqb ext "jpeg" || String.eqb ext "jfif"
  then cJPGImage else cPNGImage.

(** The bytes of [layer.data]. *)
Definition dataOf (layer : SliceInput) : bytes :=
  match sliceData layer with
  | Some data => data
  | None => []
  end.

(** What [setSliceSourceImage(i, new Uint8Array(layer.data), 0, 0, img_type)]
    hands over for one layer. *)
Definition sliceSource (layer : SliceInput) : bytes * LdrImageType :=
  (dataOf layer, imageTypeOf (sliceExtension layer)).

(** [encodeImagesToKtxArray(layers)]: the guard, the normalisation, the
    look-up of the Basis module, the sizing of the output buffer from the
    first layer, then one encoder run for all slices; [mipmaps] is
    [encodingSettings.mipmaps].  The sizing answers [None] for a loop that
    does not end, which never happens ([arrayBufferSize_returns]): the
    branch for it is there for the types only. *)
Definition encodeImagesToKtxArray (getBasisModule : option BasisModule)
    (sniffImageSize : bytes -> string -> option (Z * Z)) (mipmaps : bool)
    (layers : list SliceInput) : M bytes :=
  match layers with
  | [] => throw NoInputLayers
  | _ =>
      normalized <- lift (normalizeFrom 0 layers) ;;
      match getBasisModule with
      | None => throw (External "BASIS module not loaded")
      | Some Module =>
          lift (initializeBasis Module) ;;;
          first <- deref (nth_error normalized 0) ;;
          match calculateKTX2ArrayBufferSize
                  (sniffImageSize (dataOf first) (sliceExtension first))
                  (Z.of_nat (length normalized)) mipmaps with
          | None => throw (External "calculateKTX2ArrayBufferSize: no answer")
          | Some bufferSize =>
              emit (EvEncode 0) ;;;
              actualKTX2FileData <-
                lift (basisEncode Module (map sliceSource normalized) bufferSize) ;;
              let num_output_bytes := byteLength actualKTX2FileData in
              if bufferSize <? num_output_bytes then throw RangeError
              else if num_output_bytes =? 0
              then throw (External "encodeBasisTexture(array) failed! Output buffer may be too small or inputs mismatched.")
              else ret actualKTX2FileData
          end
      end
  end.

(** ** Reading a string *)

(** Whether the character occurs in the string. *)
Fixpoint occurs (c : ascii) (s : string) : bool :=
  match s with
  | EmptyString => false
  | String c' rest => Ascii.eqb c' c || occurs c rest
  end.

(** [s.endsWith(c)]. *)
Fixpoint endsWith (c : ascii) (s : string) : bool :=
  match s with
  | EmptyString => false
  | String c' EmptyString => Ascii.eqb c' c
  | String _ rest => endsWith c rest
  end.

(** ** Reading the input of [encodeImagesToKtxArray] *)

(** An extension that names an HDR source, however it is written. *)
Definition isHdrExtension (extension : string) : bool :=
  let ext := getFileExtension extension in
  String.eqb ext "exr" || String.eqb ext "hdr".

(** A layer the normalisation lets through: it has data and no HDR
    extension. *)
Definition acceptableSlice (l : SliceInput) : bool :=
  match sliceData l with
  | None => false
  | Some _ => negb (isHdrExtension (sliceExtension l))
  end.

(** Three layers, given with an upper-case extension, a query suffix and no
    file name. *)
Definition sampleSlices : list SliceInput :=
  [ {| sliceData := Some [x01]; sliceFileName := Some "a.PNG"%string;
       sliceExtension := "PNG"%string |};
    {| sliceData := Some [x02]; sliceFileName := None;
       sliceExtension := "jpg?v=2"%string |};
    {| sliceData := Some [x03]; sliceFileName := Some EmptyString;
       sliceExtension := "png"%string |} ].

(** A decoder that reports two by two pixels for every image. *)
Definition sampleSniff (imageData : bytes) (ext : string) : option (Z * Z) :=
  Some (2, 2).

(** A Basis module whose encoder writes the slices back to back, and one
    whose encoder writes nothing. *)
Definition sampleModule : BasisModule :=
  {| initializeBasis := Ok tt;
     basisEncode := fun slices bufferSize => Ok (concat (map fst slices)) |}.

Definition silentModule : BasisModule :=
  {| initializeBasis := Ok tt;
     basisEncode := fun slices bufferSize => Ok [] |}.

Definition emptySlice : SliceInput :=
  {| sliceData := None; sliceFileName := None; sliceExtension := EmptyString |}.

(** The second layer is an OpenEXR file, the third has no data. *)
Definition hdrSlices : list SliceInput :=
  [ {| sliceData := Some [x01]; sliceFileName := None;
       sliceExtension := "png"%string |};
    {| sliceData := Some [x02]; sliceFileName := None;
       sliceExtension := "EXR#1"%string |};
    {| sliceData := None; sliceFileName := None;
       sliceExtension := "png"%string |} ].

(** ** [ImagesToKtxSequential] (images_to_ktx_sequential.js) *)

(** A source that yields image files only. *)
Fixpoint imagesOnly (g : Gen) : bool :=
  match g with
  | GReturn | GThrow _ => true
  | GFetch _ next => imagesOnly next
  | GYield (ImageLayer _ _ _) next => imagesOnly next
  | GYield (FrameLayer _ _ _ _) _ => false
  end.

(** [String(n)] for an integer. *)
Definition showZ (n : Z) : string :=
  match n with
  | Z0 => "0"
  | Zpos p => decimal (Pos.to_nat p)
  | Zneg p => "-" ++ decimal (Pos.to_nat p)
  end.

Module Sequential.

(** What [videoFrameGenerator] yields: a frame that is encoded and parsed
    already. *)
Record EncodedFrame : Type := {
  ktx2Buffer : bytes;
  container : Container.t;
  fileName : string;
  frameIndex : nat
}.

(** The async iterable of [encodeFromVideoGenerator], as its [for await]
    sees it: the encoder calls made before a frame is yielded, the frames,
    and how the iterable ends. *)
Inductive FrameGen : Type :=
| FReturn
| FThrow (e : JsError)
| FEncode (frameCount : nat) (next : FrameGen)
| FYield (frame : EncodedFrame) (next : FrameGen).

(** The locals [baseFormat], [baseWidth], ... of [encode] and of
    [encodeFromVideoGenerator], once the first layer has set them. *)
Record Locals : Type := {
  sharedDfd : Dfd;
  baseFormat : Z;
  baseWidth : Z;
  baseHeight : Z;
  baseSupercompression : Z;
  baseKeyValue : option KeyValue;
  baseTypeSize : Z
}.

(** The mutable state of the [for await] loops.  [layerIndex] is 0 in the
    first iteration only, [Start]: nothing is pushed and the locals are
    still [null].  From then on, [Running], the locals hold the values of
    the first container. *)
Inductive LoopState : Type :=
| Start
| Running (locals : Locals) (encodedLayers : list Layer.t) (layerIndex : nat).

(** The branch [if (layerIndex === 0) { baseFormat = container.vkFormat; ... }]. *)
Definition setLocals (container : Container.t) : Locals :=
  {| baseFormat := Container.vkFormat container;
     baseWidth := Container.pixelWidth container;
     baseHeight := Container.pixelHeight container;
     baseSupercompression := Container.supercompressionScheme container;
     baseKeyValue := Container.keyValue container;
     baseTypeSize := Container.typeSize container;
     sharedDfd := Container.dataFormatDescriptor container |}.

(** The [else] branch of [encode]: the three checks of a later layer. *)
Definition checkLayer (container : Container.t) (locals : Locals)
    (encodedLayers : list Layer.t) (layerIndex : nat) : M unit :=
  if negb (baseFormat locals =? 0)
     && negb (Container.vkFormat container =? 0)
     && negb (Container.vkFormat container =? baseFormat locals)
  then throw (FormatMismatch layerIndex (baseFormat locals)
                (Container.vkFormat container))
  else if negb (Container.pixelWidth container =? baseWidth locals)
          || negb (Container.pixelHeight container =? baseHeight locals)
  then throw (SizeMismatch layerIndex (baseWidth locals) (baseHeight locals)
                (Container.pixelWidth container) (Container.pixelHeight container))
  else
    first <- deref (nth_error encodedLayers 0) ;;
    if negb (length (Container.levels container) =? length (Layer.levels first))%nat
    then throw (MipCountMismatch layerIndex (length (Layer.levels first))
                  (length (Container.levels container)))
    else ret tt.

(** The [else] branch of [encodeFromVideoGenerator]: the same checks, whose
    messages speak of a frame. *)
Definition checkFrame (container : Container.t) (locals : Locals)
    (encodedLayers : list Layer.t) (frameIndex : nat) : M unit :=
  if negb (baseFormat locals =? 0)
     && negb (Container.vkFormat container =? 0)
     && negb (Container.vkFormat container =? baseFormat locals)
  then throw (External ("Frame " ++ decimal frameIndex
                        ++ " format mismatch: expected " ++ showZ (baseFormat locals)
                        ++ ", got " ++ showZ (Container.vkFormat container)))
  else if negb (Container.pixelWidth container =? baseWidth locals)
          || negb (Container.pixelHeight container =? baseHeight locals)
  then throw (External ("Frame " ++ decimal frameIndex
                        ++ " size mismatch: expected " ++ showZ (baseWidth locals)
                        ++ "x" ++ showZ (baseHeight locals)
                        ++ ", got " ++ showZ (Container.pixelWidth container)
                        ++ "x" ++ showZ (Container.pixelHeight container)))
  else
    first <- deref (nth_error encodedLayers 0) ;;
    if negb (length (Container.levels container) =? length (Layer.levels first))%nat
    then throw (External ("Frame " ++ decimal frameIndex
                          ++ " mip count mismatch: expected "
                          ++ decimal (length (Layer.levels first))
                          ++ ", got " ++ decimal (length (Container.levels container))))
    else ret tt.

(** The body of [for (let mipLevel = 0; mipLevel < mipCount; mipLevel++)],
    over the locals. *)
Definition assembleLevel (encodedLayers : list Layer.t) (locals : Locals)
    (layerCount : Z) (mipLevel : nat) : M MipLevel :=
  let layersForThisMip :=
    map (fun layer => nth_error (Layer.levels layer) mipLevel) encodedLayers in
  let exactSize :=
    uastcBytesPerImageAtLevel (Z.of_nat mipLevel)
      (baseWidth locals) (baseHeight locals) in
  let perImagePadding := pad8 exactSize in
  let perImageWithPad := exactSize + perImagePadding in
  totalSize <-
    (if baseSupercompression locals =? 0
     then ret (perImageWithPad * layerCount)
     else reduceSum (fun l => byteLength (levelData l)) layersForThisMip 0) ;;
  combined <- newCombined totalSize ;;
  '(combined, _) <-
    copyLayers (baseSupercompression locals) exactSize perImagePadding
      layersForThisMip combined 0 ;;
  totalUncompressed <-
    (if baseSupercompression locals =? 0
     then ret totalSize
     else reduceSum uncompressedByteLength layersForThisMip 0) ;;
  ret {| levelData := combined; uncompressedByteLength := totalUncompressed |}.

(** What follows the loop, in [encode] and in [encodeFromVideoGenerator]
    alike: the combined levels and the container handed to [write].  Without
    a layer, [encodedLayers[0].levels] reads a property of [undefined]. *)
Definition assembleContainer (state : LoopState) : M Container.t :=
  match state with
  | Start => throw TypeError
  | Running locals encodedLayers _ =>
      let layerCount := Z.of_nat (length encodedLayers) in
      first <- deref (nth_error encodedLayers 0) ;;
      let mipCount := length (Layer.levels first) in
      combinedLevels <-
        mapM (assembleLevel encodedLayers locals layerCount) (seq 0 mipCount) ;;
      ret {| Container.vkFormat := baseFormat locals;
             Container.typeSize := baseTypeSize locals;
             Container.pixelWidth := baseWidth locals;
             Container.pixelHeight := baseHeight locals;
             Container.pixelDepth := 0;
             Container.layerCount := layerCount;
             Container.faceCount := 1;
             Container.levelCount := Z.of_nat mipCount;
             Container.supercompressionScheme := baseSupercompression locals;
             Container.levels := combinedLevels;
             Container.dataFormatDescriptor := sharedDfd locals;
             Container.keyValue := orEmpty (baseKeyValue locals);
             Container.globalData := None |}
  end.

Section Encode.

Variable fetch : string -> result bytes.
(** [ImageToKtx.encode(data, fileName, extension)] on data that is there. *)
Variable imageToKtx : bytes -> string -> string -> result bytes.
(** [encodeRGBAToKtx(rgba, width, height, fileName, Module)]. *)
Variable encodeRGBAToKtx : bytes -> Z -> Z -> string -> result bytes.
(** Whether [getBasisModule()] finds the Basis module loaded. *)
Variable getBasisModule : bool.
Variable read : bytes -> result Container.t.
Variable write : Container.t -> result bytes.
Variable decodeSamples : string -> Z -> option Z -> result (list (result Frame)).

(** [await ImageToKtx.encode(data, fileName, extension)] after the
    destructuring [{ data, fileName, extension }] of the layer: a video frame
    has no [data], and [ImageToKtx.encode] rejects a call without data before
    anything else. *)
Definition encodeLayer (layer : LayerItem) (layerIndex : nat) : M bytes :=
  emit (EvEncode layerIndex) ;;;
  match layer with
  | ImageLayer data fileName extension => lift (imageToKtx data fileName extension)
  | FrameLayer _ _ _ _ => throw (External "No image data provided")
  end.

(** [for await (const { data, fileName, extension } of layers) { ... }]. *)
Fixpoint encodeLoop (layers : Gen) (state : LoopState) : M LoopState :=
  match layers with
  | GReturn => ret state
  | GThrow e => throw e
  | GFetch url next => emit (EvFetch url) ;;; encodeLoop next state
  | GYield layer next =>
      let layerIndex :=
        match state with
        | Start => 0%nat
        | Running _ _ layerIndex => layerIndex
        end in
      ktx2Buffer <- encodeLayer layer layerIndex ;;
      container <- lift (read ktx2Buffer) ;;
      state <-
        match state with
        | Start =>
            ret (Running (setLocals container) [layerOfContainer container] 1)
        | Running locals encodedLayers layerIndex =>
            checkLayer container locals encodedLayers layerIndex ;;;
            ret (Running locals (encodedLayers ++ [layerOfContainer container])
                   (S layerIndex))
        end ;;
      encodeLoop next state
  end.

(** [encode] up to the container handed to [write]. *)
Definition encodeContainer (layers : Gen) : M Container.t :=
  state <- encodeLoop layers Start ;;
  assembleContainer state.

(** [ImagesToKtxSequential.encode(layers)]. *)
Definition encode (layers : Gen) : M bytes :=
  arrayContainer <- encodeContainer layers ;;
  emit EvWrite ;;;
  lift (write arrayContainer).

(** [ImagesToKtxSequential.encodeFromUrls(urls)]; its [imageGenerator] is
    the one of [KTX2Assembler.fromImageUrls], line for line. *)
Definition encodeFromUrls (urls : list string) : M bytes :=
  match urls with
  | [] => throw (External "ImagesToKtxSequential: No URLs provided")
  | url :: rest => encode (imageGenerator fetch url rest)
  end.

(** [videoFrameGenerator()] of [encodeFromVideoUrl] over the samples still
    to come: each frame is encoded and parsed inside the generator, and each
    yielded container is a fresh object. *)
Fixpoint videoFrameGenerator (maxFrames : option Z) (samples : list (result Frame))
    (frameCount : nat) : FrameGen :=
  match samples with
  | [] => FReturn
  | videoSample :: rest =>
      if match maxFrames with
         | Some m => Z.of_nat frameCount >=? m
         | None => false
         end
      then FReturn
      else
        match videoSample with
        | Throw e => FThrow e
        | Ok f =>
            let frameFileName := ("frame_" ++ padStart0 5 (decimal frameCount))%string in
            FEncode frameCount
              (match encodeRGBAToKtx (frameRgba f) (frameWidth f) (frameHeight f)
                       frameFileName with
               | Throw e => FThrow e
               | Ok ktx2Buffer =>
                   match read ktx2Buffer with
                   | Throw e => FThrow e
                   | Ok container =>
                       FYield {| ktx2Buffer := ktx2Buffer;
                                 container := container;
                                 fileName := frameFileName;
                                 frameIndex := frameCount |}
                         (videoFrameGenerator maxFrames rest (S frameCount))
                   end
               end)
        end
  end.

(** [for await (const { ktx2Buffer, container, fileName, frameIndex: idx }
    of frameGenerator) { ... }]. *)
Fixpoint frameLoop (frameGenerator : FrameGen) (state : LoopState) : M LoopState :=
  match frameGenerator with
  | FReturn => ret state
  | FThrow e => throw e
  | FEncode frameCount next => emit (EvEncode frameCount) ;;; frameLoop next state
  | FYield frame next =>
      let container := container frame in
      state <-
        match state with
        | Start =>
            ret (Running (setLocals container) [layerOfContainer container] 1)
        | Running locals encodedLayers frameIndex =>
            checkFrame container locals encodedLayers frameIndex ;;;
            ret (Running locals (encodedLayers ++ [layerOfContainer container])
                   (S frameIndex))
        end ;;
      frameLoop next state
  end.

(** [ImagesToKtxSequential.encodeFromVideoGenerator(frameGenerator)]. *)
Definition encodeFromVideoGenerator (frameGenerator : FrameGen) : M bytes :=
  state <- frameLoop frameGenerator Start ;;
  arrayContainer <- assembleContainer state ;;
  emit EvWrite ;;;
  lift (write arrayContainer).

(** [ImagesToKtxSequential.encodeFromVideoUrl(videoUrl, {maxFrames,
    startTime, endTime})]: the track is opened, the Basis module looked up,
    and the frames go through [encodeFromVideoGenerator]. *)
Definition encodeFromVideoUrl (videoUrl : string) (maxFrames : option Z)
    (startTime : Z) (endTime : option Z) : M bytes :=
  samples <- lift (decodeSamples videoUrl startTime endTime) ;;
  if getBasisModule
  then encodeFromVideoGenerator (videoFrameGenerator maxFrames samples 0)
  else throw (External "BASIS module not loaded").

End Encode.

End Sequential.

(** The wording [encodeFromVideoGenerator] gives to the three mismatches. *)
Definition frameWording (e : JsError) : JsError :=
  match e with
  | FormatMismatch i expected got =>
      External ("Frame " ++ decimal i ++ " format mismatch: expected "
                ++ showZ expected ++ ", got " ++ showZ got)
  | SizeMismatch i expectedWidth expectedHeight gotWidth gotHeight =>
      External ("Frame " ++ decimal i ++ " size mismatch: expected "
                ++ showZ expectedWidth ++ "x" ++ showZ expectedHeight
                ++ ", got " ++ showZ gotWidth ++ "x" ++ showZ gotHeight)
  | MipCountMismatch i expected got =>
      External ("Frame " ++ decimal i ++ " mip count mismatch: expected "
                ++ decimal expected ++ ", got " ++ decimal got)
  | _ => e
  end.

(** Two answers of an encoder that are the same bytes, or two failures. *)
Definition alike {A} (r r' : result A) : Prop :=
  match r, r' with
  | Ok a, Ok b => a = b
  | Throw _, Throw _ => True
  | _, _ => False
  end.

(** Two runs that end with the same value, or with errors related by [P]. *)
Definition endAlike {A} (P : JsError -> JsError -> Prop) (r r' : result A) : Prop :=
  match r, r' with
  | Ok a, Ok b => a = b
  | Throw e, Throw e' => P e e'
  | _, _ => False
  end.

(** The errors of the two single-image encoders on some input that both
    refuse. *)
Definition imageEncodersFail (imageToKtx : bytes -> string -> string -> result bytes)
    (fromImageFile : bytes -> string -> result bytes) (e e' : JsError) : Prop :=
  exists data fileName extension,
    imageToKtx data fileName extension = Throw e
    /\ fromImageFile data extension = Throw e'.

(** The errors of the two RGBA encoders on some frame that both refuse. *)
Definition rgbaEncodersFail (encodeRGBAToKtx : bytes -> Z -> Z -> string -> result bytes)
    (fromRGBA : bytes -> Z -> Z -> result bytes) (e e' : JsError) : Prop :=
  exists rgba width height fileName,
    encodeRGBAToKtx rgba width height fileName = Throw e
    /\ fromRGBA rgba width height = Throw e'.

(** Frames of differing size, the second one being refused. *)
Definition unequalFrames : list (result Frame) :=
  [ Ok {| frameRgba := [x01; x02; x03; x04]; frameWidth := 1; frameHeight := 1 |};
    Ok {| frameRgba := [x05; x06; x07; x08; x09; x0a; x0b; x0c];
          frameWidth := 2; frameHeight := 1 |} ].

(** [encodeRGBAToKtx] for the sample runs: the file name plays no part. *)
Definition sampleEncodeRGBAToKtx (rgba : bytes) (width height : Z) (fileName : string)
    : result bytes :=
  sampleFromRGBA rgba width height.

(** The base parameters of [KTX2Assembler] that hold what the locals of
    [ImagesToKtxSequential.encode] hold, with [mipCount] for
    [encodedLayers[0].levels.length]. *)
Definition paramsOf (locals : Sequential.Locals) (mipCount : nat) : BaseParams :=
  {| baseFormat := Sequential.baseFormat locals;
     baseWidth := Sequential.baseWidth locals;
     baseHeight := Sequential.baseHeight locals;
     baseSupercompression := Sequential.baseSupercompression locals;
     baseKeyValue := Sequential.baseKeyValue locals;
     baseTypeSize := Sequential.baseTypeSize locals;
     sharedDfd := Sequential.sharedDfd locals;
     firstLayerMipCount := mipCount |}.

(** [ImageToKtx.encode] for the sample runs: the file name plays no part. *)
Definition sampleImageToKtx (data : bytes) (fileName extension : string) : result bytes :=
  sampleFromImageFile data extension.

(** The file [encode] writes for [matchingSource] with the sample
    collaborators. *)
Definition matchingFile : bytes :=
  Eval vm_compute in
    match outcome (encode sampleFromImageFile sampleFromRGBA sampleRead sampleWrite
                     matchingSource) with
    | Ok file => file
    | Throw _ => []
    end.

(** A source of two video frames. *)
Definition frameSource : Gen :=
  genOfList [ FrameLayer [x01; x02; x03; x04] 1 1 "frame_00000";
              FrameLayer [x05; x06; x07; x08] 1 1 "frame_00001" ].


(** Encoders that fail on an empty input, each with its own message. *)
Definition strictImageToKtx (data : bytes) (fileName extension : string) : result bytes :=
  match data with
  | [] => Throw (External "encodeBasisTexture() failed! Image may be too large to compress using 32-bit WASM.")
  | _ => Ok data
  end.

Definition strictFromImageFile (data : bytes) (extension : string) : result bytes :=
  match data with
  | [] => Throw (External "Encoding failed")
  | _ => Ok data
  end.

(** Two image layers, the second one with a file the encoders refuse. *)
Definition refusedSource : Gen :=
  genOfList [ ImageLayer [x01; x02; x03; x04] "a.png" "png";
              ImageLayer [] "b.png" "png" ].

(** ** Facts about the size helpers *)

Lemma toInt32_small (x : Z) : 0 <= x < 2^31 -> Js.toInt32 x = x.
Proof.
  intros H. unfold Js.toInt32.
  rewrite Z.mod_small by lia. lia.
Qed.

Lemma shr_small (x n : Z) :
  0 <= x < 2^31 -> 0 <= n < 32 -> Js.shr x n = x / 2 ^ n.
Proof.
  intros Hx Hn. unfold Js.shr.
  rewrite toInt32_small by assumption.
  rewrite Z.mod_small by assumption.
  apply Z.shiftr_div_pow2. lia.
Qed.

Lemma ceilDiv4_blocks (n : Z) : Js.ceilDiv4 n = SizeSpec.blocks n.
Proof.
  unfold Js.ceilDiv4, SizeSpec.blocks.
  pose proof (Z.div_mod (- n) 4 ltac:(lia)) as E1.
  pose proof (Z.mod_pos_bound (- n) 4 ltac:(lia)) as B1.
  pose proof (Z.div_mod (n + 3) 4 ltac:(lia)) as E2.
  pose proof (Z.mod_pos_bound (n + 3) 4 ltac:(lia)) as B2.
  lia.
Qed.

Lemma ceilDiv4_pos (n : Z) : 1 <= n -> 1 <= Js.ceilDiv4 n.
Proof.
  intros H. rewrite ceilDiv4_blocks. unfold SizeSpec.blocks.
  apply Z.div_le_lower_bound; lia.
Qed.

Lemma uastc_size_lower (level w h : Z) :
  16 <= uastcBytesPerImageAtLevel level w h.
Proof.
  unfold uastcBytesPerImageAtLevel. cbv zeta.
  pose proof (ceilDiv4_pos (Z.max 1 (Js.shr w level)) ltac:(lia)).
  pose proof (ceilDiv4_pos (Z.max 1 (Js.shr h level)) ltac:(lia)).
  nia.
Qed.

Lemma uastc_size_mod16 (level w h : Z) :
  (uastcBytesPerImageAtLevel level w h) mod 16 = 0.
Proof.
  unfold uastcBytesPerImageAtLevel. cbv zeta.
  apply Z.mod_mul. lia.
Qed.

Lemma pad8_range (n : Z) : 0 <= n -> 0 <= pad8 n < 8.
Proof.
  intros H. unfold pad8, Js.rem.
  rewrite (Z.rem_mod_nonneg n 8) by lia.
  pose proof (Z.mod_pos_bound n 8 ltac:(lia)).
  rewrite Z.rem_mod_nonneg by lia.
  apply Z.mod_pos_bound. lia.
Qed.

Lemma pad8_spec (n : Z) : 0 <= n -> pad8 n = (8 - n mod 8) mod 8.
Proof.
  intros H. unfold pad8, Js.rem.
  rewrite (Z.rem_mod_nonneg n 8) by lia.
  pose proof (Z.mod_pos_bound n 8 ltac:(lia)).
  rewrite Z.rem_mod_nonneg by lia. reflexivity.
Qed.

Lemma pad8_uastc (level w h : Z) :
  pad8 (uastcBytesPerImageAtLevel level w h) = 0.
Proof.
  pose proof (uastc_size_lower level w h) as L.
  pose proof (uastc_size_mod16 level w h) as M.
  rewrite pad8_spec by lia.
  set (E := uastcBytesPerImageAtLevel level w h) in *.
  assert (E mod 8 = 0) as ->.
  { rewrite (Z.div_mod E 16) by lia. rewrite M.
    replace (16 * (E / 16) + 0) with ((2 * (E / 16)) * 8) by lia.
    apply Z.mod_mul. lia. }
  reflexivity.
Qed.

Lemma dimAtMip_range (base m bound : Z) :
  0 <= m -> 0 <= base <= bound -> 1 <= bound ->
  1 <= SizeSpec.dimAtMip base m <= bound.
Proof.
  intros Hm Hb H1. unfold SizeSpec.dimAtMip.
  assert (Hp : 0 < 2 ^ m) by (apply Z.pow_pos_nonneg; lia).
  assert (base / 2 ^ m <= base) by (apply Z.div_le_upper_bound; nia).
  lia.
Qed.

Lemma exactSize_below_2_53 (m baseWidth baseHeight : Z) :
  0 <= m -> 0 <= baseWidth <= 2^26 -> 0 <= baseHeight <= 2^26 ->
  SizeSpec.exactSize m baseWidth baseHeight < 2^53.
Proof.
  intros Hm Hw Hh. unfold SizeSpec.exactSize.
  pose proof (dimAtMip_range baseWidth m (2^26) Hm Hw ltac:(lia)) as Dw.
  pose proof (dimAtMip_range baseHeight m (2^26) Hm Hh ltac:(lia)) as Dh.
  set (w := SizeSpec.dimAtMip baseWidth m) in *.
  set (h := SizeSpec.dimAtMip baseHeight m) in *.
  assert (Bw : 0 <= SizeSpec.blocks w <= 2^24).
  { unfold SizeSpec.blocks. split; [apply Z.div_pos; lia |].
    assert ((w + 3) / 4 < 2^24 + 1) by (apply Z.div_lt_upper_bound; lia).
    lia. }
  assert (Bh : 0 <= SizeSpec.blocks h <= 2^24).
  { unfold SizeSpec.blocks. split; [apply Z.div_pos; lia |].
    assert ((h + 3) / 4 < 2^24 + 1) by (apply Z.div_lt_upper_bound; lia).
    lia. }
  assert (SizeSpec.blocks w * SizeSpec.blocks h <= 2^24 * 2^24)
    by (apply Z.mul_le_mono_nonneg; lia).
  lia.
Qed.

(** C2.  Where the product is below 2^53, so that the code's doubles hold
    it exactly, the per-layer size the assembler uses at mip level m is
    ceil(max(1, baseWidth >> m) / 4) * ceil(max(1, baseHeight >> m) / 4) * 16
    with the [>>] of the code; for base dimensions in the signed 32-bit range
    and m below 32 that is the successive halving of the specification, with
    a floor at 1.  Base dimensions up to 2^26 keep the product below 2^53 at
    every level.  For a 1024x1024 base the size is 1,048,576 at mip 0,
    262,144 at mip 1 and 16 at the 1x1 mip (mip 10). *)
Theorem C2_exact_size_formula (m baseWidth baseHeight : Z) :
  (Js.ceilDiv4 (Z.max 1 (Js.shr baseWidth m))
     * Js.ceilDiv4 (Z.max 1 (Js.shr baseHeight m)) * 16 < 2^53 ->
   uastcBytesPerImageAtLevel m baseWidth baseHeight
     = Js.ceilDiv4 (Z.max 1 (Js.shr baseWidth m))
       * Js.ceilDiv4 (Z.max 1 (Js.shr baseHeight m)) * 16)
  /\ (0 <= m < 32 -> 0 <= baseWidth < 2^31 -> 0 <= baseHeight < 2^31 ->
      SizeSpec.exactSize m baseWidth baseHeight < 2^53 ->
      uastcBytesPerImageAtLevel m baseWidth baseHeight
        = SizeSpec.exactSize m baseWidth baseHeight)
  /\ (0 <= m < 32 -> 0 <= baseWidth <= 2^26 -> 0 <= baseHeight <= 2^26 ->
      uastcBytesPerImageAtLevel m baseWidth baseHeight
        = SizeSpec.exactSize m baseWidth baseHeight
      /\ SizeSpec.exactSize m baseWidth baseHeight < 2^53)
  /\ uastcBytesPerImageAtLevel 0 1024 1024 = 1048576
  /\ uastcBytesPerImageAtLevel 1 1024 1024 = 262144
  /\ uastcBytesPerImageAtLevel 10 1024 1024 = 16.
Proof.
  assert (Heq : 0 <= m < 32 -> 0 <= baseWidth < 2^31 -> 0 <= baseHeight < 2^31 ->
                uastcBytesPerImageAtLevel m baseWidth baseHeight
                = SizeSpec.exactSize m baseWidth baseHeight).
  { intros Hm Hw Hh.
    unfold uastcBytesPerImageAtLevel, SizeSpec.exactSize, SizeSpec.dimAtMip.
    cbv zeta.
    rewrite !shr_small by assumption.
    rewrite !ceilDiv4_blocks. reflexivity. }
  split; [reflexivity |].
  split; [intros Hm Hw Hh _; now apply Heq |].
  split; [| repeat split; reflexivity].
  intros Hm Hw Hh. split; [apply Heq; lia |].
  apply exactSize_below_2_53; lia.
Qed.

Lemma C2_exact_size_formula_witness :
  uastcBytesPerImageAtLevel 3 512 300 = SizeSpec.exactSize 3 512 300
  /\ SizeSpec.exactSize 3 512 300 = 2560.
Proof.
  split; [| reflexivity].
  apply (proj1 (proj2 (C2_exact_size_formula 3 512 300)));
    [lia | lia | lia | reflexivity].
Defined.

(** ** Typed-array facts *)

Lemma byteLength_nonneg (b : bytes) : 0 <= byteLength b.
Proof. unfold byteLength. lia. Qed.

Lemma byteLength_app (a b : bytes) : byteLength (a ++ b) = byteLength a + byteLength b.
Proof. unfold byteLength. rewrite length_app. lia. Qed.

Lemma length_zeros (n : nat) : length (zeros n) = n.
Proof. apply repeat_length. Qed.

Lemma zeros_add (a b : nat) : zeros (a + b) = zeros a ++ zeros b.
Proof. apply repeat_app. Qed.

Lemma subarray_prefix (src : bytes) (n : Z) :
  0 <= n -> subarray src 0 n = firstn (Z.to_nat n) src.
Proof.
  intros Hn. unfold subarray, clampIndex, byteLength.
  change (0 <? 0) with false. cbv iota.
  replace (n <? 0) with false by (symmetry; apply Z.ltb_ge; lia).
  rewrite (Z.min_l 0) by lia. change (Z.to_nat 0) with 0%nat. cbn [skipn].
  rewrite Z.sub_0_r. rewrite Z.max_l by lia.
  destruct (Z.le_ge_cases n (Z.of_nat (length src))) as [H | H].
  - rewrite Z.min_l by lia. reflexivity.
  - rewrite Z.min_r by lia. rewrite Nat2Z.id.
    rewrite !firstn_all2 by lia. reflexivity.
Qed.

Lemma subarray_length (src : bytes) (n : Z) :
  0 <= n -> byteLength (subarray src 0 n) = Z.min (byteLength src) n.
Proof.
  intros Hn. rewrite subarray_prefix by assumption.
  unfold byteLength. rewrite length_firstn. lia.
Qed.

Lemma overwrite_at_end (pre source : bytes) (n : nat) :
  (length source <= n)%nat ->
  overwrite (pre ++ zeros n) source (length pre)
    = pre ++ source ++ zeros (n - length source).
Proof.
  intros H. unfold overwrite.
  rewrite firstn_app, firstn_all, Nat.sub_diag. cbn [firstn]. rewrite app_nil_r.
  rewrite skipn_app, skipn_all2 by lia. cbn [app].
  replace (length pre + length source - length pre)%nat with (length source) by lia.
  replace n with (length source + (n - length source))%nat at 1 by lia.
  rewrite zeros_add, skipn_app, length_zeros, Nat.sub_diag.
  rewrite skipn_all2 by (rewrite length_zeros; lia). reflexivity.
Qed.

Lemma overwrite_length (target source : bytes) (offset : nat) :
  (offset + length source <= length target)%nat ->
  length (overwrite target source offset) = length target.
Proof.
  intros H. unfold overwrite.
  rewrite !length_app, length_firstn, length_skipn. lia.
Qed.

(** ** Monad facts *)

Lemma events_bind {A B} (m : M A) (f : A -> M B) :
  events (bind m f)
    = match outcome m with
      | Ok a => events m ++ events (f a)
      | Throw _ => events m
      end.
Proof.
  destruct m as [t [a | e]]; cbn; [destruct (f a); reflexivity | reflexivity].
Qed.

Lemma outcome_bind {A B} (m : M A) (f : A -> M B) :
  outcome (bind m f)
    = match outcome m with
      | Ok a => outcome (f a)
      | Throw e => Throw e
      end.
Proof.
  destruct m as [t [a | e]]; cbn; [destruct (f a); reflexivity | reflexivity].
Qed.

Lemma bind_ok {A B} (m : M A) (f : A -> M B) (t : trace) (a : A) :
  m = (t, Ok a) -> bind m f = (t ++ events (f a), outcome (f a)).
Proof. intros ->. cbn. destruct (f a); reflexivity. Qed.

Lemma typedArraySet_ok (target source : bytes) (offset : Z) :
  0 <= offset -> offset + byteLength source <= byteLength target ->
  typedArraySet target source offset
    = ([EvSet offset (byteLength source)],
       Ok (overwrite target source (Z.to_nat offset))).
Proof.
  intros H0 H1. unfold typedArraySet.
  replace (offset <? 0) with false by (symmetry; apply Z.ltb_ge; lia).
  replace (byteLength target <? offset + byteLength source) with false
    by (symmetry; apply Z.ltb_ge; lia).
  reflexivity.
Qed.

Lemma newCombined_ok (size : Z) :
  0 <= size -> newCombined size = ([EvAlloc size], Ok (zeros (Z.to_nat size))).
Proof.
  intros H. unfold newCombined.
  replace (size <? 0) with false by (symmetry; apply Z.ltb_ge; lia).
  reflexivity.
Qed.

Lemma bind_ret_l {A B} (a : A) (f : A -> M B) : bind (ret a) f = f a.
Proof. unfold ret, bind. destruct (f a); reflexivity. Qed.

(** ** The inner loop *)

Section InnerLoop.

Variables scheme E pad : Z.

Lemma written_length_le_slot (l : MipLevel) :
  (length (written scheme E l) <= length (slot scheme E pad l))%nat.
Proof.
  unfold written, slot. destruct (scheme =? 0).
  - rewrite length_app. lia.
  - lia.
Qed.

Lemma slot_written (l : MipLevel) :
  slot scheme E pad l
    = written scheme E l
      ++ zeros (length (slot scheme E pad l) - length (written scheme E l)).
Proof.
  unfold written, slot. destruct (scheme =? 0).
  - rewrite length_app, length_zeros.
    replace (length (subarray (levelData l) 0 E) + Z.to_nat pad
             - length (subarray (levelData l) 0 E))%nat with (Z.to_nat pad) by lia.
    reflexivity.
  - rewrite Nat.sub_diag. cbn. now rewrite app_nil_r.
Qed.

(** One iteration of the loop, whatever the branch: write what the layer
    contributes, advance by the size of its slot. *)
Lemma copyLayers_cons (l : MipLevel) (rest : list (option MipLevel))
    (combined : bytes) (offset : Z) :
  copyLayers scheme E pad (Some l :: rest) combined offset
  = bind (typedArraySet combined (written scheme E l) offset)
      (fun combined' =>
         copyLayers scheme E pad rest combined'
           (offset + byteLength (slot scheme E pad l))).
Proof.
  cbn [copyLayers]. unfold deref. rewrite bind_ret_l.
  unfold written, slot. destruct (scheme =? 0) eqn:Hs; cbv zeta.
  - assert (Hoff : (if pad >? 0
                    then offset + byteLength (subarray (levelData l) 0 E) + pad
                    else offset + byteLength (subarray (levelData l) 0 E))
                   = offset + byteLength (subarray (levelData l) 0 E
                                          ++ zeros (Z.to_nat pad))).
    { rewrite byteLength_app. unfold byteLength at 4. rewrite length_zeros.
      destruct (pad >? 0) eqn:Hp; lia. }
    rewrite Hoff. reflexivity.
  - reflexivity.
Qed.

(** Running the loop over a zero-filled tail: every layer's slot is laid
    down in order, and what remains stays zero. *)
Lemma copyLayers_run (ls : list MipLevel) :
  forall (pre : bytes) (n : nat),
    (length (concat (map (slot scheme E pad) ls)) <= n)%nat ->
    copyLayers scheme E pad (map Some ls) (pre ++ zeros n) (byteLength pre)
    = (setTrace scheme E pad ls (byteLength pre),
       Ok (pre ++ concat (map (slot scheme E pad) ls)
               ++ zeros (n - length (concat (map (slot scheme E pad) ls))),
           byteLength pre + byteLength (concat (map (slot scheme E pad) ls)))).
Proof.
  induction ls as [| l rest IH]; intros pre n Hn.
  - cbn [map copyLayers setTrace concat app length]. unfold ret.
    rewrite Nat.sub_0_r. change (byteLength []) with 0. now rewrite Z.add_0_r.
  - cbn [map concat] in Hn. rewrite length_app in Hn.
    pose proof (written_length_le_slot l) as Hw.
    set (sl := slot scheme E pad l) in *.
    set (tl := concat (map (slot scheme E pad) rest)) in *.
    assert (Hset : typedArraySet (pre ++ zeros n) (written scheme E l) (byteLength pre)
                   = ([EvSet (byteLength pre) (byteLength (written scheme E l))],
                      Ok ((pre ++ sl) ++ zeros (n - length sl)))).
    { rewrite typedArraySet_ok.
      - f_equal. f_equal. unfold byteLength at 1. rewrite Nat2Z.id.
        rewrite overwrite_at_end by lia.
        unfold sl at 1. rewrite (slot_written l). fold sl.
        rewrite <- !app_assoc. f_equal. f_equal.
        rewrite <- zeros_add. f_equal. lia.
      - apply byteLength_nonneg.
      - rewrite byteLength_app. unfold byteLength. rewrite length_zeros. lia. }
    cbn [map]. rewrite copyLayers_cons. rewrite (bind_ok _ _ _ _ Hset).
    fold sl. rewrite <- byteLength_app.
    rewrite (IH (pre ++ sl) (n - length sl)%nat) by (fold tl; lia).
    fold tl. cbn [events outcome fst snd setTrace concat]. fold sl. fold tl.
    f_equal.
    + cbn [app]. now rewrite byteLength_app.
    + f_equal. f_equal.
      * replace (n - length sl - length tl)%nat with (n - length (sl ++ tl))%nat
          by (rewrite length_app; lia).
        now rewrite <- !app_assoc.
      * rewrite !byteLength_app. lia.
Qed.

End InnerLoop.

(** ** One mip level *)

Lemma sumOf_cons {A} (f : A -> Z) (x : A) (xs : list A) :
  sumOf f (x :: xs) = f x + sumOf f xs.
Proof. reflexivity. Qed.

Lemma sumOf_nonneg {A} (f : A -> Z) (xs : list A) :
  (forall x, 0 <= f x) -> 0 <= sumOf f xs.
Proof.
  intros Hf. induction xs as [| x rest IH]; [cbn; lia |].
  rewrite sumOf_cons. specialize (Hf x). lia.
Qed.

Lemma reduceSum_some {A} (f : A -> Z) (xs : list A) :
  forall sum, reduceSum f (map Some xs) sum = ret (sum + sumOf f xs).
Proof.
  induction xs as [| x rest IH]; intros sum; cbn [map reduceSum].
  - cbn. now rewrite Z.add_0_r.
  - unfold deref. rewrite bind_ret_l, IH, sumOf_cons.
    now rewrite Z.add_assoc.
Qed.

Lemma byteLength_concat_slots_verbatim (scheme E pad : Z) (ls : list MipLevel) :
  (scheme =? 0) = false ->
  byteLength (concat (map (slot scheme E pad) ls))
    = sumOf (fun l => byteLength (levelData l)) ls.
Proof.
  intros Hs. induction ls as [| l rest IH]; [reflexivity |].
  cbn [map concat]. rewrite sumOf_cons, byteLength_app, IH.
  unfold slot at 1. now rewrite Hs.
Qed.

Lemma byteLength_slot_none (scheme E pad : Z) (l : MipLevel) :
  0 <= E -> 0 <= pad -> (scheme =? 0) = true ->
  byteLength (slot scheme E pad l) = Z.min (byteLength (levelData l)) E + pad.
Proof.
  intros HE Hp Hs. unfold slot. rewrite Hs, byteLength_app, subarray_length by lia.
  unfold byteLength at 2. rewrite length_zeros. lia.
Qed.

Lemma byteLength_concat_slots_none (scheme E pad : Z) (ls : list MipLevel) :
  0 <= E -> 0 <= pad -> (scheme =? 0) = true ->
  byteLength (concat (map (slot scheme E pad) ls))
    <= (E + pad) * Z.of_nat (length ls).
Proof.
  intros HE Hp Hs. induction ls as [| l rest IH]; [cbn; lia |].
  cbn [map concat length]. rewrite byteLength_app, byteLength_slot_none by assumption.
  lia.
Qed.

Lemma slots_fit (scheme E pad : Z) (ls : list MipLevel) :
  0 <= E -> 0 <= pad ->
  0 <= totalSizeOf scheme E pad ls
  /\ byteLength (concat (map (slot scheme E pad) ls)) <= totalSizeOf scheme E pad ls.
Proof.
  intros HE Hp. unfold totalSizeOf. destruct (scheme =? 0) eqn:Hs.
  - split; [nia | now apply byteLength_concat_slots_none].
  - rewrite byteLength_concat_slots_verbatim by assumption.
    split; [| lia]. apply sumOf_nonneg. intros x. apply byteLength_nonneg.
Qed.

Lemma gather_levels (mipLevel : nat) (encodedLayers : list Layer.t) :
  Forall (fun layer => (mipLevel < length (Layer.levels layer))%nat) encodedLayers ->
  map (fun layer => nth_error (Layer.levels layer) mipLevel) encodedLayers
    = map Some (levelsAt mipLevel encodedLayers).
Proof.
  intros H. unfold levelsAt. rewrite map_map. apply map_ext_in.
  intros layer Hin. rewrite Forall_forall in H.
  apply nth_error_nth'. now apply H.
Qed.

(** [assembleLevel] on layers that all carry the level: the allocation,
    the [set] calls in layer order, and the combined level in closed form. *)
Lemma assembleLevel_run (encodedLayers : list Layer.t) (bp : BaseParams) (m : nat) :
  Forall (fun layer => (m < length (Layer.levels layer))%nat) encodedLayers ->
  assembleLevel encodedLayers bp m
    = (levelTrace bp m (levelsAt m encodedLayers),
       Ok (combinedLevelOf bp m (levelsAt m encodedLayers))).
Proof.
  intros Hall. unfold assembleLevel, levelTrace, combinedLevelOf. cbv zeta.
  rewrite (gather_levels m encodedLayers Hall).
  set (ls := levelsAt m encodedLayers).
  set (E := uastcBytesPerImageAtLevel (Z.of_nat m) (baseWidth bp) (baseHeight bp)).
  set (scheme := baseSupercompression bp).
  assert (HE : 0 <= E) by (pose proof (uastc_size_lower (Z.of_nat m) (baseWidth bp) (baseHeight bp)); unfold E; lia).
  assert (Hp : 0 <= pad8 E) by (apply pad8_range; lia).
  destruct (slots_fit scheme E (pad8 E) ls HE Hp) as [HT Hfit].
  assert (Hlen : length ls = length encodedLayers)
    by (unfold ls, levelsAt; apply length_map).
  assert (Htotal :
            (if scheme =? 0
             then ret ((E + pad8 E) * Z.of_nat (length encodedLayers))
             else reduceSum (fun l => byteLength (levelData l)) (map Some ls) 0)
            = ret (totalSizeOf scheme E (pad8 E) ls)).
  { unfold totalSizeOf. destruct (scheme =? 0).
    - now rewrite Hlen.
    - now rewrite reduceSum_some. }
  rewrite Htotal, bind_ret_l.
  set (T := totalSizeOf scheme E (pad8 E) ls) in *.
  rewrite (bind_ok _ _ _ _ (newCombined_ok T HT)).
  pose proof (copyLayers_run scheme E (pad8 E) ls [] (Z.to_nat T)) as Hrun.
  cbn [app] in Hrun. change (byteLength []) with 0 in Hrun.
  rewrite Hrun by (unfold byteLength in Hfit; lia).
  cbn [events outcome fst snd].
  assert (Hunc :
            (if scheme =? 0
             then ret T
             else reduceSum uncompressedByteLength (map Some ls) 0)
            = ret (if scheme =? 0 then T else sumOf uncompressedByteLength ls)).
  { destruct (scheme =? 0); [reflexivity | now rewrite reduceSum_some]. }
  rewrite Hunc. cbn. rewrite app_nil_r. reflexivity.
Qed.

(** ** All mip levels *)

Lemma mapM_run {A B} (f : A -> M B) (t : A -> trace) (g : A -> B) (xs : list A) :
  (forall x, In x xs -> f x = (t x, Ok (g x))) ->
  mapM f xs = (flat_map t xs, Ok (map g xs)).
Proof.
  induction xs as [| x rest IH]; intros H; [reflexivity |].
  cbn [mapM flat_map map].
  rewrite (bind_ok _ _ _ _ (H x (or_introl eq_refl))).
  rewrite IH by (intros y Hy; apply H; now right).
  cbn. now rewrite app_nil_r.
Qed.

Lemma uniformMips_level (mipCount m : nat) (encodedLayers : list Layer.t) :
  uniformMips mipCount encodedLayers -> (m < mipCount)%nat ->
  Forall (fun layer => (m < length (Layer.levels layer))%nat) encodedLayers.
Proof.
  unfold uniformMips. intros H Hm. eapply Forall_impl; [| exact H].
  cbn. intros layer ->. exact Hm.
Qed.

(** [_assembleMipLevels] on validated layers: one combined level per mip
    index, each in closed form. *)
Lemma assembleMipLevels_run (encodedLayers : list Layer.t) (bp : BaseParams)
    (mipCount : nat) :
  encodedLayers <> [] ->
  uniformMips mipCount encodedLayers ->
  _assembleMipLevels encodedLayers (Some bp)
    = (flat_map (fun m => levelTrace bp m (levelsAt m encodedLayers)) (seq 0 mipCount),
       Ok (map (fun m => combinedLevelOf bp m (levelsAt m encodedLayers))
             (seq 0 mipCount))).
Proof.
  intros Hne Hu. destruct encodedLayers as [| first others]; [congruence |].
  unfold _assembleMipLevels. cbn [deref nth_error]. rewrite !bind_ret_l.
  assert (Hfirst : length (Layer.levels first) = mipCount)
    by (now inversion Hu).
  rewrite Hfirst. apply mapM_run.
  intros m Hm. apply in_seq in Hm. apply assembleLevel_run.
  apply (uniformMips_level mipCount); [assumption | lia].
Qed.

Lemma nth_combined (encodedLayers : list Layer.t) (bp : BaseParams)
    (mipCount m : nat) :
  (m < mipCount)%nat ->
  nth m (map (fun m => combinedLevelOf bp m (levelsAt m encodedLayers))
           (seq 0 mipCount)) emptyLevel
    = combinedLevelOf bp m (levelsAt m encodedLayers).
Proof.
  intros Hm.
  rewrite (nth_indep _ emptyLevel
             (combinedLevelOf bp 0 (levelsAt 0 encodedLayers)))
    by (rewrite length_map, length_seq; exact Hm).
  rewrite (map_nth (fun m => combinedLevelOf bp m (levelsAt m encodedLayers))).
  now rewrite seq_nth.
Qed.

(** ** Offsets and sub-buffers *)

Lemma setOffsets_setTrace (scheme E pad : Z) (ls : list MipLevel) :
  forall offset,
    setOffsets (setTrace scheme E pad ls offset) = layerOffsets scheme E pad ls offset.
Proof.
  induction ls as [| l rest IH]; intros offset; [reflexivity |].
  cbn [setTrace setOffsets layerOffsets]. now rewrite IH.
Qed.

Lemma length_layerOffsets (scheme E pad : Z) (ls : list MipLevel) :
  forall offset, length (layerOffsets scheme E pad ls offset) = length ls.
Proof.
  induction ls as [| l rest IH]; intros offset; [reflexivity |].
  cbn [layerOffsets length]. now rewrite IH.
Qed.

(** Layer [i] starts where the slots of the layers before it end. *)
Lemma nth_layerOffsets (scheme E pad : Z) (ls : list MipLevel) :
  forall (i : nat) (offset : Z),
    (i < length ls)%nat ->
    nth i (layerOffsets scheme E pad ls offset) 0
      = offset + byteLength (concat (map (slot scheme E pad) (firstn i ls))).
Proof.
  induction ls as [| l rest IH]; intros i offset Hi; [cbn in Hi; lia |].
  destruct i as [| i].
  - cbn. change (byteLength []) with 0. lia.
  - cbn [layerOffsets nth firstn map concat]. cbn [length] in Hi.
    rewrite IH by lia. rewrite byteLength_app. lia.
Qed.

Lemma firstn_S_nth {A} (xs : list A) (i : nat) (d : A) :
  (i < length xs)%nat -> firstn (S i) xs = firstn i xs ++ [nth i xs d].
Proof.
  revert i. induction xs as [| x rest IH]; intros i Hi; [cbn in Hi; lia |].
  destruct i as [| i]; [reflexivity |].
  cbn [firstn nth app]. cbn [length] in Hi. f_equal. apply IH. lia.
Qed.

Lemma split_at_nth {A} (xs : list A) (i : nat) (d : A) :
  (i < length xs)%nat -> xs = firstn i xs ++ nth i xs d :: skipn (S i) xs.
Proof.
  revert i. induction xs as [| x rest IH]; intros i Hi; [cbn in Hi; lia |].
  destruct i as [| i]; [reflexivity |].
  cbn [firstn nth skipn app]. cbn [length] in Hi. f_equal. apply IH. lia.
Qed.

(** The prefix of slot [i] can be read back at the start of that slot. *)
Lemma sliceAt_slot (chunks : list bytes) (tail : bytes) (i : nat) (w : bytes) (k : nat) :
  (i < length chunks)%nat ->
  firstn k (nth i chunks []) = w -> (k <= length (nth i chunks []))%nat ->
  sliceAt (concat chunks ++ tail) (byteLength (concat (firstn i chunks))) k = w.
Proof.
  intros Hi Hw Hk. unfold sliceAt, byteLength. rewrite Nat2Z.id.
  rewrite (split_at_nth chunks i [] Hi) at 2.
  rewrite concat_app. cbn [concat]. rewrite <- !app_assoc.
  rewrite skipn_app, skipn_all, Nat.sub_diag. cbn [app skipn].
  rewrite firstn_app.
  replace (k - length (nth i chunks []))%nat with 0%nat by lia.
  cbn [firstn]. now rewrite app_nil_r.
Qed.

(** ** Layout without supercompression *)

Lemma nth_levelsAt (m i : nat) (encodedLayers : list Layer.t) (layer : Layer.t) :
  nth_error encodedLayers i = Some layer ->
  (i < length (levelsAt m encodedLayers))%nat
  /\ nth i (levelsAt m encodedLayers) emptyLevel
     = nth m (Layer.levels layer) emptyLevel.
Proof.
  intros H. unfold levelsAt. rewrite length_map. split.
  - apply nth_error_Some. congruence.
  - apply nth_error_nth.
    rewrite nth_error_map, H. reflexivity.
Qed.

Lemma byteLength_concat_uniform (chunks : list bytes) (k : Z) :
  Forall (fun c => byteLength c = k) chunks ->
  byteLength (concat chunks) = Z.of_nat (length chunks) * k.
Proof.
  induction 1 as [| c rest Hc _ IH]; [reflexivity |].
  cbn [concat length]. rewrite byteLength_app, IH, Hc. lia.
Qed.

Lemma Forall_firstn {A} (P : A -> Prop) (xs : list A) (n : nat) :
  Forall P xs -> Forall P (firstn n xs).
Proof.
  intros H. revert n. induction H as [| x rest Hx _ IH]; intros [| n]; cbn; auto.
Qed.

Lemma slot_none_full (scheme E pad : Z) (l : MipLevel) :
  (scheme =? 0) = true -> 0 <= E ->
  slot scheme E pad l = firstn (Z.to_nat E) (levelData l) ++ zeros (Z.to_nat pad).
Proof.
  intros Hs HE. unfold slot. now rewrite Hs, subarray_prefix.
Qed.

(** C1.  Without supercompression, for layers that keep the invariant of
    a mip level -- the payload holds the exact block size E of its level;
    the theorem asks only for at least E bytes -- assembly succeeds and, at
    each level, layer i owns exactly the E + ((8 - E%8)%8) bytes at offset
    i * (E + pad): the first E bytes of its payload followed by pad zero
    bytes; the combined buffer measures layerCount * (E + pad) bytes and
    uncompressedByteLength equals that total. *)
Theorem C1_none_padding_layout (encodedLayers : list Layer.t) (bp : BaseParams)
    (mipCount : nat) :
  encodedLayers <> [] ->
  uniformMips mipCount encodedLayers ->
  baseSupercompression bp = 0 ->
  (forall (m : nat) (layer : Layer.t),
      (m < mipCount)%nat -> In layer encodedLayers ->
      uastcBytesPerImageAtLevel (Z.of_nat m) (baseWidth bp) (baseHeight bp)
        <= byteLength (payloadAt m layer)) ->
  exists combinedLevels,
    outcome (_assembleMipLevels encodedLayers (Some bp)) = Ok combinedLevels
    /\ length combinedLevels = mipCount
    /\ forall m, (m < mipCount)%nat ->
         nonePaddingLayout encodedLayers bp combinedLevels m.
Proof.
  intros Hne Hu Hs Hpay.
  rewrite (assembleMipLevels_run encodedLayers bp mipCount Hne Hu).
  eexists. split; [reflexivity |]. split; [now rewrite length_map, length_seq |].
  intros m Hm. unfold nonePaddingLayout. cbv zeta.
  rewrite (nth_combined encodedLayers bp mipCount m Hm).
  set (E := uastcBytesPerImageAtLevel (Z.of_nat m) (baseWidth bp) (baseHeight bp)).
  assert (HE : 16 <= E) by apply uastc_size_lower.
  rewrite <- (pad8_spec E) by lia.
  pose proof (pad8_range E ltac:(lia)) as Hp.
  set (pad := pad8 E) in *.
  set (ls := levelsAt m encodedLayers).
  assert (Hsb : (baseSupercompression bp =? 0) = true) by (now rewrite Hs).
  assert (Hfull : Forall (fun l => E <= byteLength (levelData l)) ls).
  { unfold ls, levelsAt. apply Forall_forall. intros l Hin.
    apply in_map_iff in Hin. destruct Hin as [layer [<- Hin]].
    apply (Hpay m layer Hm Hin). }
  assert (Hslots : Forall (fun c => byteLength c = E + pad)
                     (map (slot (baseSupercompression bp) E pad) ls)).
  { apply Forall_map. eapply Forall_impl; [| exact Hfull].
    cbn. intros l Hl. rewrite byteLength_slot_none by (assumption || lia). lia. }
  assert (Hlen : length ls = length encodedLayers)
    by (unfold ls, levelsAt; apply length_map).
  assert (Htot : byteLength (concat (map (slot (baseSupercompression bp) E pad) ls))
                 = Z.of_nat (length encodedLayers) * (E + pad)).
  { rewrite (byteLength_concat_uniform _ (E + pad) Hslots), length_map, Hlen.
    reflexivity. }
  unfold combinedLevelOf. cbv zeta. fold E. fold pad. fold ls.
  cbn [levelData uncompressedByteLength]. rewrite Hsb.
  unfold totalSizeOf. rewrite Hsb, Hlen.
  repeat split.
  - destruct (nth_levelsAt m i encodedLayers layer H) as [Hi Hnth].
    unfold payloadAt. rewrite <- Hnth. fold ls.
    rewrite <- (slot_none_full (baseSupercompression bp)) by (assumption || lia).
    rewrite Forall_forall in Hslots. apply Hslots.
    apply in_map. apply nth_In. exact Hi.
  - destruct (nth_levelsAt m i encodedLayers layer H) as [Hi Hnth].
    fold ls in Hi, Hnth.
    set (chunks := map (slot (baseSupercompression bp) E pad) ls) in *.
    assert (Hic : (i < length chunks)%nat) by (unfold chunks; now rewrite length_map).
    assert (Hchunk : nth i chunks []
                     = firstn (Z.to_nat E) (payloadAt m layer) ++ zeros (Z.to_nat pad)).
    { unfold chunks.
      rewrite (nth_indep _ [] (slot (baseSupercompression bp) E pad emptyLevel))
        by (now rewrite length_map).
      rewrite (map_nth (slot (baseSupercompression bp) E pad)), Hnth.
      apply slot_none_full; [assumption | lia]. }
    assert (Hsz : byteLength (nth i chunks []) = E + pad).
    { rewrite Forall_forall in Hslots. apply Hslots. now apply nth_In. }
    replace (Z.of_nat i * (E + pad)) with (byteLength (concat (firstn i chunks))).
    2:{ rewrite (byteLength_concat_uniform _ (E + pad)
                   (Forall_firstn _ _ i Hslots)).
        rewrite length_firstn. rewrite Nat.min_l by lia. reflexivity. }
    rewrite <- Hchunk. apply sliceAt_slot; [exact Hic | | unfold byteLength in Hsz; lia].
    apply firstn_all2. unfold byteLength in Hsz. lia.
  - rewrite byteLength_app, Htot. unfold byteLength at 1. rewrite length_zeros.
    unfold byteLength in Htot. lia.
  - lia.
Qed.

Lemma C1_none_padding_layout_witness :
  exists combinedLevels,
    outcome (_assembleMipLevels paddedLayers (Some (sampleBase 0 4 4 0 1)))
      = Ok combinedLevels
    /\ length combinedLevels = 1%nat
    /\ forall m, (m < 1)%nat ->
         nonePaddingLayout paddedLayers (sampleBase 0 4 4 0 1) combinedLevels m.
Proof.
  apply (C1_none_padding_layout paddedLayers (sampleBase 0 4 4 0 1) 1).
  - discriminate.
  - repeat constructor.
  - reflexivity.
  - intros m layer Hm Hin. assert (m = 0%nat) as -> by lia.
    destruct Hin as [<- | [<- | []]]; vm_compute; discriminate.
Defined.

(** ** Layout with supercompression *)





(** ** The format rule of the validator *)

(** C4.  Validation never raises a format mismatch when the base format or
    the layer's format is 0, and it raises one, naming the layer and both
    formats, whenever the two are non-zero and unequal. *)
Theorem C4_format_wildcard (container : Container.t) (bp : BaseParams)
    (layerIndex : nat) :
  (baseFormat bp = 0 \/ Container.vkFormat container = 0 ->
   ~ isFormatMismatch (_validateLayerConsistency container bp layerIndex))
  /\ (baseFormat bp <> 0 -> Container.vkFormat container <> 0 ->
      Container.vkFormat container <> baseFormat bp ->
      _validateLayerConsistency container bp layerIndex
        = Throw (FormatMismatch layerIndex (baseFormat bp)
                   (Container.vkFormat container))).
Proof.
  unfold _validateLayerConsistency. split.
  - intros Hzero [i [expected [got H]]].
    assert (Hcond : negb (baseFormat bp =? 0)
                    && negb (Container.vkFormat container =? 0) = false).
    { destruct Hzero as [-> | ->]; cbn; [reflexivity | apply andb_false_r]. }
    rewrite Hcond in H. cbn [andb] in H.
    destruct (negb (Container.pixelWidth container =? baseWidth bp)
              || negb (Container.pixelHeight container =? baseHeight bp));
      [discriminate |].
    destruct (negb (length (Container.levels container)
                    =? firstLayerMipCount bp)%nat); discriminate.
  - intros Hb Hc Hne.
    apply Z.eqb_neq in Hb, Hc, Hne. now rewrite Hb, Hc, Hne.
Qed.

Lemma C4_format_wildcard_witness :
  ~ isFormatMismatch
      (_validateLayerConsistency (sampleContainer 0 4 4 []) (sampleBase 131 4 4 0 0) 1)
  /\ _validateLayerConsistency (sampleContainer 147 4 4 []) (sampleBase 131 4 4 0 0) 1
     = Throw (FormatMismatch 1 131 147).
Proof.
  split.
  - apply (proj1 (C4_format_wildcard (sampleContainer 0 4 4 [])
                    (sampleBase 131 4 4 0 0) 1)).
    right. reflexivity.
  - apply (proj2 (C4_format_wildcard (sampleContainer 147 4 4 [])
                    (sampleBase 131 4 4 0 0) 1)); discriminate.
Defined.

(** ** The declared format plays no part in assembly *)

Lemma mapM_ext {A B} (f g : A -> M B) (xs : list A) :
  (forall x, f x = g x) -> mapM f xs = mapM g xs.
Proof.
  intros H. induction xs as [| x rest IH]; [reflexivity |].
  cbn [mapM]. now rewrite H, IH.
Qed.

Lemma assembleLevel_format (f : Z) (encodedLayers : list Layer.t)
    (bp : BaseParams) (m : nat) :
  assembleLevel (map (withFormat f) encodedLayers) (withBaseFormat f bp) m
    = assembleLevel encodedLayers bp m.
Proof.
  unfold assembleLevel. rewrite length_map, map_map. reflexivity.
Qed.

Lemma classify_supported (e : JsError) : classify e <> UnsupportedFormatError.
Proof. destruct e; discriminate. Qed.

(** Whatever the payloads, the combined level has the allocated size. *)
Lemma combinedLevelOf_size (bp : BaseParams) (m : nat) (ls : list MipLevel) :
  let E := uastcBytesPerImageAtLevel (Z.of_nat m) (baseWidth bp) (baseHeight bp) in
  byteLength (levelData (combinedLevelOf bp m ls))
    = totalSizeOf (baseSupercompression bp) E (pad8 E) ls.
Proof.
  intros E. unfold combinedLevelOf. cbv zeta. fold E. cbn [levelData].
  assert (HE : 16 <= E) by apply uastc_size_lower.
  pose proof (pad8_range E ltac:(lia)) as Hp.
  destruct (slots_fit (baseSupercompression bp) E (pad8 E) ls ltac:(lia) ltac:(lia))
    as [HT Hfit].
  rewrite byteLength_app. unfold byteLength in *. rewrite length_zeros. lia.
Qed.

(** C6 (amended).  [_assembleMipLevels] never looks at the declared format:
    replacing the format tag of the base parameters and of every layer by
    any other value leaves its events and its result unchanged, it never
    ends with an UnsupportedFormatError, and without supercompression it
    sizes every combined level by the 4x4-block, 16-bytes-per-block rule,
    layerCount * (E + pad), whatever the format tag says. *)
Theorem C6_format_not_inspected (f : Z) (encodedLayers : list Layer.t)
    (baseParams : option BaseParams) :
  _assembleMipLevels (map (withFormat f) encodedLayers)
      (option_map (withBaseFormat f) baseParams)
    = _assembleMipLevels encodedLayers baseParams
  /\ ~ failsUnsupported (outcome (_assembleMipLevels encodedLayers baseParams))
  /\ forall bp mipCount,
       baseParams = Some bp ->
       baseSupercompression bp = 0 ->
       encodedLayers <> [] ->
       uniformMips mipCount encodedLayers ->
       exists combinedLevels,
         outcome (_assembleMipLevels encodedLayers baseParams) = Ok combinedLevels
         /\ forall m, (m < mipCount)%nat ->
              let E := uastcBytesPerImageAtLevel (Z.of_nat m)
                         (baseWidth bp) (baseHeight bp) in
              byteLength (levelData (nth m combinedLevels emptyLevel))
                = (E + pad8 E) * Z.of_nat (length encodedLayers).
Proof.
  split; [| split].
  - unfold _assembleMipLevels. destruct baseParams as [bp |]; [| reflexivity].
    cbn [option_map deref]. rewrite !bind_ret_l.
    destruct encodedLayers as [| first others]; [reflexivity |].
    cbn [map nth_error deref]. rewrite !bind_ret_l.
    cbn [withFormat Layer.levels].
    apply mapM_ext. intros m.
    apply (assembleLevel_format f (first :: others) bp m).
  - intros [e [_ He]]. now apply (classify_supported e).
  - intros bp mipCount -> Hs Hne Hu.
    rewrite (assembleMipLevels_run encodedLayers bp mipCount Hne Hu).
    eexists. split; [reflexivity |].
    intros m Hm E. rewrite (nth_combined encodedLayers bp mipCount m Hm).
    rewrite combinedLevelOf_size. fold E.
    unfold totalSizeOf. rewrite Hs. cbn [Z.eqb].
    unfold levelsAt. now rewrite length_map.
Qed.

Lemma C6_format_not_inspected_witness :
  exists combinedLevels,
    outcome (_assembleMipLevels bc1Layers (Some (sampleBase 131 4 4 0 1)))
      = Ok combinedLevels
    /\ forall m, (m < 1)%nat ->
         let E := uastcBytesPerImageAtLevel (Z.of_nat m) 4 4 in
         byteLength (levelData (nth m combinedLevels emptyLevel))
           = (E + pad8 E) * 2.
Proof.
  apply (proj2 (proj2 (C6_format_not_inspected 0 bc1Layers
                         (Some (sampleBase 131 4 4 0 1))))
           (sampleBase 131 4 4 0 1) 1%nat).
  - reflexivity.
  - reflexivity.
  - discriminate.
  - repeat constructor.
Defined.

(** C6 as stated fails: layers declared as BC1 (4x4 blocks of 8 bytes) are
    not refused; they are packed into a buffer sized by the 16-byte rule. *)
Lemma C6_unsupported_format_counterexample :
  Forall (fun layer => Layer.format layer = 131) bc1Layers
  /\ outcome (_assembleMipLevels bc1Layers (Some (sampleBase 131 4 4 0 1)))
     = Ok [ {| levelData := repeat x01 8 ++ repeat x02 8 ++ repeat x00 16;
               uncompressedByteLength := 32 |} ]
  /\ ~ failsUnsupported
         (outcome (_assembleMipLevels bc1Layers (Some (sampleBase 131 4 4 0 1)))).
Proof.
  split; [repeat constructor |]. split; [reflexivity |].
  intros [e [H _]]. discriminate H.
Qed.

(** ** Layers appear in ascending order *)

Lemma slot_positive (scheme E pad : Z) (l : MipLevel) :
  0 < E -> 0 <= pad -> 0 < byteLength (levelData l) ->
  0 < byteLength (slot scheme E pad l).
Proof.
  intros HE Hp Hl. destruct (scheme =? 0) eqn:Hs.
  - rewrite byteLength_slot_none by (assumption || lia). lia.
  - unfold slot. now rewrite Hs.
Qed.

Lemma prefix_written_of_slot (scheme E pad : Z) (l : MipLevel) :
  firstn (length (written scheme E l)) (slot scheme E pad l) = written scheme E l.
Proof.
  rewrite (slot_written scheme E pad l).
  rewrite firstn_app, firstn_all, Nat.sub_diag. cbn [firstn]. apply app_nil_r.
Qed.

(** C5.  For layers that carry the mip level and whose payloads at it are
    not empty, the inner loop writes once per layer, in layer order, at
    strictly increasing offsets, and what it wrote for layer i is found in
    the combined buffer at the offset of layer i. *)
Theorem C5_layer_offsets_ascending (encodedLayers : list Layer.t)
    (bp : BaseParams) (m : nat) :
  Forall (fun layer => (m < length (Layer.levels layer))%nat) encodedLayers ->
  (forall layer, In layer encodedLayers -> 0 < byteLength (payloadAt m layer)) ->
  let offsets := setOffsets (events (assembleLevel encodedLayers bp m)) in
  let E := uastcBytesPerImageAtLevel (Z.of_nat m) (baseWidth bp) (baseHeight bp) in
  length offsets = length encodedLayers
  /\ (forall i, (S i < length encodedLayers)%nat ->
        nth i offsets 0 < nth (S i) offsets 0)
  /\ exists combined,
       outcome (assembleLevel encodedLayers bp m) = Ok combined
       /\ forall (i : nat) (layer : Layer.t),
            nth_error encodedLayers i = Some layer ->
            let w := written (baseSupercompression bp) E
                       (nth m (Layer.levels layer) emptyLevel) in
            sliceAt (levelData combined) (nth i offsets 0) (length w) = w.
Proof.
  intros Hall Hpos offsets E.
  assert (Hev : offsets
                = layerOffsets (baseSupercompression bp) E (pad8 E)
                    (levelsAt m encodedLayers) 0).
  { unfold offsets. rewrite (assembleLevel_run encodedLayers bp m Hall).
    cbn [events fst]. unfold levelTrace. cbv zeta. cbn [setOffsets].
    apply setOffsets_setTrace. }
  assert (HE : 16 <= E) by apply uastc_size_lower.
  pose proof (pad8_range E ltac:(lia)) as Hp.
  set (scheme := baseSupercompression bp) in *.
  set (pad := pad8 E) in *.
  set (ls := levelsAt m encodedLayers) in *.
  assert (Hlen : length ls = length encodedLayers)
    by (unfold ls, levelsAt; apply length_map).
  rewrite Hev. split; [| split].
  - now rewrite length_layerOffsets.
  - intros i Hi. rewrite !nth_layerOffsets by lia.
    rewrite (firstn_S_nth ls i emptyLevel) by lia.
    rewrite map_app, concat_app, byteLength_app. cbn [map concat].
    rewrite app_nil_r.
    assert (0 < byteLength (slot scheme E pad (nth i ls emptyLevel))); [| lia].
    apply slot_positive; [lia | lia |].
    unfold ls, levelsAt.
    rewrite (nth_indep _ emptyLevel
               (nth m (Layer.levels (sampleLayer 0 0 0 [])) emptyLevel))
      by (rewrite length_map; lia).
    rewrite (map_nth (fun layer => nth m (Layer.levels layer) emptyLevel)).
    apply (Hpos (nth i encodedLayers (sampleLayer 0 0 0 []))).
    apply nth_In. lia.
  - rewrite (assembleLevel_run encodedLayers bp m Hall).
    eexists. split; [reflexivity |].
    intros i layer Hnth w.
    destruct (nth_levelsAt m i encodedLayers layer Hnth) as [Hi Hl].
    fold ls in Hi, Hl.
    rewrite nth_layerOffsets by exact Hi. rewrite Z.add_0_l.
    unfold combinedLevelOf. cbv zeta. cbn [levelData].
    fold E. fold scheme. fold pad. fold ls.
    set (chunks := map (slot scheme E pad) ls).
    assert (Hchunk : nth i chunks [] = slot scheme E pad (nth i ls emptyLevel)).
    { unfold chunks.
      rewrite (nth_indep _ [] (slot scheme E pad emptyLevel))
        by (now rewrite length_map).
      apply (map_nth (slot scheme E pad)). }
    replace (map (slot scheme E pad) (firstn i ls)) with (firstn i chunks)
      by (unfold chunks; apply firstn_map).
    apply sliceAt_slot.
    + unfold chunks. now rewrite length_map.
    + rewrite Hchunk, Hl. apply prefix_written_of_slot.
    + rewrite Hchunk, Hl. apply written_length_le_slot.
Qed.

Lemma C5_layer_offsets_ascending_witness :
  let offsets :=
    setOffsets (events (assembleLevel paddedLayers (sampleBase 0 4 4 0 1) 0)) in
  let E := uastcBytesPerImageAtLevel 0 4 4 in
  length offsets = 2%nat
  /\ (forall i, (S i < 2)%nat -> nth i offsets 0 < nth (S i) offsets 0)
  /\ exists combined,
       outcome (assembleLevel paddedLayers (sampleBase 0 4 4 0 1) 0) = Ok combined
       /\ forall (i : nat) (layer : Layer.t),
            nth_error paddedLayers i = Some layer ->
            let w := written 0 E (nth 0 (Layer.levels layer) emptyLevel) in
            sliceAt (levelData combined) (nth i offsets 0) (length w) = w.
Proof.
  apply (C5_layer_offsets_ascending paddedLayers (sampleBase 0 4 4 0 1) 0).
  - repeat constructor.
  - intros layer Hin.
    destruct Hin as [<- | [<- | []]]; vm_compute; reflexivity.
Defined.

(** ** Every copy stays inside the combined buffer *)

Lemma sumOf_slotBound_none (scheme E pad : Z) (xs : list (option MipLevel)) :
  (scheme =? 0) = true ->
  sumOf (slotBound scheme E pad) xs = (E + pad) * Z.of_nat (length xs).
Proof.
  intros Hs. induction xs as [| x rest IH]; [cbn; lia |].
  rewrite sumOf_cons, IH. unfold slotBound. rewrite Hs. cbn [length]. lia.
Qed.

Lemma sumOf_slotBound_verbatim (scheme E pad : Z) (ls : list MipLevel) :
  (scheme =? 0) = false ->
  sumOf (slotBound scheme E pad) (map Some ls)
    = sumOf (fun l => byteLength (levelData l)) ls.
Proof.
  intros Hs. induction ls as [| l rest IH]; [reflexivity |].
  cbn [map]. rewrite !sumOf_cons, IH. unfold slotBound. now rewrite Hs.
Qed.

Section Bounds.

Variables scheme E pad total : Z.
Hypothesis E_nonneg : 0 <= E.
Hypothesis pad_nonneg : 0 <= pad.

Lemma written_bound (l : MipLevel) :
  byteLength (written scheme E l) <= slotBound scheme E pad (Some l)
  /\ (scheme = 0 -> byteLength (written scheme E l) <= E).
Proof.
  unfold written, slotBound. destruct (scheme =? 0) eqn:Hs.
  - rewrite subarray_length by assumption. split; lia.
  - split; [lia |]. intros ->. discriminate.
Qed.

Lemma slot_bound (l : MipLevel) :
  byteLength (slot scheme E pad l) <= slotBound scheme E pad (Some l).
Proof.
  unfold slotBound. destruct (scheme =? 0) eqn:Hs.
  - rewrite byteLength_slot_none by assumption. lia.
  - unfold slot. rewrite Hs. lia.
Qed.

(** Whatever the elements of [layersForThisMip], while the offset plus the
    room still needed fits the buffer, every [set] is in bounds, no
    [RangeError] is raised and the offset never passes the end. *)
Lemma copyLayers_bounds (xs : list (option MipLevel)) :
  forall (combined : bytes) (offset : Z),
    byteLength combined = total ->
    0 <= offset ->
    offset + sumOf (slotBound scheme E pad) xs <= total ->
    let r := copyLayers scheme E pad xs combined offset in
    Forall (inBounds total E scheme) (events r)
    /\ outcome r <> Throw RangeError
    /\ forall c o, outcome r = Ok (c, o) ->
         offset <= o <= total /\ byteLength c = total.
Proof.
  induction xs as [| x rest IH]; intros combined offset Hlen Hoff Hfit r.
  - subst r. cbn. split; [constructor |]. split; [discriminate |].
    intros c o H. injection H as <- <-. cbn in Hfit. lia.
  - rewrite sumOf_cons in Hfit.
    assert (Hrest : 0 <= sumOf (slotBound scheme E pad) rest).
    { apply sumOf_nonneg. intros o. unfold slotBound.
      destruct (scheme =? 0); [lia |].
      destruct o; [apply byteLength_nonneg | lia]. }
    destruct x as [l |].
    + destruct (written_bound l) as [Hw HwE].
      pose proof (slot_bound l) as Hsl.
      pose proof (byteLength_nonneg (written scheme E l)) as Hw0.
      pose proof (byteLength_nonneg (slot scheme E pad l)) as Hs0.
      subst r. rewrite copyLayers_cons.
      rewrite (bind_ok _ _ _ _
                 (typedArraySet_ok combined (written scheme E l) offset
                    Hoff ltac:(lia))).
      assert (Hlen' : byteLength (overwrite combined (written scheme E l)
                                    (Z.to_nat offset)) = total).
      { unfold byteLength in *. rewrite overwrite_length; lia. }
      destruct (IH _ (offset + byteLength (slot scheme E pad l)) Hlen'
                  ltac:(lia) ltac:(lia)) as [Hev [Hout Hfin]].
      cbn [events outcome fst snd]. split; [| split].
      * constructor; [| exact Hev]. cbn. repeat split; first [lia | auto].
      * exact Hout.
      * intros c o H. destruct (Hfin c o H). lia.
    + subst r. cbn. split; [constructor |]. split; discriminate.
Qed.

End Bounds.

Lemma reduceSum_cases {A} (f : A -> Z) (xs : list (option A)) :
  forall sum,
    (exists ls, xs = map Some ls /\ reduceSum f xs sum = ret (sum + sumOf f ls))
    \/ reduceSum f xs sum = throw TypeError.
Proof.
  induction xs as [| x rest IH]; intros sum.
  - left. exists []. split; [reflexivity |]. cbn. now rewrite Z.add_0_r.
  - destruct x as [a |]; [| right; reflexivity].
    cbn [reduceSum deref]. rewrite bind_ret_l.
    destruct (IH (sum + f a)) as [[ls [-> H]] | H].
    + left. exists (a :: ls). split; [reflexivity |].
      rewrite H, sumOf_cons. now rewrite Z.add_assoc.
    + right. exact H.
Qed.

(** C10.  For every input of the mip-level loop -- any layers, with payloads
    of any length, present or not -- the trim takes min(length, exactSize)
    bytes, and a run that asks for a combined buffer of [total] bytes
    performs after it only [set] calls that lie inside [0, total) (and copy
    at most exactSize bytes without supercompression).  Once the allocation
    has given a buffer of [total] bytes, whatever it holds, the copies into
    it raise no [RangeError], each lies inside the buffer, and the running
    offset ends within [0, total] with the buffer still [total] bytes
    long. *)
Theorem C10_copies_in_bounds (encodedLayers : list Layer.t) (bp : BaseParams)
    (m : nat) :
  let r := assembleLevel encodedLayers bp m in
  let scheme := baseSupercompression bp in
  let E := uastcBytesPerImageAtLevel (Z.of_nat m) (baseWidth bp) (baseHeight bp) in
  let layersForThisMip :=
    map (fun layer => nth_error (Layer.levels layer) m) encodedLayers in
  (forall src, byteLength (subarray src 0 E) = Z.min (byteLength src) E)
  /\ (events r = []
      \/ exists total sets,
           events r = EvAlloc total :: sets
           /\ Forall (inBounds total E scheme) sets
           /\ (forall c o,
                 outcome (copyLayers scheme E (pad8 E) layersForThisMip
                            (zeros (Z.to_nat total)) 0) = Ok (c, o) ->
                 0 <= o <= total /\ byteLength c = total)
           /\ forall combined : bytes,
                byteLength combined = total ->
                let copies :=
                  copyLayers scheme E (pad8 E) layersForThisMip combined 0 in
                Forall (inBounds total E scheme) (events copies)
                /\ outcome copies <> Throw RangeError
                /\ forall c o, outcome copies = Ok (c, o) ->
                     0 <= o <= total /\ byteLength c = total).
Proof.
  intros r scheme E xs.
  assert (HE : 16 <= E) by apply uastc_size_lower.
  pose proof (pad8_range E ltac:(lia)) as Hp.
  split; [intros src; apply subarray_length; lia |].
  assert (Hmain : forall total,
             0 <= total ->
             sumOf (slotBound scheme E (pad8 E)) xs <= total ->
             forall k : bytes * Z -> M MipLevel,
               (forall a, exists v, k a = ret v) ->
               let r' := bind (newCombined total)
                           (fun combined =>
                              bind (copyLayers scheme E (pad8 E) xs combined 0) k) in
               exists sets,
                 events r' = EvAlloc total :: sets
                 /\ Forall (inBounds total E scheme) sets
                 /\ (forall c o,
                       outcome (copyLayers scheme E (pad8 E) xs
                                  (zeros (Z.to_nat total)) 0) = Ok (c, o) ->
                       0 <= o <= total /\ byteLength c = total)
                 /\ forall combined : bytes,
                      byteLength combined = total ->
                      let copies := copyLayers scheme E (pad8 E) xs combined 0 in
                      Forall (inBounds total E scheme) (events copies)
                      /\ outcome copies <> Throw RangeError
                      /\ forall c o, outcome copies = Ok (c, o) ->
                           0 <= o <= total /\ byteLength c = total).
  { intros total Ht Hfit k Hk r'. subst r'.
    rewrite (bind_ok _ _ _ _ (newCombined_ok total Ht)).
    assert (Hz : byteLength (zeros (Z.to_nat total)) = total)
      by (unfold byteLength; rewrite length_zeros; lia).
    assert (Hany : forall combined : bytes,
               byteLength combined = total ->
               let copies := copyLayers scheme E (pad8 E) xs combined 0 in
               Forall (inBounds total E scheme) (events copies)
               /\ outcome copies <> Throw RangeError
               /\ forall c o, outcome copies = Ok (c, o) ->
                    0 <= o <= total /\ byteLength c = total).
    { intros combined Hc.
      exact (copyLayers_bounds scheme E (pad8 E) total ltac:(lia) ltac:(lia)
               xs combined 0 Hc ltac:(lia) ltac:(lia)). }
    destruct (Hany (zeros (Z.to_nat total)) Hz) as [Hev [Hout Hfin]].
    cbn [events outcome fst snd]. rewrite events_bind.
    destruct (outcome (copyLayers scheme E (pad8 E) xs (zeros (Z.to_nat total)) 0))
      as [a | e] eqn:Hr.
    - destruct (Hk a) as [v ->]. cbn [ret events outcome fst snd].
      eexists. split; [reflexivity |]. rewrite app_nil_r.
      split; [exact Hev |]. split; [exact Hfin | exact Hany].
    - eexists. split; [reflexivity |].
      split; [exact Hev |]. split; [exact Hfin | exact Hany]. }
  subst r. unfold assembleLevel. cbv zeta. fold scheme. fold E. fold xs.
  destruct (scheme =? 0) eqn:Hs.
  - rewrite bind_ret_l.
    destruct (Hmain ((E + pad8 E) * Z.of_nat (length encodedLayers))
                ltac:(nia)
                ltac:(rewrite sumOf_slotBound_none by assumption;
                      unfold xs; rewrite length_map; lia)
                (fun x => let '(combined, _) := x in
                          bind (ret ((E + pad8 E) * Z.of_nat (length encodedLayers)))
                            (fun totalUncompressed =>
                               ret {| levelData := combined;
                                      uncompressedByteLength := totalUncompressed |}))
                ltac:(intros [c o]; eexists; rewrite bind_ret_l; reflexivity))
      as [sets Hsets].
    right. eexists. exists sets. exact Hsets.
  - destruct (reduceSum_cases (fun l => byteLength (levelData l)) xs 0)
      as [[ls [Hxs Hsum]] | Hthrow].
    + rewrite Hsum, bind_ret_l. rewrite Z.add_0_l.
      destruct (Hmain (sumOf (fun l => byteLength (levelData l)) ls)
                  ltac:(apply sumOf_nonneg; intros; apply byteLength_nonneg)
                  ltac:(rewrite Hxs, sumOf_slotBound_verbatim by assumption; lia)
                  (fun x => let '(combined, _) := x in
                            bind (reduceSum uncompressedByteLength xs 0)
                              (fun totalUncompressed =>
                                 ret {| levelData := combined;
                                        uncompressedByteLength := totalUncompressed |}))
                  ltac:(intros [c o]; eexists; rewrite Hxs, reduceSum_some, bind_ret_l;
                        reflexivity))
        as [sets Hsets].
      right. eexists. exists sets. exact Hsets.
    + rewrite Hthrow. cbn. now left.
Qed.

(** ** The validator *)

Lemma validate_error_shape (c : Container.t) (bp : BaseParams) (i : nat) (e : JsError) :
  _validateLayerConsistency c bp i = Throw e ->
  classify e = ConsistencyError
  /\ reportedLayer e = Some i
  /\ (e = FormatMismatch i (baseFormat bp) (Container.vkFormat c)
      \/ e = SizeMismatch i (baseWidth bp) (baseHeight bp)
               (Container.pixelWidth c) (Container.pixelHeight c)
      \/ e = MipCountMismatch i (firstLayerMipCount bp) (length (Container.levels c))).
Proof.
  unfold _validateLayerConsistency.
  destruct (negb (baseFormat bp =? 0) && negb (Container.vkFormat c =? 0)
            && negb (Container.vkFormat c =? baseFormat bp)).
  { intros H. injection H as <-. cbn. auto. }
  destruct (negb (Container.pixelWidth c =? baseWidth bp)
            || negb (Container.pixelHeight c =? baseHeight bp)).
  { intros H. injection H as <-. cbn. auto. }
  destruct (negb (length (Container.levels c) =? firstLayerMipCount bp)%nat).
  { intros H. injection H as <-. cbn. auto. }
  discriminate.
Qed.

Lemma validate_detects (c : Container.t) (bp : BaseParams) (i : nat) :
  Container.pixelWidth c <> baseWidth bp
  \/ Container.pixelHeight c <> baseHeight bp
  \/ length (Container.levels c) <> firstLayerMipCount bp ->
  exists e, _validateLayerConsistency c bp i = Throw e.
Proof.
  intros H. unfold _validateLayerConsistency.
  destruct (negb (baseFormat bp =? 0) && negb (Container.vkFormat c =? 0)
            && negb (Container.vkFormat c =? baseFormat bp));
    [eexists; reflexivity |].
  destruct (negb (Container.pixelWidth c =? baseWidth bp)
            || negb (Container.pixelHeight c =? baseHeight bp)) eqn:Hsize;
    [eexists; reflexivity |].
  destruct (negb (length (Container.levels c) =? firstLayerMipCount bp)%nat) eqn:Hmip;
    [eexists; reflexivity |].
  exfalso.
  apply orb_false_elim in Hsize. destruct Hsize as [Hw Hh].
  apply negb_false_iff in Hw, Hh, Hmip.
  apply Z.eqb_eq in Hw, Hh. apply Nat.eqb_eq in Hmip.
  destruct H as [H | [H | H]]; contradiction.
Qed.

(** Validating the layers [cs] in order, the first at index [idx]: when the
    layer at position [p] is refused, the run stops at the first refused
    layer, which is at or before [p]. *)
Lemma validateFrom_first_failure (bp : BaseParams) (cs : list Container.t) :
  forall (idx p : nat) (c : Container.t) (e' : JsError),
    nth_error cs p = Some c ->
    _validateLayerConsistency c bp (idx + p) = Throw e' ->
    exists (j : nat) (cj : Container.t) (e : JsError),
      (j <= p)%nat
      /\ nth_error cs j = Some cj
      /\ eagerValidateFrom idx cs bp = Throw e
      /\ _validateLayerConsistency cj bp (idx + j) = Throw e
      /\ forall k ck, (k < j)%nat -> nth_error cs k = Some ck ->
           _validateLayerConsistency ck bp (idx + k) = Ok tt.
Proof.
  induction cs as [| c0 rest IH]; intros idx p c e' Hnth Hbad.
  - destruct p; discriminate.
  - cbn [eagerValidateFrom].
    destruct (_validateLayerConsistency c0 bp idx) as [[] | e0] eqn:H0.
    + destruct p as [| p].
      * cbn in Hnth. injection Hnth as ->. rewrite Nat.add_0_r in Hbad. congruence.
      * cbn [nth_error] in Hnth.
        replace (idx + S p)%nat with (S idx + p)%nat in Hbad by lia.
        destruct (IH (S idx) p c e' Hnth Hbad) as [j [cj [e [Hj [Hn [Hv [Hvj Hok]]]]]]].
        exists (S j), cj, e. split; [lia |]. split; [exact Hn |].
        split; [exact Hv |].
        split; [replace (idx + S j)%nat with (S idx + j)%nat by lia; exact Hvj |].
        intros k ck Hk Hnk. destruct k as [| k].
        -- cbn in Hnk. injection Hnk as <-. now rewrite Nat.add_0_r.
        -- replace (idx + S k)%nat with (S idx + k)%nat by lia.
           apply (Hok k ck); [lia | exact Hnk].
    + exists 0%nat, c0, e0. split; [lia |]. split; [reflexivity |].
      split; [reflexivity |]. split; [now rewrite Nat.add_0_r |].
      intros k ck Hk. lia.
Qed.

(** ** The encode loop *)

Section PipelineFacts.

Variable fetch : string -> result bytes.
Variable fromImageFile : bytes -> string -> result bytes.
Variable fromRGBA : bytes -> Z -> Z -> result bytes.
Variable read : bytes -> result Container.t.
Variable write : Container.t -> result bytes.
Variable decodeSamples : string -> Z -> option Z -> result (list (result Frame)).

Local Abbreviation parseLayer' := (parseLayer fromImageFile fromRGBA read).
Local Abbreviation parseAll' := (parseAll fromImageFile fromRGBA read).
Local Abbreviation encodeLoop' := (encodeLoop fromImageFile fromRGBA read).
Local Abbreviation encodeContainer' := (encodeContainer fromImageFile fromRGBA read).
Local Abbreviation encode' := (encode fromImageFile fromRGBA read write).

Lemma encodeLayer_read {B} (layer : LayerItem) (idx : nat) (k : Container.t -> M B) :
  bind (encodeLayer fromImageFile fromRGBA layer idx)
    (fun ktx2Buffer => bind (lift (read ktx2Buffer)) k)
  = bind (emit (EvEncode idx)) (fun _ => bind (lift (parseLayer' layer)) k).
Proof.
  unfold encodeLayer, parseLayer.
  destruct layer as [data fileName extension | rgba width height fileName].
  - destruct (fromImageFile data extension); reflexivity.
  - destruct (fromRGBA rgba width height); reflexivity.
Qed.

Lemma encodeLoop_yield_throw (layer : LayerItem) (next : Gen)
    (acc : list Layer.t) (bp : option BaseParams) (idx : nat) (e : JsError) :
  parseLayer' layer = Throw e ->
  encodeLoop' (GYield layer next) acc bp idx = ([EvEncode idx], Throw e).
Proof.
  intros H. cbn [encodeLoop]. rewrite encodeLayer_read, H. reflexivity.
Qed.

Lemma bind_emit {B} (ev : Event) (k : unit -> M B) :
  bind (emit ev) k = (ev :: events (k tt), outcome (k tt)).
Proof. unfold emit, bind. destruct (k tt); reflexivity. Qed.

Lemma encodeLoop_fetch (url : string) (next : Gen)
    (acc : list Layer.t) (bp : option BaseParams) (idx : nat) :
  encodeLoop' (GFetch url next) acc bp idx
  = (EvFetch url :: events (encodeLoop' next acc bp idx),
     outcome (encodeLoop' next acc bp idx)).
Proof. cbn [encodeLoop]. apply bind_emit. Qed.

Lemma encodeLoop_yield_first (layer : LayerItem) (next : Gen)
    (acc : list Layer.t) (bp : option BaseParams) (c : Container.t) :
  parseLayer' layer = Ok c ->
  let rest := encodeLoop' next (acc ++ [layerOfContainer c])
                (Some (_extractBaseParams c)) 1 in
  encodeLoop' (GYield layer next) acc bp 0
  = (EvEncode 0 :: events rest, outcome rest).
Proof.
  intros H rest. cbn [encodeLoop]. rewrite encodeLayer_read, H, bind_emit.
  change (lift (Ok c)) with (ret c). rewrite bind_ret_l.
  cbn [Nat.eqb]. rewrite bind_ret_l. reflexivity.
Qed.

Lemma encodeLoop_yield_later (layer : LayerItem) (next : Gen)
    (acc : list Layer.t) (bp : BaseParams) (idx : nat) (c : Container.t) :
  parseLayer' layer = Ok c ->
  let rest := encodeLoop' next (acc ++ [layerOfContainer c]) (Some bp) (S (S idx)) in
  encodeLoop' (GYield layer next) acc (Some bp) (S idx)
  = match _validateLayerConsistency c bp (S idx) with
    | Throw e => ([EvEncode (S idx)], Throw e)
    | Ok _ => (EvEncode (S idx) :: events rest, outcome rest)
    end.
Proof.
  intros H rest. cbn [encodeLoop]. rewrite encodeLayer_read, H, bind_emit.
  change (lift (Ok c)) with (ret c). rewrite bind_ret_l.
  cbn [Nat.eqb deref]. rewrite bind_ret_l.
  destruct (_validateLayerConsistency c bp (S idx)) as [[] | e].
  - change (lift (Ok tt)) with (ret tt). rewrite !bind_ret_l. reflexivity.
  - reflexivity.
Qed.

Lemma parseAll_cons (item : LayerItem) (rest : list LayerItem) (cs : list Container.t) :
  parseAll' (item :: rest) = Ok cs ->
  exists c cs', parseLayer' item = Ok c /\ parseAll' rest = Ok cs' /\ cs = c :: cs'.
Proof.
  cbn [parseAll]. intros H.
  destruct (parseLayer' item) as [c |]; [| discriminate].
  destruct (parseAll' rest) as [cs' |]; [| discriminate].
  injection H as <-. now exists c, cs'.
Qed.

(** Once the base parameters are fixed, a layer refused by validation stops
    the loop with the validator's error, before any assembler step. *)
Lemma encodeLoop_validation_failure (g : Gen) :
  forall (acc : list Layer.t) (bp : BaseParams) (idx n : nat)
         (cs : list Container.t) (e : JsError),
    parseAll' (firstn n (yielded g)) = Ok cs ->
    eagerValidateFrom (S idx) cs bp = Throw e ->
    outcome (encodeLoop' g acc (Some bp) (S idx)) = Throw e
    /\ assemblerIdle (events (encodeLoop' g acc (Some bp) (S idx))).
Proof.
  induction g as [| e0 | url next IH | item next IH]; intros acc bp idx n cs e Hp Hv.
  - cbn [yielded] in Hp. rewrite firstn_nil in Hp. injection Hp as <-. discriminate.
  - cbn [yielded] in Hp. rewrite firstn_nil in Hp. injection Hp as <-. discriminate.
  - cbn [yielded] in Hp. rewrite encodeLoop_fetch. cbn [events outcome fst snd].
    destruct (IH acc bp idx n cs e Hp Hv) as [Ho He].
    split; [exact Ho | constructor; [exact I | exact He]].
  - cbn [yielded] in Hp. destruct n as [| n].
    { cbn in Hp. injection Hp as <-. discriminate. }
    cbn [firstn] in Hp.
    destruct (parseAll_cons _ _ _ Hp) as [c [cs' [Hc [Hcs ->]]]].
    cbn [eagerValidateFrom] in Hv.
    rewrite (encodeLoop_yield_later item next acc bp idx c Hc).
    destruct (_validateLayerConsistency c bp (S idx)) as [[] | e1].
    + cbn [events outcome fst snd].
      destruct (IH (acc ++ [layerOfContainer c]) bp (S idx) n cs' e Hcs Hv) as [Ho He].
      split; [exact Ho | constructor; [exact I | exact He]].
    + injection Hv as ->. cbn. split; [reflexivity | repeat constructor].
Qed.

Lemma encodeLoop_first_failure (g : Gen) :
  forall (acc : list Layer.t) (n : nat) (first : Container.t)
         (cs : list Container.t) (e : JsError),
    parseAll' (firstn (S n) (yielded g)) = Ok (first :: cs) ->
    eagerValidateFrom 1 cs (_extractBaseParams first) = Throw e ->
    outcome (encodeLoop' g acc None 0) = Throw e
    /\ assemblerIdle (events (encodeLoop' g acc None 0)).
Proof.
  induction g as [| e0 | url next IH | item next IH]; intros acc n first cs e Hp Hv.
  - cbn [yielded] in Hp. rewrite firstn_nil in Hp. discriminate.
  - cbn [yielded] in Hp. rewrite firstn_nil in Hp. discriminate.
  - cbn [yielded] in Hp. rewrite encodeLoop_fetch. cbn [events outcome fst snd].
    destruct (IH acc n first cs e Hp Hv) as [Ho He].
    split; [exact Ho | constructor; [exact I | exact He]].
  - cbn [yielded firstn] in Hp.
    destruct (parseAll_cons _ _ _ Hp) as [c [cs' [Hc [Hcs Heq]]]].
    injection Heq as <- <-.
    rewrite (encodeLoop_yield_first item next acc None first Hc).
    cbn [events outcome fst snd].
    destruct (encodeLoop_validation_failure next (acc ++ [layerOfContainer first])
                (_extractBaseParams first) 0 n cs e Hcs Hv) as [Ho He].
    split; [exact Ho | constructor; [exact I | exact He]].
Qed.

Lemma encode_loop_throw (g : Gen) (e : JsError) :
  outcome (encodeLoop' g [] None 0) = Throw e ->
  outcome (encode' g) = Throw e
  /\ events (encode' g) = events (encodeLoop' g [] None 0).
Proof.
  intros H. unfold encode, encodeContainer.
  rewrite !outcome_bind, !events_bind, !outcome_bind, H. split; reflexivity.
Qed.

(** C7 (amended).  When the layers up to index i encode and parse, and
    layer i > 0 differs from the first layer in width, height or mip count,
    [encode] fails with a consistency error raised by the validator for the
    first layer j <= i that it refuses -- for its format, its size or its
    mip count -- and j = i when the layers before i pass: the error carries
    j and the expected and actual values of what was refused, and no
    assembler step has run, so no combined level buffer was allocated. *)
Theorem C7_mismatch_reported (src : Gen) (cs : list Container.t)
    (first bad : Container.t) (i : nat) :
  parseAll' (firstn (S i) (yielded src)) = Ok cs ->
  nth_error cs 0 = Some first ->
  nth_error cs i = Some bad ->
  (0 < i)%nat ->
  Container.pixelWidth bad <> Container.pixelWidth first
  \/ Container.pixelHeight bad <> Container.pixelHeight first
  \/ length (Container.levels bad) <> length (Container.levels first) ->
  exists (j : nat) (layer : Container.t) (e : JsError),
    (1 <= j <= i)%nat
    /\ nth_error cs j = Some layer
    /\ outcome (encode' src) = Throw e
    /\ _validateLayerConsistency layer (_extractBaseParams first) j = Throw e
    /\ classify e = ConsistencyError
    /\ reportedLayer e = Some j
    /\ reports e j first layer
    /\ (forall k ck, (1 <= k < j)%nat -> nth_error cs k = Some ck ->
          _validateLayerConsistency ck (_extractBaseParams first) k = Ok tt)
    /\ ((forall k ck, (1 <= k < i)%nat -> nth_error cs k = Some ck ->
           _validateLayerConsistency ck (_extractBaseParams first) k = Ok tt) ->
        j = i)
    /\ assemblerIdle (events (encode' src)).
Proof.
  intros Hp Hfirst Hbad Hi Hdiff.
  destruct cs as [| c0 others]; [discriminate |].
  cbn in Hfirst. injection Hfirst as ->.
  destruct i as [| i]; [lia |]. cbn [nth_error] in Hbad.
  set (bp := _extractBaseParams first) in *.
  destruct (validate_detects bad bp (1 + i) Hdiff) as [e' He'].
  destruct (validateFrom_first_failure bp others 1 i bad e' Hbad He')
    as [j [cj [e [Hj [Hnj [Hv [Hvj Hok]]]]]]].
  destruct (encodeLoop_first_failure src [] (S i) first others e Hp Hv) as [Ho Hidle].
  destruct (encode_loop_throw src e Ho) as [Hout Hev].
  destruct (validate_error_shape cj bp (1 + j) e Hvj) as [Hclass [Hrep Hvals]].
  exists (S j), cj, e.
  split; [lia |]. split; [exact Hnj |]. split; [exact Hout |].
  split; [exact Hvj |]. split; [exact Hclass |]. split; [exact Hrep |].
  split; [exact Hvals |]. split; [| split].
  - intros k ck Hk Hnk. destruct k as [| k]; [lia |].
    cbn [nth_error] in Hnk. apply (Hok k ck); [lia | exact Hnk].
  - intros Hall. destruct (Nat.eq_dec j i) as [-> | Hne]; [reflexivity |].
    exfalso. assert (Hlt : (1 <= S j < S i)%nat) by lia.
    specialize (Hall (S j) cj Hlt Hnj). cbn [Nat.add] in Hvj. congruence.
  - now rewrite Hev.
Qed.

(** ** Sources without layers *)

Lemma fromImageUrls_no_urls :
  fromImageUrls fetch fromImageFile fromRGBA read write [] = ([], Throw NoUrlsProvided)
  /\ classify NoUrlsProvided = InputError.
Proof. split; reflexivity. Qed.

Lemma encodeImagesToKtxArray_no_layers (getBasisModule : option BasisModule)
    (sniffImageSize : bytes -> string -> option (Z * Z)) (mipmaps : bool) :
  encodeImagesToKtxArray getBasisModule sniffImageSize mipmaps []
    = ([], Throw NoInputLayers)
  /\ classify NoInputLayers = InputError.
Proof. split; reflexivity. Qed.

Lemma fromVideoUrl_no_frames (videoUrl : string) (startTime : Z) (endTime : option Z)
    (samples : list (result Frame)) :
  decodeSamples videoUrl startTime endTime = Ok samples ->
  fromVideoUrl fromImageFile fromRGBA read write decodeSamples
      videoUrl (Some 0) startTime endTime
    = ([], Throw TypeError).
Proof.
  intros H. unfold fromVideoUrl. rewrite H.
  change (lift (Ok samples)) with (ret samples). rewrite bind_ret_l.
  destruct samples; reflexivity.
Qed.

(** C8 (the code at the failing input).  A source that yields no layers --
    an empty generator, or the frame generator of [fromVideoUrl] under
    [maxFrames: 0] -- makes [encode] call no encoder and produce nothing,
    but the failure is the [TypeError] raised inside [_assembleMipLevels]
    on the [null] base parameters, not an input error raised before
    assembly. *)
Theorem C8_no_layers_type_error :
  encode' GReturn = ([], Throw TypeError)
  /\ (forall samples, encode' (rgbaFrameGenerator (Some 0) samples 0)
                      = ([], Throw TypeError))
  /\ outcome (_assembleMipLevels [] None) = Throw TypeError
  /\ classify TypeError <> InputError.
Proof.
  split; [reflexivity |]. split; [| split; [reflexivity | discriminate]].
  intros samples. destruct samples; reflexivity.
Qed.

(** ** The pipelined source against the eager mode *)

Lemma eagerEncodeAllFrom_outcome (items : list LayerItem) :
  forall i, outcome (eagerEncodeAllFrom fromImageFile fromRGBA read i items)
            = parseAll' items.
Proof.
  induction items as [| item rest IH]; intros i; [reflexivity |].
  cbn [eagerEncodeAllFrom parseAll]. rewrite encodeLayer_read, bind_emit.
  cbn [outcome snd]. rewrite outcome_bind. cbn [lift outcome snd].
  destruct (parseLayer' item) as [c | e]; [| reflexivity].
  rewrite outcome_bind, IH.
  destruct (parseAll' rest); reflexivity.
Qed.

Lemma eagerFetchAll_cons (url : string) (rest : list string) :
  outcome (eagerFetchAll fetch (url :: rest))
  = match fetch url with
    | Throw e => Throw e
    | Ok data =>
        match outcome (eagerFetchAll fetch rest) with
        | Throw e => Throw e
        | Ok datas => Ok (data :: datas)
        end
    end.
Proof.
  unfold eagerFetchAll. cbn [mapM]. rewrite outcome_bind, bind_emit.
  cbn [outcome snd lift].
  destruct (fetch url) as [data | e]; [| reflexivity].
  rewrite outcome_bind.
  destruct (outcome (mapM _ rest)); reflexivity.
Qed.

(** The pipelined generator ends normally exactly when every request
    succeeds, and then it yields the items of the eager list in order. *)
Lemma imageGeneratorFrom_ok (rest : list string) :
  forall (i : nat) (url : string) (next : result bytes),
    genEnd (imageGeneratorFrom fetch i url rest next) = Ok tt ->
    exists data datas,
      next = Ok data
      /\ outcome (eagerFetchAll fetch rest) = Ok datas
      /\ yielded (imageGeneratorFrom fetch i url rest next)
         = eagerItemsFrom i (url :: rest) (data :: datas).
Proof.
  induction rest as [| url' rest' IH]; intros i url next H.
  - destruct next as [data | e]; [| discriminate].
    exists data, []. repeat split.
  - destruct next as [data | e]; [| discriminate].
    cbn [imageGeneratorFrom genEnd] in H.
    destruct (IH (S i) url' (fetch url') H) as [data' [datas [Hf [Hall Hy]]]].
    exists data, (data' :: datas). split; [reflexivity |]. split.
    + rewrite eagerFetchAll_cons, Hf, Hall. reflexivity.
    + cbn [imageGeneratorFrom yielded]. rewrite Hy. reflexivity.
Qed.

Lemma imageGeneratorFrom_complete (rest : list string) :
  forall (i : nat) (url : string) (data : bytes) (datas : list bytes),
    outcome (eagerFetchAll fetch rest) = Ok datas ->
    genEnd (imageGeneratorFrom fetch i url rest (Ok data)) = Ok tt
    /\ yielded (imageGeneratorFrom fetch i url rest (Ok data))
       = eagerItemsFrom i (url :: rest) (data :: datas).
Proof.
  induction rest as [| url' rest' IH]; intros i url data datas H.
  - cbn in H. injection H as <-. split; reflexivity.
  - rewrite eagerFetchAll_cons in H.
    destruct (fetch url') as [data' |] eqn:Hf; [| discriminate].
    destruct (outcome (eagerFetchAll fetch rest')) as [datas' |] eqn:Hall;
      [| discriminate].
    injection H as <-.
    cbn [imageGeneratorFrom genEnd yielded]. rewrite Hf.
    destruct (IH (S i) url' data' datas' eq_refl) as [He Hy].
    split; [exact He |]. rewrite Hy. reflexivity.
Qed.

(** After the first layer, the loop completes exactly when the source ends
    normally, every layer parses and every layer passes validation; it then
    holds the layers in source order. *)
Lemma encodeLoop_ok_later (g : Gen) :
  forall (acc : list Layer.t) (bp : BaseParams) (idx : nat)
         (r : list Layer.t * option BaseParams),
    outcome (encodeLoop' g acc (Some bp) (S idx)) = Ok r
    <-> genEnd g = Ok tt
        /\ exists cs,
             parseAll' (yielded g) = Ok cs
             /\ eagerValidateFrom (S idx) cs bp = Ok tt
             /\ r = (acc ++ map layerOfContainer cs, Some bp).
Proof.
  induction g as [| e0 | url next IH | item next IH]; intros acc bp idx r.
  - cbn. split.
    + intros H. injection H as <-. split; [reflexivity |].
      exists []. rewrite app_nil_r. repeat split.
    + intros [_ [cs [Hp [_ ->]]]]. injection Hp as <-. now rewrite app_nil_r.
  - cbn. split; [discriminate | intros [H _]; discriminate].
  - rewrite encodeLoop_fetch. cbn [outcome snd genEnd yielded]. apply IH.
  - cbn [genEnd yielded parseAll].
    destruct (parseLayer' item) as [c | e] eqn:Hc.
    + rewrite (encodeLoop_yield_later item next acc bp idx c Hc).
      cbn [eagerValidateFrom].
      destruct (_validateLayerConsistency c bp (S idx)) as [[] | e1] eqn:Hv.
      * cbn [outcome snd]. rewrite IH. split.
        -- intros [He [cs [Hp [Hval ->]]]]. split; [exact He |].
           exists (c :: cs). rewrite Hp. cbn [eagerValidateFrom]. rewrite Hv.
           split; [reflexivity |]. split; [exact Hval |].
           cbn [map]. now rewrite <- app_assoc.
        -- intros [He [cs [Hp [Hval ->]]]]. split; [exact He |].
           destruct (parseAll' (yielded next)) as [cs' |]; [| discriminate].
           injection Hp as <-. exists cs'. split; [reflexivity |].
           cbn [eagerValidateFrom] in Hval. rewrite Hv in Hval.
           split; [exact Hval |]. cbn [map]. now rewrite <- app_assoc.
      * cbn [outcome snd]. split; [discriminate |].
        intros [_ [cs [Hp [Hval _]]]].
        destruct (parseAll' (yielded next)) as [cs' |]; [| discriminate].
        injection Hp as <-. cbn [eagerValidateFrom] in Hval.
        rewrite Hv in Hval. discriminate.
    + rewrite (encodeLoop_yield_throw item next acc (Some bp) (S idx) e Hc).
      cbn [outcome snd]. split; [discriminate |].
      intros [_ [cs [Hp _]]]. discriminate.
Qed.

Lemma encodeLoop_ok_first (g : Gen) :
  forall (acc : list Layer.t) (r : list Layer.t * option BaseParams),
    outcome (encodeLoop' g acc None 0) = Ok r
    <-> genEnd g = Ok tt
        /\ exists cs,
             parseAll' (yielded g) = Ok cs
             /\ match cs with
                | [] => r = (acc, None)
                | first :: others =>
                    eagerValidateFrom 1 others (_extractBaseParams first) = Ok tt
                    /\ r = (acc ++ map layerOfContainer cs,
                            Some (_extractBaseParams first))
                end.
Proof.
  induction g as [| e0 | url next IH | item next IH]; intros acc r.
  - cbn. split.
    + intros H. injection H as <-. split; [reflexivity |]. now exists [].
    + intros [_ [cs [Hp H]]]. injection Hp as <-. now rewrite H.
  - cbn. split; [discriminate | intros [H _]; discriminate].
  - rewrite encodeLoop_fetch. cbn [outcome snd genEnd yielded]. apply IH.
  - cbn [genEnd yielded parseAll].
    destruct (parseLayer' item) as [c | e] eqn:Hc.
    + rewrite (encodeLoop_yield_first item next acc None c Hc).
      cbn [outcome snd]. rewrite encodeLoop_ok_later. split.
      * intros [He [cs [Hp [Hval ->]]]]. split; [exact He |].
        exists (c :: cs). rewrite Hp. split; [reflexivity |].
        split; [exact Hval |]. cbn [map]. now rewrite <- app_assoc.
      * intros [He [cs [Hp H]]]. split; [exact He |].
        destruct (parseAll' (yielded next)) as [cs' |]; [| discriminate].
        injection Hp as <-. destruct H as [Hval ->].
        exists cs'. split; [reflexivity |]. split; [exact Hval |].
        cbn [map]. now rewrite <- app_assoc.
    + rewrite (encodeLoop_yield_throw item next acc None 0 e Hc).
      cbn [outcome snd]. split; [discriminate |].
      intros [_ [cs [Hp _]]]. discriminate.
Qed.

(** [encode] builds a container exactly when the source ends normally, its
    layers parse, and the eager assembly of those layers builds it. *)
Lemma encodeContainer_ok_iff (g : Gen) (c : Container.t) :
  outcome (encodeContainer' g) = Ok c
  <-> genEnd g = Ok tt
      /\ exists cs, parseAll' (yielded g) = Ok cs
                    /\ outcome (eagerContainer cs) = Ok c.
Proof.
  unfold encodeContainer. rewrite outcome_bind. split.
  - destruct (outcome (encodeLoop' g [] None 0)) as [[layers bp] |] eqn:Hloop;
      [| discriminate].
    apply encodeLoop_ok_first in Hloop. destruct Hloop as [He [cs [Hp H]]].
    intros Hout. split; [exact He |]. exists cs. split; [exact Hp |].
    destruct cs as [| first others].
    + injection H as -> ->. discriminate Hout.
    + destruct H as [Hval H]. injection H as -> ->.
      cbn [eagerContainer app]. rewrite Hval.
      change (lift (Ok tt)) with (ret tt). rewrite bind_ret_l.
      rewrite !outcome_bind in *.
      destruct (outcome (_assembleMipLevels _ _)); exact Hout.
  - intros [He [cs [Hp Hout]]].
    destruct cs as [| first others]; [discriminate Hout |].
    cbn [eagerContainer] in Hout.
    destruct (eagerValidateFrom 1 others (_extractBaseParams first)) as [[] |] eqn:Hval;
      [| discriminate Hout].
    change (lift (Ok tt)) with (ret tt) in Hout. rewrite bind_ret_l in Hout.
    assert (Hloop : outcome (encodeLoop' g [] None 0)
                    = Ok (map layerOfContainer (first :: others),
                          Some (_extractBaseParams first))).
    { apply encodeLoop_ok_first. split; [exact He |].
      exists (first :: others). split; [exact Hp |]. split; [exact Hval | reflexivity]. }
    rewrite Hloop. rewrite !outcome_bind in *.
    destruct (outcome (_assembleMipLevels _ _)); exact Hout.
Qed.

Lemma eagerCollect_outcome (url : string) (rest : list string)
    (cs : list Container.t) :
  outcome (eagerCollect fetch fromImageFile fromRGBA read (url :: rest)) = Ok cs
  <-> exists datas,
        outcome (eagerFetchAll fetch (url :: rest)) = Ok datas
        /\ parseAll' (eagerItemsFrom 0 (url :: rest) datas) = Ok cs.
Proof.
  unfold eagerCollect. rewrite outcome_bind. split.
  - destruct (outcome (eagerFetchAll fetch (url :: rest))) as [datas |];
      [| discriminate].
    rewrite eagerEncodeAllFrom_outcome. intros H. now exists datas.
  - intros [datas [-> H]]. now rewrite eagerEncodeAllFrom_outcome.
Qed.

Lemma imageGenerator_run (url : string) (rest : list string)
    (cs : list Container.t) :
  genEnd (imageGenerator fetch url rest) = Ok tt
  /\ parseAll' (yielded (imageGenerator fetch url rest)) = Ok cs
  <-> outcome (eagerCollect fetch fromImageFile fromRGBA read (url :: rest)) = Ok cs.
Proof.
  rewrite eagerCollect_outcome. cbn [imageGenerator genEnd yielded]. split.
  - intros [He Hp].
    destruct (imageGeneratorFrom_ok rest 0 url (fetch url) He)
      as [data [datas [Hf [Hall Hy]]]].
    exists (data :: datas). rewrite eagerFetchAll_cons, Hf, Hall.
    split; [reflexivity |]. now rewrite <- Hy.
  - intros [datas [Hall Hp]]. rewrite eagerFetchAll_cons in Hall.
    destruct (fetch url) as [data |] eqn:Hf; [| discriminate].
    destruct (outcome (eagerFetchAll fetch rest)) as [datas' |] eqn:Hrest;
      [| discriminate].
    injection Hall as <-.
    destruct (imageGeneratorFrom_complete rest 0 url data datas' Hrest) as [He Hy].
    split; [exact He |]. now rewrite Hy.
Qed.

(** What validation leaves: layers of the first layer's mip count. *)
Lemma validateFrom_uniform (bp : BaseParams) (cs : list Container.t) :
  forall idx,
    eagerValidateFrom idx cs bp = Ok tt ->
    Forall (fun c => length (Container.levels c) = firstLayerMipCount bp) cs.
Proof.
  induction cs as [| c rest IH]; intros idx H; [constructor |].
  cbn [eagerValidateFrom] in H.
  destruct (_validateLayerConsistency c bp idx) as [[] |] eqn:Hv; [| discriminate].
  constructor; [| now apply (IH (S idx))].
  unfold _validateLayerConsistency in Hv.
  destruct (negb (baseFormat bp =? 0) && negb (Container.vkFormat c =? 0)
            && negb (Container.vkFormat c =? baseFormat bp)); [discriminate |].
  destruct (negb (Container.pixelWidth c =? baseWidth bp)
            || negb (Container.pixelHeight c =? baseHeight bp)); [discriminate |].
  destruct (negb (length (Container.levels c) =? firstLayerMipCount bp)%nat) eqn:Hm;
    [discriminate |].
  apply negb_false_iff in Hm. now apply Nat.eqb_eq in Hm.
Qed.

(** The layers the loop hands to [_assembleMipLevels], when it has seen at
    least one, are not empty and all carry the mip count of the first. *)
Lemma encodeLoop_layers_uniform (g : Gen) (layers : list Layer.t) (bp : BaseParams) :
  outcome (encodeLoop' g [] None 0) = Ok (layers, Some bp) ->
  layers <> [] /\ uniformMips (firstLayerMipCount bp) layers.
Proof.
  intros H. apply encodeLoop_ok_first in H. destruct H as [_ [cs [_ H]]].
  destruct cs as [| first others]; [discriminate H |].
  destruct H as [Hval H]. injection H as -> ->.
  split; [discriminate |]. unfold uniformMips. cbn [map app].
  constructor.
  - cbn. now rewrite length_map.
  - apply Forall_map.
    eapply Forall_impl; [| exact (validateFrom_uniform _ _ _ Hval)].
    cbn. intros c Hc. now rewrite length_map.
Qed.

(** C9.  For every list of URLs, the pipelined mode ([fromImageUrls], one
    request ahead of the encoder) and the eager mode (everything fetched and
    encoded up front, then validated and assembled) build the same array
    container and return the same serialised bytes: either produces a
    result exactly when the other produces that same result. *)
Theorem C9_pipelined_equals_eager (urls : list string) :
  (forall url rest c,
      urls = url :: rest ->
      (outcome (encodeContainer' (imageGenerator fetch url rest)) = Ok c
       <-> outcome (eagerContainerFromUrls fetch fromImageFile fromRGBA read urls)
           = Ok c))
  /\ forall out,
       outcome (fromImageUrls fetch fromImageFile fromRGBA read write urls) = Ok out
       <-> outcome (eagerFromImageUrls fetch fromImageFile fromRGBA read write urls)
           = Ok out.
Proof.
  assert (Hc : forall url rest c,
             outcome (encodeContainer' (imageGenerator fetch url rest)) = Ok c
             <-> outcome (eagerContainerFromUrls fetch fromImageFile fromRGBA read
                            (url :: rest)) = Ok c).
  { intros url rest c.
    rewrite encodeContainer_ok_iff. unfold eagerContainerFromUrls.
    rewrite outcome_bind. split.
    - intros [He [cs [Hp Hout]]].
      rewrite (proj1 (imageGenerator_run url rest cs) (conj He Hp)). exact Hout.
    - destruct (outcome (eagerCollect fetch fromImageFile fromRGBA read (url :: rest)))
        as [cs |] eqn:Hcol; [| discriminate].
      intros Hout. apply imageGenerator_run in Hcol. destruct Hcol as [He Hp].
      split; [exact He |]. now exists cs. }
  split; [intros url rest c ->; apply Hc |].
  intros out. destruct urls as [| url rest]; [reflexivity |].
  unfold fromImageUrls, eagerFromImageUrls, encode.
  rewrite !outcome_bind.
  specialize (Hc url rest).
  destruct (outcome (encodeContainer' (imageGenerator fetch url rest)))
    as [c1 |] eqn:H1;
    destruct (outcome (eagerContainerFromUrls fetch fromImageFile fromRGBA read
                         (url :: rest))) as [c2 |] eqn:H2.
  - destruct (Hc c1) as [H _].
    specialize (H eq_refl). injection H as ->. reflexivity.
  - destruct (Hc c1) as [H _].
    specialize (H eq_refl). discriminate H.
  - destruct (Hc c2) as [_ H].
    specialize (H eq_refl). discriminate H.
  - split; discriminate.
Qed.

End PipelineFacts.

(** ** The theorems on sample runs *)

Lemma C7_mismatch_reported_witness :
  exists (j : nat) (layer : Container.t) (e : JsError),
    (1 <= j <= 2)%nat
    /\ nth_error [ sampleContainer 0 4 4 [sampleLevel x07 16];
                   sampleContainer 0 4 4 [sampleLevel x07 16];
                   sampleContainer 0 4 8 [sampleLevel x07 32] ] j = Some layer
    /\ outcome (encode sampleFromImageFile sampleFromRGBA sampleRead sampleWrite
                  mismatchedSource) = Throw e
    /\ _validateLayerConsistency layer
         (_extractBaseParams (sampleContainer 0 4 4 [sampleLevel x07 16])) j = Throw e
    /\ classify e = ConsistencyError
    /\ reportedLayer e = Some j
    /\ reports e j (sampleContainer 0 4 4 [sampleLevel x07 16]) layer
    /\ (forall k ck, (1 <= k < j)%nat ->
          nth_error [ sampleContainer 0 4 4 [sampleLevel x07 16];
                      sampleContainer 0 4 4 [sampleLevel x07 16];
                      sampleContainer 0 4 8 [sampleLevel x07 32] ] k = Some ck ->
          _validateLayerConsistency ck
            (_extractBaseParams (sampleContainer 0 4 4 [sampleLevel x07 16])) k = Ok tt)
    /\ ((forall k ck, (1 <= k < 2)%nat ->
           nth_error [ sampleContainer 0 4 4 [sampleLevel x07 16];
                       sampleContainer 0 4 4 [sampleLevel x07 16];
                       sampleContainer 0 4 8 [sampleLevel x07 32] ] k = Some ck ->
           _validateLayerConsistency ck
             (_extractBaseParams (sampleContainer 0 4 4 [sampleLevel x07 16])) k = Ok tt) ->
        j = 2%nat)
    /\ assemblerIdle
         (events (encode sampleFromImageFile sampleFromRGBA sampleRead sampleWrite
                    mismatchedSource)).
Proof.
  apply (C7_mismatch_reported sampleFromImageFile sampleFromRGBA sampleRead sampleWrite
           mismatchedSource _ _ (sampleContainer 0 4 8 [sampleLevel x07 32]) 2).
  - reflexivity.
  - reflexivity.
  - reflexivity.
  - lia.
  - right. left. discriminate.
Defined.

(** C7 as stated fails when an earlier layer is refused first: layer 2 has
    another height than layer 0, yet the run ends at layer 1 with the error
    of its format, which names neither layer 2 nor a size, and layer 2 is
    never encoded. *)
Lemma C7_earlier_layer_counterexample :
  parseAll sampleFromImageFile sampleFromRGBA taggedRead (yielded taggedSource)
    = Ok [ sampleContainer 131 4 4 [sampleLevel x07 16];
           sampleContainer 147 4 4 [sampleLevel x07 16];
           sampleContainer 131 4 8 [sampleLevel x07 32] ]
  /\ Container.pixelHeight (sampleContainer 131 4 8 [sampleLevel x07 32])
     <> Container.pixelHeight (sampleContainer 131 4 4 [sampleLevel x07 16])
  /\ encode sampleFromImageFile sampleFromRGBA taggedRead sampleWrite taggedSource
     = ([EvEncode 0; EvEncode 1], Throw (FormatMismatch 1 131 147))
  /\ ~ (exists e,
          outcome (encode sampleFromImageFile sampleFromRGBA taggedRead sampleWrite
                     taggedSource) = Throw e
          /\ reportedLayer e = Some 2%nat).
Proof.
  split; [reflexivity |]. split; [discriminate |]. split; [reflexivity |].
  intros [e [He Hr]].
  vm_compute in He. injection He as <-. discriminate Hr.
Qed.

(** The failing run itself: layer 2 is refused for its size after three
    encoder calls and nothing else. *)
Example mismatched_source_run :
  encode sampleFromImageFile sampleFromRGBA sampleRead sampleWrite mismatchedSource
  = ([EvEncode 0; EvEncode 1; EvEncode 2], Throw (SizeMismatch 2 4 4 4 8)).
Proof. reflexivity. Qed.

(** A pipelined run over two URLs: each request starts before the previous
    layer is encoded, and the result is the one the eager mode returns. *)
Example pipelined_sample_run :
  fromImageUrls sampleFetch sampleFromImageFile sampleFromRGBA sampleRead sampleWrite
    ["a/x.png"%string; "b/y.png"%string]
  = ([EvFetch "a/x.png"; EvFetch "b/y.png"; EvEncode 0; EvEncode 1;
      EvAlloc 64; EvSet 0 32; EvSet 32 32; EvWrite],
     Ok (repeat x07 64)).
Proof. reflexivity. Qed.

Lemma C9_pipelined_equals_eager_witness :
  outcome (eagerFromImageUrls sampleFetch sampleFromImageFile sampleFromRGBA
             sampleRead sampleWrite ["a/x.png"%string; "b/y.png"%string])
  = Ok (repeat x07 64).
Proof.
  apply (proj2 (C9_pipelined_equals_eager sampleFetch sampleFromImageFile
                  sampleFromRGBA sampleRead sampleWrite
                  ["a/x.png"%string; "b/y.png"%string])).
  reflexivity.
Defined.

(** A short payload stays in bounds: 8 bytes are copied for layer 0 and the
    second layer starts at offset 8 of the 32-byte buffer. *)
Example short_payload_run :
  assembleLevel shortLayers (sampleBase 0 4 4 0 1) 0
  = ([EvAlloc 32; EvSet 0 8; EvSet 8 16],
     Ok {| levelData := repeat x01 8 ++ repeat x02 16 ++ repeat x00 8;
           uncompressedByteLength := 32 |}).
Proof. reflexivity. Qed.

(** * Further properties of the code *)

(** ** What the validator accepts *)

Lemma formatCompatible_test (c : Container.t) (bp : BaseParams) :
  negb (baseFormat bp =? 0) && negb (Container.vkFormat c =? 0)
  && negb (Container.vkFormat c =? baseFormat bp) = false
  <-> formatCompatible c bp.
Proof.
  unfold formatCompatible.
  destruct (Z.eqb_spec (baseFormat bp) 0) as [Hb | Hb];
    destruct (Z.eqb_spec (Container.vkFormat c) 0) as [Hc | Hc];
    destruct (Z.eqb_spec (Container.vkFormat c) (baseFormat bp)) as [He | He];
    cbn; split; intros H; auto; try discriminate.
  destruct H as [H | [H | H]]; contradiction.
Qed.

Lemma validate_ok_compatible (c : Container.t) (bp : BaseParams) (i : nat) :
  _validateLayerConsistency c bp i = Ok tt -> compatible c bp.
Proof.
  unfold _validateLayerConsistency, compatible.
  rewrite <- formatCompatible_test.
  destruct (negb (baseFormat bp =? 0) && negb (Container.vkFormat c =? 0)
            && negb (Container.vkFormat c =? baseFormat bp)); [discriminate |].
  destruct (Z.eqb_spec (Container.pixelWidth c) (baseWidth bp)) as [Hw | Hw];
    destruct (Z.eqb_spec (Container.pixelHeight c) (baseHeight bp)) as [Hh | Hh];
    cbn [negb orb]; try discriminate.
  destruct (Nat.eqb_spec (length (Container.levels c)) (firstLayerMipCount bp))
    as [Hm | Hm]; cbn [negb]; [auto | discriminate].
Qed.

(** X1.  [_validateLayerConsistency] accepts a layer exactly when its format
    is compatible with the base format (equal, or 0 on either side) and its
    width, height and mip count equal those of the base parameters; the
    layer index plays no part in the decision. *)
Theorem X1_validate_accepts_iff (c : Container.t) (bp : BaseParams) (i : nat) :
  _validateLayerConsistency c bp i = Ok tt <-> compatible c bp.
Proof.
  split; [apply validate_ok_compatible |].
  intros [Hf [Hw [Hh Hm]]].
  apply formatCompatible_test in Hf.
  apply Z.eqb_eq in Hw, Hh. apply Nat.eqb_eq in Hm.
  unfold _validateLayerConsistency. now rewrite Hf, Hw, Hh, Hm.
Qed.

(** X2.  The checks are made in a fixed order: with a compatible format, a
    layer of another width or height is refused for its size whatever its
    mip count, and a layer of the right size is refused for its mip count
    only. *)
Theorem X2_validate_error_order (c : Container.t) (bp : BaseParams) (i : nat) :
  formatCompatible c bp ->
  (Container.pixelWidth c <> baseWidth bp
   \/ Container.pixelHeight c <> baseHeight bp ->
   _validateLayerConsistency c bp i
     = Throw (SizeMismatch i (baseWidth bp) (baseHeight bp)
                (Container.pixelWidth c) (Container.pixelHeight c)))
  /\ (Container.pixelWidth c = baseWidth bp ->
      Container.pixelHeight c = baseHeight bp ->
      length (Container.levels c) <> firstLayerMipCount bp ->
      _validateLayerConsistency c bp i
        = Throw (MipCountMismatch i (firstLayerMipCount bp)
                   (length (Container.levels c)))).
Proof.
  intros Hf. apply formatCompatible_test in Hf.
  unfold _validateLayerConsistency. rewrite Hf. split.
  - intros Hsize.
    assert (Hb : negb (Container.pixelWidth c =? baseWidth bp)
                 || negb (Container.pixelHeight c =? baseHeight bp) = true).
    { destruct Hsize as [H | H]; apply Z.eqb_neq in H; rewrite H;
        cbn; [reflexivity | apply orb_true_r]. }
    now rewrite Hb.
  - intros Hw Hh Hm.
    apply Z.eqb_eq in Hw, Hh. apply Nat.eqb_neq in Hm.
    now rewrite Hw, Hh, Hm.
Qed.

Lemma X2_validate_error_order_witness :
  _validateLayerConsistency (sampleContainer 0 8 4 []) (sampleBase 131 4 4 0 1) 3
  = Throw (SizeMismatch 3 4 4 8 4)
  /\ _validateLayerConsistency (sampleContainer 131 4 4 []) (sampleBase 131 4 4 0 1) 3
     = Throw (MipCountMismatch 3 1 0).
Proof.
  split.
  - apply (proj1 (X2_validate_error_order (sampleContainer 0 8 4 [])
                    (sampleBase 131 4 4 0 1) 3
                    (or_intror (or_introl eq_refl)))).
    left. discriminate.
  - apply (proj2 (X2_validate_error_order (sampleContainer 131 4 4 [])
                    (sampleBase 131 4 4 0 1) 3
                    (or_intror (or_intror eq_refl)))).
    + reflexivity.
    + reflexivity.
    + discriminate.
Defined.

(** ** The padding of [_assembleMipLevels] *)

(** X3.  The exact size of a level is a multiple of 16 and at least 16, so
    the 8-byte padding computed from it is 0 at every mip level and for all
    dimensions: the branch that skips [perImagePadding] bytes never runs. *)
Theorem X3_padding_is_zero (level width height : Z) :
  pad8 (uastcBytesPerImageAtLevel level width height) = 0
  /\ (pad8 (uastcBytesPerImageAtLevel level width height) >? 0) = false
  /\ 16 <= uastcBytesPerImageAtLevel level width height.
Proof.
  rewrite pad8_uastc. repeat split. apply uastc_size_lower.
Qed.

(** X5.  Without supercompression and for payloads of any length, every
    combined level is the layers' payloads, each cut to at most E bytes,
    packed back to back, followed by zero bytes up to layerCount * E; its
    uncompressedByteLength is layerCount * E as well. *)
Theorem X5_none_layout_any_payload (encodedLayers : list Layer.t)
    (bp : BaseParams) (mipCount : nat) :
  encodedLayers <> [] ->
  uniformMips mipCount encodedLayers ->
  baseSupercompression bp = 0 ->
  exists combinedLevels,
    outcome (_assembleMipLevels encodedLayers (Some bp)) = Ok combinedLevels
    /\ forall m, (m < mipCount)%nat ->
         let E := uastcBytesPerImageAtLevel (Z.of_nat m)
                    (baseWidth bp) (baseHeight bp) in
         let total := Z.of_nat (length encodedLayers) * E in
         let packed :=
           concat (map (fun layer => firstn (Z.to_nat E) (payloadAt m layer))
                     encodedLayers) in
         let cl := nth m combinedLevels emptyLevel in
         levelData cl = packed ++ zeros (Z.to_nat total - length packed)
         /\ byteLength (levelData cl) = total
         /\ uncompressedByteLength cl = total.
Proof.
  intros Hne Hu Hs.
  rewrite (assembleMipLevels_run encodedLayers bp mipCount Hne Hu).
  eexists. split; [reflexivity |].
  intros m Hm E total packed cl. subst cl.
  rewrite (nth_combined encodedLayers bp mipCount m Hm).
  pose proof (combinedLevelOf_size bp m (levelsAt m encodedLayers)) as Hsize.
  cbv zeta in Hsize. fold E in Hsize.
  unfold combinedLevelOf in *. cbv zeta in *. fold E in Hsize |- *.
  cbn [levelData uncompressedByteLength] in *.
  assert (HE : 16 <= E) by apply uastc_size_lower.
  assert (Hpad : pad8 E = 0) by apply pad8_uastc.
  rewrite Hpad in *. rewrite Hs in *. cbn [Z.eqb] in *.
  assert (Htot : totalSizeOf 0 E 0 (levelsAt m encodedLayers) = total).
  { unfold totalSizeOf, total, levelsAt. cbn [Z.eqb]. rewrite length_map. lia. }
  rewrite Htot in *.
  assert (Hpacked : concat (map (slot 0 E 0) (levelsAt m encodedLayers)) = packed).
  { unfold packed, levelsAt, payloadAt. rewrite map_map. f_equal.
    apply map_ext. intros layer. unfold slot. cbn [Z.eqb Z.to_nat zeros repeat].
    rewrite app_nil_r. apply subarray_prefix. lia. }
  rewrite Hpacked in *. split; [reflexivity |]. split; [exact Hsize | reflexivity].
Qed.

Lemma X5_none_layout_any_payload_witness :
  exists combinedLevels,
    outcome (_assembleMipLevels shortLayers (Some (sampleBase 0 4 4 0 1)))
      = Ok combinedLevels
    /\ forall m, (m < 1)%nat ->
         let E := uastcBytesPerImageAtLevel (Z.of_nat m) 4 4 in
         let total := 2 * E in
         let packed :=
           concat (map (fun layer => firstn (Z.to_nat E) (payloadAt m layer))
                     shortLayers) in
         let cl := nth m combinedLevels emptyLevel in
         levelData cl = packed ++ zeros (Z.to_nat total - length packed)
         /\ byteLength (levelData cl) = total
         /\ uncompressedByteLength cl = total.
Proof.
  apply (X5_none_layout_any_payload shortLayers (sampleBase 0 4 4 0 1) 1).
  - discriminate.
  - repeat constructor.
  - reflexivity.
Defined.

(** ** Layers with missing levels *)

Lemma reduceSum_none {A} (f : A -> Z) (xs : list (option A)) :
  In None xs -> forall sum, reduceSum f xs sum = throw TypeError.
Proof.
  induction xs as [| x rest IH]; intros Hin sum; [destruct Hin |].
  destruct x as [a |]; [| reflexivity].
  cbn [reduceSum deref]. rewrite bind_ret_l. apply IH.
  destruct Hin as [H | H]; [discriminate | exact H].
Qed.

Lemma copyLayers_missing (scheme E pad total : Z) (xs : list (option MipLevel)) :
  0 <= E -> 0 <= pad -> In None xs ->
  forall (combined : bytes) (offset : Z),
    byteLength combined = total ->
    0 <= offset ->
    offset + sumOf (slotBound scheme E pad) xs <= total ->
    outcome (copyLayers scheme E pad xs combined offset) = Throw TypeError.
Proof.
  intros HE Hp. induction xs as [| x rest IH]; intros Hin combined offset Hlen Hoff Hfit;
    [destruct Hin |].
  rewrite sumOf_cons in Hfit.
  assert (Hrest : 0 <= sumOf (slotBound scheme E pad) rest).
  { apply sumOf_nonneg. intros o. unfold slotBound.
    destruct (scheme =? 0); [lia |].
    destruct o; [apply byteLength_nonneg | lia]. }
  destruct x as [l |]; [| reflexivity].
  destruct (written_bound scheme E pad HE Hp l) as [Hw _].
  pose proof (slot_bound scheme E pad HE Hp l) as Hsl.
  pose proof (byteLength_nonneg (written scheme E l)) as Hw0.
  pose proof (byteLength_nonneg (slot scheme E pad l)) as Hs0.
  rewrite copyLayers_cons.
  rewrite (bind_ok _ _ _ _
             (typedArraySet_ok combined (written scheme E l) offset
                Hoff ltac:(lia))).
  cbn [outcome snd]. apply IH.
  - destruct Hin as [H | H]; [discriminate | exact H].
  - unfold byteLength in *. rewrite overwrite_length; lia.
  - lia.
  - lia.
Qed.

Lemma assembleLevel_missing (encodedLayers : list Layer.t) (bp : BaseParams)
    (m : nat) (layer : Layer.t) :
  In layer encodedLayers ->
  (length (Layer.levels layer) <= m)%nat ->
  outcome (assembleLevel encodedLayers bp m) = Throw TypeError.
Proof.
  intros Hin Hshort.
  assert (Hnone : In None (map (fun layer => nth_error (Layer.levels layer) m)
                             encodedLayers)).
  { apply in_map_iff. exists layer. split; [| exact Hin].
    now apply nth_error_None. }
  unfold assembleLevel. cbv zeta.
  set (xs := map (fun layer => nth_error (Layer.levels layer) m) encodedLayers) in *.
  set (E := uastcBytesPerImageAtLevel (Z.of_nat m) (baseWidth bp) (baseHeight bp)).
  assert (HE : 16 <= E) by apply uastc_size_lower.
  pose proof (pad8_range E ltac:(lia)) as Hp.
  destruct (baseSupercompression bp =? 0) eqn:Hs.
  - rewrite bind_ret_l.
    set (T := (E + pad8 E) * Z.of_nat (length encodedLayers)).
    assert (HT : 0 <= T) by (unfold T; nia).
    rewrite (bind_ok _ _ _ _ (newCombined_ok T HT)). cbn [outcome snd].
    rewrite outcome_bind.
    rewrite (copyLayers_missing (baseSupercompression bp) E (pad8 E) T xs
               ltac:(lia) ltac:(lia) Hnone).
    + reflexivity.
    + unfold byteLength. rewrite length_zeros. lia.
    + lia.
    + rewrite sumOf_slotBound_none by assumption.
      unfold xs, T. rewrite length_map. lia.
  - rewrite (reduceSum_none _ xs Hnone). reflexivity.
Qed.

Lemma mapM_throw {A B} (f : A -> M B) (e : JsError) (xs : list A) :
  (forall x, In x xs -> outcome (f x) = Throw e \/ exists b, outcome (f x) = Ok b) ->
  (exists x, In x xs /\ outcome (f x) = Throw e) ->
  outcome (mapM f xs) = Throw e.
Proof.
  induction xs as [| x rest IH]; intros Hall [y [Hy Hthrow]]; [destruct Hy |].
  cbn [mapM]. rewrite outcome_bind.
  destruct (Hall x (or_introl eq_refl)) as [Hx | [b Hx]]; rewrite Hx; [reflexivity |].
  rewrite outcome_bind.
  rewrite IH.
  - reflexivity.
  - intros z Hz. apply Hall. now right.
  - destruct Hy as [-> | Hy]; [congruence |]. now exists y.
Qed.

(** X4.  [_assembleMipLevels] does not skip or pad a layer that has fewer
    mip levels than the first one: reading the missing level throws a
    TypeError and no combined level is returned. *)
Theorem X4_missing_level_type_error (encodedLayers : list Layer.t)
    (bp : BaseParams) (first layer : Layer.t) :
  nth_error encodedLayers 0 = Some first ->
  In layer encodedLayers ->
  (length (Layer.levels layer) < length (Layer.levels first))%nat ->
  outcome (_assembleMipLevels encodedLayers (Some bp)) = Throw TypeError.
Proof.
  intros Hfirst Hin Hshort.
  unfold _assembleMipLevels. cbn [deref]. rewrite bind_ret_l, Hfirst.
  cbn [deref]. rewrite bind_ret_l.
  apply mapM_throw.
  - intros m _.
    destruct (Forall_Exists_dec
                (fun l => (m < length (Layer.levels l))%nat)
                (fun l => lt_dec m (length (Layer.levels l)))
                encodedLayers) as [Hall | Hex].
    + right. rewrite (assembleLevel_run encodedLayers bp m Hall). now eexists.
    + left. apply Exists_exists in Hex. destruct Hex as [l [Hl Hlt]].
      apply (assembleLevel_missing encodedLayers bp m l Hl). lia.
  - exists (length (Layer.levels layer)). split.
    + apply in_seq. lia.
    + now apply (assembleLevel_missing encodedLayers bp _ layer).
Qed.

Lemma X4_missing_level_type_error_witness :
  outcome (_assembleMipLevels raggedLayers (Some (sampleBase 0 8 8 0 2)))
  = Throw TypeError.
Proof.
  apply (X4_missing_level_type_error raggedLayers (sampleBase 0 8 8 0 2)
           (sampleLayer 0 8 8 [sampleLevel x01 64; sampleLevel x01 16])
           (sampleLayer 0 8 8 [sampleLevel x02 64])).
  - reflexivity.
  - right. left. reflexivity.
  - cbn. lia.
Defined.

(** ** The order of effects in [encode] *)

Lemma copyLayers_events (scheme E pad : Z) (xs : list (option MipLevel)) :
  forall combined offset,
    Forall isAssemblerEvent (events (copyLayers scheme E pad xs combined offset)).
Proof.
  induction xs as [| x rest IH]; intros combined offset; [constructor |].
  destruct x as [l |]; [| constructor].
  rewrite copyLayers_cons, events_bind.
  assert (Hset : Forall isAssemblerEvent
                   (events (typedArraySet combined (written scheme E l) offset))).
  { unfold typedArraySet. rewrite bind_emit. cbn [events fst].
    constructor; [exact I |].
    destruct ((offset <? 0)
              || (byteLength combined <? offset + byteLength (written scheme E l)));
      constructor. }
  destruct (outcome (typedArraySet combined (written scheme E l) offset));
    [apply Forall_app; split; [exact Hset | apply IH] | exact Hset].
Qed.

Lemma reduceSum_events {A} (f : A -> Z) (xs : list (option A)) :
  forall sum, events (reduceSum f xs sum) = [].
Proof.
  induction xs as [| x rest IH]; intros sum; [reflexivity |].
  destruct x as [a |]; [| reflexivity].
  cbn [reduceSum deref]. rewrite bind_ret_l. apply IH.
Qed.

Lemma assembleLevel_events (encodedLayers : list Layer.t) (bp : BaseParams) (m : nat) :
  Forall isAssemblerEvent (events (assembleLevel encodedLayers bp m)).
Proof.
  unfold assembleLevel. cbv zeta.
  set (xs := map (fun layer => nth_error (Layer.levels layer) m) encodedLayers).
  set (E := uastcBytesPerImageAtLevel (Z.of_nat m) (baseWidth bp) (baseHeight bp)).
  rewrite events_bind.
  assert (Htotal : events (if baseSupercompression bp =? 0
                           then ret ((E + pad8 E) * Z.of_nat (length encodedLayers))
                           else reduceSum (fun l => byteLength (levelData l)) xs 0)
                   = []).
  { destruct (baseSupercompression bp =? 0); [reflexivity | apply reduceSum_events]. }
  rewrite Htotal.
  destruct (outcome (if baseSupercompression bp =? 0
                     then ret ((E + pad8 E) * Z.of_nat (length encodedLayers))
                     else reduceSum (fun l => byteLength (levelData l)) xs 0))
    as [totalSize |]; [| constructor].
  cbn [app]. rewrite events_bind.
  assert (Hnew : Forall isAssemblerEvent (events (newCombined totalSize))).
  { unfold newCombined. rewrite bind_emit. cbn [events fst].
    constructor; [exact I |]. destruct (totalSize <? 0); constructor. }
  destruct (outcome (newCombined totalSize)) as [combined |]; [| exact Hnew].
  apply Forall_app. split; [exact Hnew |].
  rewrite events_bind.
  pose proof (copyLayers_events (baseSupercompression bp) E (pad8 E) xs combined 0)
    as Hcopy.
  destruct (outcome (copyLayers (baseSupercompression bp) E (pad8 E) xs combined 0))
    as [[c o] |]; [| exact Hcopy].
  apply Forall_app. split; [exact Hcopy |].
  rewrite events_bind.
  assert (Hunc : events (if baseSupercompression bp =? 0
                         then ret totalSize
                         else reduceSum uncompressedByteLength xs 0) = []).
  { destruct (baseSupercompression bp =? 0); [reflexivity | apply reduceSum_events]. }
  rewrite Hunc.
  destruct (outcome (if baseSupercompression bp =? 0
                     then ret totalSize
                     else reduceSum uncompressedByteLength xs 0)); constructor.
Qed.

Lemma mapM_events {A B} (P : Event -> Prop) (f : A -> M B) (xs : list A) :
  (forall x, Forall P (events (f x))) -> Forall P (events (mapM f xs)).
Proof.
  intros H. induction xs as [| x rest IH]; [constructor |].
  cbn [mapM]. rewrite events_bind.
  destruct (outcome (f x)); [| apply H].
  apply Forall_app. split; [apply H |].
  rewrite events_bind.
  destruct (outcome (mapM f rest)); [| exact IH].
  apply Forall_app. split; [exact IH | constructor].
Qed.

Lemma assembleMipLevels_events (encodedLayers : list Layer.t)
    (baseParams : option BaseParams) :
  Forall isAssemblerEvent (events (_assembleMipLevels encodedLayers baseParams)).
Proof.
  unfold _assembleMipLevels.
  destruct baseParams as [bp |]; [| constructor].
  cbn [deref]. rewrite bind_ret_l.
  destruct (nth_error encodedLayers 0) as [first |]; [| constructor].
  cbn [deref]. rewrite bind_ret_l.
  apply mapM_events. intros m. apply assembleLevel_events.
Qed.

Lemma mapM_length {A B} (f : A -> M B) (xs : list A) :
  forall ys, outcome (mapM f xs) = Ok ys -> length ys = length xs.
Proof.
  induction xs as [| x rest IH]; intros ys H.
  - injection H as <-. reflexivity.
  - cbn [mapM] in H. rewrite outcome_bind in H.
    destruct (outcome (f x)); [| discriminate].
    rewrite outcome_bind in H.
    destruct (outcome (mapM f rest)) as [ys' |] eqn:Hr; [| discriminate].
    injection H as <-. cbn [length]. f_equal. now apply IH.
Qed.

Lemma assembleMipLevels_length (encodedLayers : list Layer.t) (bp : BaseParams)
    (first : Layer.t) (combinedLevels : list MipLevel) :
  nth_error encodedLayers 0 = Some first ->
  outcome (_assembleMipLevels encodedLayers (Some bp)) = Ok combinedLevels ->
  length combinedLevels = length (Layer.levels first).
Proof.
  intros Hfirst H. unfold _assembleMipLevels in H.
  cbn [deref] in H. rewrite bind_ret_l, Hfirst in H.
  cbn [deref] in H. rewrite bind_ret_l in H.
  apply mapM_length in H. now rewrite length_seq in H.
Qed.

Section PipelineOrder.

Variable fetch : string -> result bytes.
Variable fromImageFile : bytes -> string -> result bytes.
Variable fromRGBA : bytes -> Z -> Z -> result bytes.
Variable read : bytes -> result Container.t.
Variable write : Container.t -> result bytes.

Local Abbreviation parseLayer' := (parseLayer fromImageFile fromRGBA read).
Local Abbreviation parseAll' := (parseAll fromImageFile fromRGBA read).
Local Abbreviation encodeLoop' := (encodeLoop fromImageFile fromRGBA read).
Local Abbreviation encodeContainer' := (encodeContainer fromImageFile fromRGBA read).
Local Abbreviation encode' := (encode fromImageFile fromRGBA read write).

(** One iteration of the loop on a yielded layer: the encoder is called,
    and the loop either stops with an error or goes on with the next index. *)
Lemma encodeLoop_yield_cases (layer : LayerItem) (next : Gen)
    (acc : list Layer.t) (bp : option BaseParams) (idx : nat) :
  (exists e, encodeLoop' (GYield layer next) acc bp idx = ([EvEncode idx], Throw e))
  \/ exists acc' bp',
       encodeLoop' (GYield layer next) acc bp idx
       = (EvEncode idx :: events (encodeLoop' next acc' bp' (S idx)),
          outcome (encodeLoop' next acc' bp' (S idx))).
Proof.
  destruct (parseLayer' layer) as [c | e] eqn:Hc.
  2:{ left. exists e. now apply encodeLoop_yield_throw. }
  destruct idx as [| idx].
  { right. exists (acc ++ [layerOfContainer c]), (Some (_extractBaseParams c)).
    exact (encodeLoop_yield_first fromImageFile fromRGBA read layer next acc bp c Hc). }
  destruct bp as [bp |].
  - rewrite (encodeLoop_yield_later fromImageFile fromRGBA read layer next acc bp idx c Hc).
    destruct (_validateLayerConsistency c bp (S idx)) as [[] | e].
    + right. eexists. eexists. reflexivity.
    + left. now exists e.
  - left. exists TypeError.
    cbn [encodeLoop]. rewrite encodeLayer_read, Hc, bind_emit.
    change (lift (Ok c)) with (ret c). rewrite bind_ret_l. reflexivity.
Qed.

Lemma encodeLoop_events (g : Gen) :
  forall acc bp idx, Forall isSourceEvent (events (encodeLoop' g acc bp idx)).
Proof.
  induction g as [| e | url next IH | layer next IH]; intros acc bp idx.
  - constructor.
  - constructor.
  - rewrite encodeLoop_fetch. constructor; [exact I | apply IH].
  - destruct (encodeLoop_yield_cases layer next acc bp idx)
      as [[e ->] | [acc' [bp' ->]]].
    + repeat constructor.
    + constructor; [exact I | apply IH].
Qed.

(** The trace of [encode]: the loop's events, then the assembler's, then
    the serialiser's. *)
Lemma encode_events_split (g : Gen) :
  exists asm wr,
    events (encode' g) = events (encodeLoop' g [] None 0) ++ asm ++ wr
    /\ Forall isAssemblerEvent asm
    /\ (wr = [] \/ wr = [EvWrite])
    /\ (wr = [EvWrite] <-> exists c, outcome (encodeContainer' g) = Ok c)
    /\ (asm <> [] -> exists r, outcome (encodeLoop' g [] None 0) = Ok r).
Proof.
  unfold encode, encodeContainer.
  rewrite !events_bind, !outcome_bind.
  destruct (outcome (encodeLoop' g [] None 0)) as [[layers bp] |] eqn:Hloop.
  2:{ exists [], []. rewrite !app_nil_r. split; [reflexivity |].
      split; [constructor |]. split; [now left |]. split.
      - split; [discriminate | intros [c H]; discriminate].
      - intros H. now contradiction H. }
  pose proof (assembleMipLevels_events layers bp) as Hasm.
  rewrite !events_bind, !outcome_bind.
  destruct (outcome (_assembleMipLevels layers bp)) as [cls |] eqn:Hout.
  2:{ exists (events (_assembleMipLevels layers bp)), [].
      rewrite !app_nil_r. split; [reflexivity |].
      split; [exact Hasm |]. split; [now left |]. split.
      - split; [discriminate | intros [c H]; discriminate].
      - intros _. now eexists. }
  destruct bp as [bp |].
  2:{ exfalso. unfold _assembleMipLevels in Hout. discriminate Hout. }
  cbn [deref]. rewrite !bind_ret_l. cbn [ret events outcome fst snd].
  rewrite bind_emit. cbn [events fst lift].
  exists (events (_assembleMipLevels layers (Some bp))), [EvWrite].
  rewrite !app_nil_r. split; [now rewrite <- app_assoc |].
  split; [exact Hasm |]. split; [now right |]. split.
  - split; [intros _; now eexists | reflexivity].
  - intros _. now eexists.
Qed.

(** X7.  In every run of [encode] the requests and encoder calls come first,
    then the allocations and copies of the assembler, then at most one call
    of [write]: assembly starts only when the source is exhausted without
    error, and [write] is called exactly when a container was built, so a
    failure leaves no serialised output. *)
Theorem X7_encode_effect_order (g : Gen) :
  exists src asm wr,
    events (encode' g) = src ++ asm ++ wr
    /\ Forall isSourceEvent src
    /\ Forall isAssemblerEvent asm
    /\ (wr = [] \/ wr = [EvWrite])
    /\ (wr = [EvWrite] <-> exists c, outcome (encodeContainer' g) = Ok c)
    /\ (asm <> [] -> exists r, outcome (encodeLoop' g [] None 0) = Ok r).
Proof.
  destruct (encode_events_split g) as [asm [wr [Hev [Hasm [Hwr [Hiff Hstart]]]]]].
  exists (events (encodeLoop' g [] None 0)), asm, wr.
  split; [exact Hev |]. split; [apply encodeLoop_events |].
  repeat split; try assumption; apply Hiff.
Qed.

Lemma encodeIndices_app (t t' : trace) :
  encodeIndices (t ++ t') = encodeIndices t ++ encodeIndices t'.
Proof.
  induction t as [| ev rest IH]; [reflexivity |].
  destruct ev; cbn [app encodeIndices]; now rewrite IH.
Qed.

Lemma encodeIndices_assembler (t : trace) :
  Forall isAssemblerEvent t -> encodeIndices t = [].
Proof.
  induction 1 as [| ev rest Hev _ IH]; [reflexivity |].
  destruct ev; cbn in Hev |- *; try contradiction; exact IH.
Qed.

Lemma encodeLoop_indices (g : Gen) :
  forall acc bp idx,
    exists k,
      encodeIndices (events (encodeLoop' g acc bp idx)) = seq idx k
      /\ (k <= length (yielded g))%nat
      /\ (forall r, outcome (encodeLoop' g acc bp idx) = Ok r ->
            k = length (yielded g)).
Proof.
  induction g as [| e | url next IH | layer next IH]; intros acc bp idx.
  - exists 0%nat. repeat split; auto.
  - exists 0%nat. cbn. repeat split; auto; discriminate.
  - rewrite encodeLoop_fetch. cbn [events outcome fst snd encodeIndices yielded].
    apply IH.
  - cbn [yielded length].
    destruct (encodeLoop_yield_cases layer next acc bp idx)
      as [[e ->] | [acc' [bp' ->]]].
    + exists 1%nat. cbn. repeat split; first [lia | discriminate].
    + destruct (IH acc' bp' (S idx)) as [k [Hk [Hle Hok]]].
      exists (S k). cbn [events outcome fst snd encodeIndices seq].
      rewrite Hk. split; [reflexivity |]. split; [lia |].
      intros r Hr. f_equal. now apply (Hok r).
Qed.

(** X8.  [encode] calls the encoder once per layer, in source order and
    with the indices 0, 1, 2, ... without a gap; a run that succeeds has
    called it for every layer the source yields. *)
Theorem X8_encoder_calls_in_order (g : Gen) :
  exists k,
    encodeIndices (events (encode' g)) = seq 0 k
    /\ (k <= length (yielded g))%nat
    /\ (forall out, outcome (encode' g) = Ok out -> k = length (yielded g)).
Proof.
  destruct (encode_events_split g) as [asm [wr [Hev [Hasm [Hwr _]]]]].
  destruct (encodeLoop_indices g [] None 0) as [k [Hk [Hle Hok]]].
  exists k. rewrite Hev, !encodeIndices_app, Hk.
  rewrite (encodeIndices_assembler asm Hasm).
  assert (Hw : encodeIndices wr = []) by (destruct Hwr as [-> | ->]; reflexivity).
  rewrite Hw, !app_nil_r. split; [reflexivity |]. split; [exact Hle |].
  intros out Hout. unfold encode, encodeContainer in Hout.
  rewrite !outcome_bind in Hout.
  destruct (outcome (encodeLoop' g [] None 0)) as [r |] eqn:Hloop; [| discriminate].
  now apply (Hok r).
Qed.

(** ** The container [encode] builds *)

Lemma parseAll_length (items : list LayerItem) :
  forall cs, parseAll' items = Ok cs -> length cs = length items.
Proof.
  induction items as [| item rest IH]; intros cs H.
  - injection H as <-. reflexivity.
  - destruct (parseAll_cons fromImageFile fromRGBA read item rest cs H)
      as [c [cs' [_ [Hrest ->]]]].
    cbn [length]. f_equal. now apply IH.
Qed.

Lemma validateFrom_compatible (bp : BaseParams) (cs : list Container.t) :
  forall idx,
    eagerValidateFrom idx cs bp = Ok tt -> Forall (fun c => compatible c bp) cs.
Proof.
  induction cs as [| c rest IH]; intros idx H; [constructor |].
  cbn [eagerValidateFrom] in H.
  destruct (_validateLayerConsistency c bp idx) as [[] |] eqn:Hv; [| discriminate].
  constructor; [now apply (validate_ok_compatible c bp idx) | now apply (IH (S idx))].
Qed.

(** What a successful [encode] has gone through. *)
Lemma encodeContainer_ok_shape (g : Gen) (c : Container.t) :
  outcome (encodeContainer' g) = Ok c ->
  exists first others combinedLevels,
    parseAll' (yielded g) = Ok (first :: others)
    /\ eagerValidateFrom 1 others (_extractBaseParams first) = Ok tt
    /\ outcome (_assembleMipLevels (map layerOfContainer (first :: others))
                  (Some (_extractBaseParams first))) = Ok combinedLevels
    /\ c = _createArrayContainer (map layerOfContainer (first :: others))
             (_extractBaseParams first) combinedLevels.
Proof.
  intros H. apply encodeContainer_ok_iff in H. destruct H as [_ [cs [Hp Hout]]].
  destruct cs as [| first others]; [discriminate Hout |].
  cbn [eagerContainer] in Hout.
  destruct (eagerValidateFrom 1 others (_extractBaseParams first)) as [[] |] eqn:Hval;
    [| discriminate Hout].
  change (lift (Ok tt)) with (ret tt) in Hout.
  rewrite bind_ret_l, outcome_bind in Hout.
  destruct (outcome (_assembleMipLevels (map layerOfContainer (first :: others))
                       (Some (_extractBaseParams first)))) as [cls |] eqn:Hasm;
    [| discriminate Hout].
  injection Hout as <-. now exists first, others, cls.
Qed.

(** X6.  The container a successful [encode] hands to [write] is
    consistent: its layerCount is the number of layers the source yielded,
    its levelCount and its number of levels are the first layer's mip
    count, its format, dimensions, supercompression scheme, type size and
    descriptor are the first layer's, faceCount is 1, pixelDepth 0, the
    key/value object is present, and every other layer is compatible with
    the first. *)
Theorem X6_container_fields (g : Gen) (c : Container.t) :
  outcome (encodeContainer' g) = Ok c ->
  exists first others,
    parseAll' (yielded g) = Ok (first :: others)
    /\ Container.layerCount c = Z.of_nat (length (yielded g))
    /\ Container.levelCount c = Z.of_nat (length (Container.levels first))
    /\ length (Container.levels c) = length (Container.levels first)
    /\ Container.vkFormat c = Container.vkFormat first
    /\ Container.pixelWidth c = Container.pixelWidth first
    /\ Container.pixelHeight c = Container.pixelHeight first
    /\ Container.supercompressionScheme c = Container.supercompressionScheme first
    /\ Container.typeSize c = Container.typeSize first
    /\ Container.dataFormatDescriptor c = Container.dataFormatDescriptor first
    /\ Container.faceCount c = 1
    /\ Container.pixelDepth c = 0
    /\ Container.globalData c = None
    /\ Container.keyValue c <> None
    /\ Forall (fun other => compatible other (_extractBaseParams first)) others.
Proof.
  intros H.
  destruct (encodeContainer_ok_shape g c H)
    as [first [others [cls [Hp [Hval [Hasm ->]]]]]].
  exists first, others. split; [exact Hp |].
  pose proof (parseAll_length _ _ Hp) as Hlen.
  assert (Hcls : length cls = length (Container.levels first)).
  { rewrite (assembleMipLevels_length
               (map layerOfContainer (first :: others)) (_extractBaseParams first)
               (layerOfContainer first) cls eq_refl Hasm).
    cbn. apply length_map. }
  cbn [_createArrayContainer Container.layerCount Container.levelCount
       Container.levels Container.vkFormat Container.pixelWidth
       Container.pixelHeight Container.supercompressionScheme Container.typeSize
       Container.dataFormatDescriptor Container.faceCount Container.pixelDepth
       Container.globalData Container.keyValue].
  rewrite length_map, Hlen, Hcls.
  repeat split.
  - cbn. destruct (Container.keyValue first); discriminate.
  - apply (validateFrom_compatible _ _ 1 Hval).
Qed.

(** ** The frame cap of [fromVideoUrl] *)

Lemma rgbaFrameGenerator_yield_bound (maxFrames : Z) (samples : list (result Frame)) :
  forall frameCount,
    (length (yielded (rgbaFrameGenerator (Some maxFrames) samples frameCount))
     <= Z.to_nat (maxFrames - Z.of_nat frameCount))%nat
    /\ (length (yielded (rgbaFrameGenerator (Some maxFrames) samples frameCount))
        <= length samples)%nat.
Proof.
  induction samples as [| s rest IH]; intros frameCount; [cbn; lia |].
  cbn [rgbaFrameGenerator].
  destruct (Z.of_nat frameCount >=? maxFrames) eqn:Hcap; [cbn; lia |].
  destruct s as [f | e]; [| cbn; lia].
  cbn [yielded length]. destruct (IH (S frameCount)) as [H1 H2]. lia.
Qed.

Lemma rgbaFrameGenerator_yield_count (maxFrames : Z) (samples : list (result Frame)) :
  Forall (fun s => exists f, s = Ok f) samples ->
  forall frameCount,
    length (yielded (rgbaFrameGenerator (Some maxFrames) samples frameCount))
    = Nat.min (Z.to_nat (maxFrames - Z.of_nat frameCount)) (length samples).
Proof.
  induction 1 as [| s rest [f ->] _ IH]; intros frameCount; [cbn; lia |].
  cbn [rgbaFrameGenerator].
  destruct (Z.of_nat frameCount >=? maxFrames) eqn:Hcap; [cbn; lia |].
  cbn [yielded length]. rewrite (IH (S frameCount)). lia.
Qed.

(** X12.  [maxFrames] caps the array: a texture built by the frame generator
    under [maxFrames = m] has at least one and at most m layers, never more
    than the video has samples, and exactly min(m, number of samples) when
    every sample decodes. *)
Theorem X12_max_frames_caps_layers (maxFrames : Z) (samples : list (result Frame))
    (c : Container.t) :
  outcome (encodeContainer' (rgbaFrameGenerator (Some maxFrames) samples 0)) = Ok c ->
  1 <= Container.layerCount c <= maxFrames
  /\ Container.layerCount c <= Z.of_nat (length samples)
  /\ (Forall (fun s => exists f, s = Ok f) samples ->
      Container.layerCount c = Z.min maxFrames (Z.of_nat (length samples))).
Proof.
  intros H.
  destruct (encodeContainer_ok_shape _ c H)
    as [first [others [cls [Hp [_ [_ ->]]]]]].
  pose proof (parseAll_length _ _ Hp) as Hlen.
  destruct (rgbaFrameGenerator_yield_bound maxFrames samples 0) as [Hcap Hn].
  cbn [_createArrayContainer Container.layerCount].
  rewrite length_map, Hlen. cbn [length] in Hlen.
  split; [lia |]. split; [lia |].
  intros Hall. rewrite (rgbaFrameGenerator_yield_count maxFrames samples Hall 0).
  rewrite (rgbaFrameGenerator_yield_count maxFrames samples Hall 0) in Hlen. lia.
Qed.

(** ** The requests of the pipelined generator *)

Lemma fetchUrls_app (t t' : trace) :
  fetchUrls (t ++ t') = fetchUrls t ++ fetchUrls t'.
Proof.
  induction t as [| ev rest IH]; [reflexivity |].
  destruct ev; cbn [app fetchUrls]; now rewrite IH.
Qed.

Lemma fetchUrls_assembler (t : trace) :
  Forall isAssemblerEvent t -> fetchUrls t = [].
Proof.
  induction 1 as [| ev rest Hev _ IH]; [reflexivity |].
  destruct ev; cbn in Hev |- *; try contradiction; exact IH.
Qed.

(** The loop requests what the source requests, in order, up to where it
    stops. *)
Lemma encodeLoop_fetches (g : Gen) :
  forall acc bp idx,
    exists k,
      fetchUrls (events (encodeLoop' g acc bp idx)) = firstn k (genFetches g)
      /\ (forall r, outcome (encodeLoop' g acc bp idx) = Ok r ->
            fetchUrls (events (encodeLoop' g acc bp idx)) = genFetches g).
Proof.
  induction g as [| e | url next IH | layer next IH]; intros acc bp idx.
  - exists 0%nat. split; auto.
  - exists 0%nat. split; auto.
  - rewrite encodeLoop_fetch. cbn [events outcome fst snd fetchUrls genFetches].
    destruct (IH acc bp idx) as [k [Hk Hok]].
    exists (S k). cbn [firstn]. rewrite Hk. split; [reflexivity |].
    intros r Hr. rewrite <- Hk. f_equal. now apply (Hok r).
  - cbn [genFetches].
    destruct (encodeLoop_yield_cases layer next acc bp idx)
      as [[e ->] | [acc' [bp' ->]]].
    + exists 0%nat. cbn. split; [reflexivity | discriminate].
    + cbn [events outcome fst snd fetchUrls]. apply IH.
Qed.

Lemma encode_fetches (g : Gen) :
  exists k,
    fetchUrls (events (encode' g)) = firstn k (genFetches g)
    /\ (forall out, outcome (encode' g) = Ok out ->
          fetchUrls (events (encode' g)) = genFetches g).
Proof.
  destruct (encode_events_split g) as [asm [wr [Hev [Hasm [Hwr _]]]]].
  destruct (encodeLoop_fetches g [] None 0) as [k [Hk Hok]].
  assert (Hsame : fetchUrls (events (encode' g))
                  = fetchUrls (events (encodeLoop' g [] None 0))).
  { rewrite Hev, !fetchUrls_app, (fetchUrls_assembler asm Hasm).
    destruct Hwr as [-> | ->]; cbn; now rewrite app_nil_r. }
  exists k. rewrite Hsame. split; [exact Hk |].
  intros out Hout. unfold encode, encodeContainer in Hout.
  rewrite !outcome_bind in Hout.
  destruct (outcome (encodeLoop' g [] None 0)) as [r |] eqn:Hloop; [| discriminate].
  now apply (Hok r).
Qed.

(** The generator requests the URLs in order and stops at the first request
    that fails. *)
Lemma imageGeneratorFrom_fetches (rest : list string) :
  forall (i : nat) (url : string) (next : result bytes),
    (exists k, genFetches (imageGeneratorFrom fetch i url rest next) = firstn k rest)
    /\ (genEnd (imageGeneratorFrom fetch i url rest next) = Ok tt ->
        genFetches (imageGeneratorFrom fetch i url rest next) = rest
        /\ (exists data, next = Ok data)
        /\ Forall (fun u => exists data, fetch u = Ok data) rest)
    /\ (forall p u e,
          nth_error rest p = Some u -> fetch u = Throw e ->
          exists k, (k <= S p)%nat
                    /\ genFetches (imageGeneratorFrom fetch i url rest next)
                       = firstn k rest).
Proof.
  induction rest as [| url' rest' IH]; intros i url next.
  - destruct next as [data | e]; cbn.
    + split; [now exists 0%nat |]. split.
      * intros _. split; [reflexivity |]. split; [now exists data | constructor].
      * intros [| p] u e0 H; discriminate.
    + split; [now exists 0%nat |]. split; [discriminate |].
      intros [| p] u e0 H; discriminate.
  - destruct next as [data | e].
    + cbn [imageGeneratorFrom genFetches genEnd].
      destruct (IH (S i) url' (fetch url')) as [[k Hk] [Hend Hfail]].
      split; [exists (S k); cbn [firstn]; now rewrite Hk |]. split.
      * intros He. destruct (Hend He) as [Hall [[d Hd] Hrest]].
        split; [now rewrite Hall |]. split; [now exists data |].
        constructor; [now exists d | exact Hrest].
      * intros [| p] u e0 Hnth Hu.
        -- cbn in Hnth. injection Hnth as ->. exists 1%nat. split; [lia |].
           rewrite Hu. destruct rest'; reflexivity.
        -- cbn [nth_error] in Hnth.
           destruct (Hfail p u e0 Hnth Hu) as [k' [Hle Hk']].
           exists (S k'). split; [lia |]. cbn [firstn]. now rewrite Hk'.
    + cbn. split; [now exists 0%nat |]. split; [discriminate |].
      intros p u e0 _ _. exists 0%nat. split; [lia | reflexivity].
Qed.

(** X9.  [fromImageUrls] requests the URLs in array order, each at most
    once and without skipping any: the requests of a run are a prefix of
    the array, and the whole array when the run succeeds. *)
Theorem X9_requests_are_a_prefix (urls : list string) :
  exists k,
    fetchUrls (events (fromImageUrls fetch fromImageFile fromRGBA read write urls))
      = firstn k urls
    /\ (forall out,
          outcome (fromImageUrls fetch fromImageFile fromRGBA read write urls)
            = Ok out ->
          fetchUrls (events (fromImageUrls fetch fromImageFile fromRGBA read write urls))
            = urls).
Proof.
  destruct urls as [| url rest].
  { exists 0%nat. split; [reflexivity | discriminate]. }
  cbn [fromImageUrls].
  destruct (encode_fetches (imageGenerator fetch url rest)) as [k [Hk Hok]].
  destruct (imageGeneratorFrom_fetches rest 0 url (fetch url)) as [[j Hj] [Hend _]].
  assert (Hgen : genFetches (imageGenerator fetch url rest) = firstn (S j) (url :: rest)).
  { unfold imageGenerator. cbn [genFetches firstn]. now rewrite Hj. }
  exists (Nat.min k (S j)). split.
  - rewrite Hk, Hgen. apply firstn_firstn.
  - intros out Hout. rewrite (Hok out Hout).
    assert (He : genEnd (imageGenerator fetch url rest) = Ok tt).
    { unfold encode in Hout. rewrite outcome_bind in Hout.
      destruct (outcome (encodeContainer' (imageGenerator fetch url rest)))
        as [c |] eqn:Hc; [| discriminate].
      apply encodeContainer_ok_iff in Hc. apply Hc. }
    unfold imageGenerator in *. cbn [genFetches genEnd] in *.
    destruct (Hend He) as [Hall _]. now rewrite Hall.
Qed.

(** X11.  When the request for the URL at position p fails, no URL after it
    is ever requested and the run does not succeed. *)
Theorem X11_no_request_after_failure (urls : list string) (p : nat)
    (u : string) (e : JsError) :
  nth_error urls p = Some u ->
  fetch u = Throw e ->
  (exists k, (k <= S p)%nat
             /\ fetchUrls (events (fromImageUrls fetch fromImageFile fromRGBA
                                     read write urls))
                = firstn k urls)
  /\ forall out,
       outcome (fromImageUrls fetch fromImageFile fromRGBA read write urls) <> Ok out.
Proof.
  intros Hnth Hu.
  destruct urls as [| url rest]; [destruct p; discriminate |].
  cbn [fromImageUrls].
  destruct (encode_fetches (imageGenerator fetch url rest)) as [k [Hk _]].
  destruct (imageGeneratorFrom_fetches rest 0 url (fetch url))
    as [[j0 Hj0] [Hend Hfail]].
  split.
  - assert (Hgen : exists j, (j <= S p)%nat
                             /\ genFetches (imageGenerator fetch url rest)
                                = firstn j (url :: rest)).
    { unfold imageGenerator. cbn [genFetches].
      destruct p as [| p].
      - cbn in Hnth. injection Hnth as ->. exists 1%nat. split; [lia |].
        rewrite Hu. destruct rest; reflexivity.
      - cbn [nth_error] in Hnth.
        destruct (Hfail p u e Hnth Hu) as [j [Hle Hj]].
        exists (S j). split; [lia |]. cbn [firstn]. now rewrite Hj. }
    destruct Hgen as [j [Hle Hj]].
    exists (Nat.min k j). split; [lia |]. rewrite Hk, Hj. apply firstn_firstn.
  - intros out Hout.
    unfold encode in Hout. rewrite outcome_bind in Hout.
    destruct (outcome (encodeContainer' (imageGenerator fetch url rest)))
      as [c |] eqn:Hc; [| discriminate].
    apply encodeContainer_ok_iff in Hc. destruct Hc as [He _].
    unfold imageGenerator in He. cbn [genEnd] in He.
    destruct (Hend He) as [_ [[d Hd] Hall]].
    destruct p as [| p].
    + cbn in Hnth. injection Hnth as ->. congruence.
    + cbn [nth_error] in Hnth. rewrite Forall_forall in Hall.
      destruct (Hall u (nth_error_In _ _ Hnth)) as [d' Hd']. congruence.
Qed.

Lemma fetchesBefore_assembler (j : nat) (t' : trace) :
  Forall (fun ev => ~ isSourceEvent ev) t' ->
  forall t, fetchesBefore j (t ++ t') = fetchesBefore j t.
Proof.
  intros Hno.
  assert (Hnone : fetchesBefore j t' = None).
  { induction Hno as [| ev rest Hev _ IH]; [reflexivity |].
    destruct ev; cbn in Hev |- *; try exact IH; now contradiction Hev. }
  induction t as [| ev rest IH]; [exact Hnone |].
  destruct ev; cbn [app fetchesBefore]; try exact IH.
  - now rewrite IH.
  - destruct (_ =? j)%nat; [reflexivity | exact IH].
Qed.

(** While layer [i] is the next to be yielded, [i + 1] requests have been
    started; the loop over the rest keeps one request ahead. *)
Lemma imageGeneratorFrom_lookahead (rest : list string) :
  forall (i : nat) (url : string) (next : result bytes) acc bp (j c : nat),
    fetchesBefore j
      (events (encodeLoop' (imageGeneratorFrom fetch i url rest next) acc bp i))
      = Some c ->
    (i <= j)%nat
    /\ (c + i + 1 = Nat.min (j + 2) (i + 1 + length rest))%nat.
Proof.
  induction rest as [| url' rest' IH]; intros i url next acc bp j c H.
  - destruct next as [data | e]; [| discriminate H].
    cbn [imageGeneratorFrom] in H.
    destruct (encodeLoop_yield_cases (imageItem i url data) GReturn acc bp i)
      as [[e He] | [acc' [bp' He]]]; rewrite He in H; cbn in H;
      destruct (Nat.eqb_spec i j) as [-> | Hne]; try discriminate H;
      injection H as <-; cbn [length]; lia.
  - destruct next as [data | e]; [| discriminate H].
    cbn [imageGeneratorFrom] in H. rewrite encodeLoop_fetch in H.
    cbn [events fst fetchesBefore] in H.
    destruct (encodeLoop_yield_cases (imageItem i url data)
                (imageGeneratorFrom fetch (S i) url' rest' (fetch url')) acc bp i)
      as [[e He] | [acc' [bp' He]]]; rewrite He in H;
      cbn [events fst fetchesBefore] in H;
      destruct (Nat.eqb_spec i j) as [-> | Hne].
    + injection H as <-. cbn [length]. lia.
    + discriminate H.
    + injection H as <-. cbn [length]. lia.
    + destruct (fetchesBefore j _) as [c' |] eqn:Hc'; [| discriminate H].
      injection H as <-. destruct (IH _ _ _ _ _ _ _ Hc') as [Hle Hsum].
      cbn [length]. lia.
Qed.

(** X10.  The generator stays exactly one request ahead of the encoder:
    when the encoder is called for layer j, j + 2 requests have been
    started (j + 1 for the last layer), so at most one fetched image waits
    while another is being encoded. *)
Theorem X10_one_request_ahead (urls : list string) (j c : nat) :
  fetchesBefore j
    (events (fromImageUrls fetch fromImageFile fromRGBA read write urls)) = Some c ->
  c = Nat.min (j + 2) (length urls).
Proof.
  intros H. destruct urls as [| url rest]; [discriminate H |].
  cbn [fromImageUrls] in H.
  destruct (encode_events_split (imageGenerator fetch url rest))
    as [asm [wr [Hev [Hasm [Hwr _]]]]].
  rewrite Hev in H. rewrite fetchesBefore_assembler in H.
  2:{ apply Forall_app. split.
      - eapply Forall_impl; [| exact Hasm]. intros [] Hx; cbn in Hx |- *; try contradiction; exact (fun Hf => Hf).
      - destruct Hwr as [-> | ->]; repeat constructor. exact (fun Hf => Hf). }
  unfold imageGenerator in H. rewrite encodeLoop_fetch in H.
  cbn [events fst fetchesBefore] in H.
  destruct (fetchesBefore j _) as [c' |] eqn:Hc'; [| discriminate H].
  injection H as <-.
  destruct (imageGeneratorFrom_lookahead _ _ _ _ _ _ _ _ Hc') as [_ Hsum].
  cbn [length]. lia.
Qed.

End PipelineOrder.

(** ** The further properties on sample runs *)

Lemma X6_container_fields_witness :
  exists first others,
    parseAll sampleFromImageFile sampleFromRGBA sampleRead (yielded matchingSource)
      = Ok (first :: others)
    /\ Container.layerCount matchingContainer = Z.of_nat (length (yielded matchingSource))
    /\ Container.levelCount matchingContainer = Z.of_nat (length (Container.levels first))
    /\ length (Container.levels matchingContainer) = length (Container.levels first)
    /\ Container.vkFormat matchingContainer = Container.vkFormat first
    /\ Container.pixelWidth matchingContainer = Container.pixelWidth first
    /\ Container.pixelHeight matchingContainer = Container.pixelHeight first
    /\ Container.supercompressionScheme matchingContainer
       = Container.supercompressionScheme first
    /\ Container.typeSize matchingContainer = Container.typeSize first
    /\ Container.dataFormatDescriptor matchingContainer
       = Container.dataFormatDescriptor first
    /\ Container.faceCount matchingContainer = 1
    /\ Container.pixelDepth matchingContainer = 0
    /\ Container.globalData matchingContainer = None
    /\ Container.keyValue matchingContainer <> None
    /\ Forall (fun other => compatible other (_extractBaseParams first)) others.
Proof.
  apply (X6_container_fields sampleFromImageFile sampleFromRGBA sampleRead
           matchingSource matchingContainer).
  reflexivity.
Defined.

Lemma X12_max_frames_caps_layers_witness :
  1 <= Container.layerCount cappedContainer <= 2
  /\ Container.layerCount cappedContainer <= Z.of_nat (length sampleFrames)
  /\ (Forall (fun s => exists f, s = Ok f) sampleFrames ->
      Container.layerCount cappedContainer
      = Z.min 2 (Z.of_nat (length sampleFrames))).
Proof.
  apply (X12_max_frames_caps_layers sampleFromImageFile sampleFromRGBA sampleRead
           2 sampleFrames cappedContainer).
  reflexivity.
Defined.

Lemma X11_no_request_after_failure_witness :
  (exists k, (k <= 2)%nat
             /\ fetchUrls (events (fromImageUrls flakyFetch sampleFromImageFile
                                     sampleFromRGBA sampleRead sampleWrite sampleUrls))
                = firstn k sampleUrls)
  /\ forall out,
       outcome (fromImageUrls flakyFetch sampleFromImageFile sampleFromRGBA
                  sampleRead sampleWrite sampleUrls) <> Ok out.
Proof.
  apply (X11_no_request_after_failure flakyFetch sampleFromImageFile sampleFromRGBA
           sampleRead sampleWrite sampleUrls 1 "b/y.png"%string
           (External "Failed to fetch b/y.png")).
  - reflexivity.
  - reflexivity.
Defined.

(** The run behind it: the first layer is encoded, the failure of the second
    request surfaces, and the third URL is never requested. *)
Example flaky_fetch_run :
  fromImageUrls flakyFetch sampleFromImageFile sampleFromRGBA sampleRead sampleWrite
    sampleUrls
  = ([EvFetch "a/x.png"; EvFetch "b/y.png"; EvEncode 0],
     Throw (External "Failed to fetch b/y.png")).
Proof. reflexivity. Qed.

Lemma X10_one_request_ahead_witness :
  2%nat = Nat.min (0 + 2) (length sampleUrls).
Proof.
  apply (X10_one_request_ahead sampleFetch sampleFromImageFile sampleFromRGBA
           sampleRead sampleWrite sampleUrls 0 2).
  reflexivity.
Defined.

(** * Buffer sizing *)

Lemma toInt32_range (x : Z) : - 2^31 <= Js.toInt32 x < 2^31.
Proof.
  unfold Js.toInt32.
  pose proof (Z.mod_pos_bound (x + 2^31) (2^32) ltac:(lia)). lia.
Qed.

Lemma shr_one_range (x : Z) : Z.max 1 (Js.shr x 1) < 2^30 /\ 1 <= Z.max 1 (Js.shr x 1).
Proof.
  unfold Js.shr. change (1 mod 32) with 1.
  rewrite Z.shiftr_div_pow2 by lia. change (2^1) with 2.
  pose proof (toInt32_range x) as H.
  assert (Js.toInt32 x / 2 < 2^30) by (apply Z.div_lt_upper_bound; lia).
  lia.
Qed.

(** A halving loop over dimensions below 2^fuel ends within [fuel]
    iterations, and only adds to the total. *)
Lemma mipChainLoop_total (fuel : nat) :
  forall w h bytes,
    1 <= w < 2 ^ Z.of_nat fuel -> 1 <= h < 2 ^ Z.of_nat fuel ->
    exists r, mipChainLoop fuel w h bytes = Some r /\ bytes <= r.
Proof.
  induction fuel as [| fuel IH]; intros w h bytes Hw Hh.
  - change (2 ^ Z.of_nat 0) with 1 in Hw. lia.
  - cbn [mipChainLoop].
    destruct ((w >? 1) || (h >? 1)) eqn:Hcond.
    2:{ exists bytes. split; [reflexivity | lia]. }
    rewrite Nat2Z.inj_succ, Z.pow_succ_r in Hw, Hh by lia.
    assert (Hf : 2 <= 2 ^ Z.of_nat fuel).
    { destruct fuel as [| f].
      - change (2 ^ Z.of_nat 0) with 1 in *.
        apply orb_true_iff in Hcond. destruct Hcond as [Hc | Hc]; lia.
      - rewrite Nat2Z.inj_succ, Z.pow_succ_r by lia.
        pose proof (Z.pow_pos_nonneg 2 (Z.of_nat f) ltac:(lia) ltac:(lia)). lia. }
    assert (Hhalf : forall x, 1 <= x < 2 * 2 ^ Z.of_nat fuel ->
                     1 <= Z.max 1 (Js.shr x 1) < 2 ^ Z.of_nat fuel).
    { intros x Hx. destruct (Z_lt_ge_dec x (2^31)) as [Hlt | Hge].
      - rewrite shr_small by lia. change (2^1) with 2.
        assert (x / 2 < 2 ^ Z.of_nat fuel) by (apply Z.div_lt_upper_bound; lia).
        lia.
      - pose proof (shr_one_range x) as [Hr _].
        assert (2^30 <= 2 ^ Z.of_nat fuel); [| lia].
        assert (2^31 < 2 ^ (Z.of_nat fuel + 1)).
        { rewrite Z.pow_add_r by lia. lia. }
        apply Z.pow_lt_mono_r_iff in H; [| lia | lia].
        apply Z.pow_le_mono_r; lia. }
    destruct (IH (Z.max 1 (Js.shr w 1)) (Z.max 1 (Js.shr h 1))
                (bytes + Js.ceilDiv4 (Z.max 1 (Js.shr w 1))
                         * Js.ceilDiv4 (Z.max 1 (Js.shr h 1)) * 16)
                (Hhalf w Hw) (Hhalf h Hh)) as [r [Hr Hle]].
    exists r. split; [exact Hr |].
    pose proof (ceilDiv4_pos (Z.max 1 (Js.shr w 1)) ltac:(lia)).
    pose proof (ceilDiv4_pos (Z.max 1 (Js.shr h 1)) ltac:(lia)).
    nia.
Qed.

(** The loop ends within its 32 iterations whatever the dimensions: the
    first [>> 1] brings any number into the signed 32-bit range. *)
Lemma mipChainLoop_returns (w h bytes : Z) :
  exists r, mipChainLoop mipChainFuel w h bytes = Some r /\ bytes <= r.
Proof.
  unfold mipChainFuel. cbn [mipChainLoop].
  destruct ((w >? 1) || (h >? 1)); [| exists bytes; split; [reflexivity | lia]].
  destruct (shr_one_range w) as [Hw1 Hw2], (shr_one_range h) as [Hh1 Hh2].
  destruct (mipChainLoop_total 31 (Z.max 1 (Js.shr w 1)) (Z.max 1 (Js.shr h 1))
              (bytes + Js.ceilDiv4 (Z.max 1 (Js.shr w 1))
                       * Js.ceilDiv4 (Z.max 1 (Js.shr h 1)) * 16))
    as [r [Hr Hle]]; [change (2 ^ Z.of_nat 31) with (2^31); lia .. |].
  exists r. split; [exact Hr |].
  pose proof (ceilDiv4_pos _ Hw2). pose proof (ceilDiv4_pos _ Hh2). nia.
Qed.

(** The loop from level [k] on: it adds the sizes of the levels k+1 .. L of
    the chain, L being the level at which both dimensions reach 1. *)
Lemma mipChainLoop_sum (width height : Z) :
  1 <= width < 2^31 -> 1 <= height < 2^31 ->
  forall (n k fuel : nat) (bytes : Z),
    (k + n = Z.to_nat (Z.log2 (Z.max width height)))%nat ->
    (n <= fuel)%nat ->
    mipChainLoop fuel (Z.max 1 (width / 2 ^ Z.of_nat k))
      (Z.max 1 (height / 2 ^ Z.of_nat k)) bytes
    = Some (bytes + fold_right Z.add 0 (chainSizes (S k) n width height)).
Proof.
  intros Hw Hh.
  set (L := Z.log2 (Z.max width height)).
  assert (HL : 0 <= L < 31).
  { split; [apply Z.log2_nonneg |].
    apply Z.log2_lt_pow2; lia. }
  assert (Hspec : 2 ^ L <= Z.max width height < 2 ^ (L + 1)).
  { pose proof (Z.log2_spec (Z.max width height) ltac:(lia)) as H.
    fold L in H. rewrite <- Z.add_1_r in H. exact H. }
  assert (Hstep : forall x k, 1 <= x < 2^31 -> 0 <= k < 31 ->
            Z.max 1 (Js.shr (Z.max 1 (x / 2 ^ k)) 1) = Z.max 1 (x / 2 ^ (k + 1))).
  { intros x k Hx Hk.
    assert (Hp : 0 < 2 ^ k) by (apply Z.pow_pos_nonneg; lia).
    assert (Hq : 0 <= x / 2 ^ k <= x).
    { split; [apply Z.div_pos; lia |].
      apply Z.div_le_upper_bound; [lia | nia]. }
    rewrite shr_small by lia. change (2 ^ 1) with 2.
    rewrite Z.pow_add_r, <- Z.div_div by lia. change (2 ^ 1) with 2.
    destruct (Z_lt_ge_dec (x / 2 ^ k) 1) as [Hlt | Hge].
    - replace (x / 2 ^ k) with 0 by lia.
      rewrite (Z.max_l 1 0) by lia. reflexivity.
    - rewrite (Z.max_r 1 (x / 2 ^ k)) by lia. reflexivity. }
  induction n as [| n IH]; intros k fuel bytes Hk Hfuel.
  - assert (Hkz : Z.of_nat k = L) by lia.
    rewrite Hkz. cbn [chainSizes seq map fold_right].
    assert (Hdone : forall x, 1 <= x <= Z.max width height -> (Z.max 1 (x / 2 ^ L) >? 1) = false).
    { intros x Hx.
      assert (x / 2 ^ L < 2).
      { apply Z.div_lt_upper_bound; [lia |].
        rewrite Z.pow_add_r in Hspec by lia. change (2 ^ 1) with 2 in Hspec. lia. }
      lia. }
    destruct fuel; cbn [mipChainLoop];
      rewrite (Hdone width), (Hdone height) by lia; cbn [orb];
      f_equal; lia.
  - destruct fuel as [| fuel]; [lia |].
    assert (Hkz : Z.of_nat k < L) by lia.
    cbn [mipChainLoop].
    assert (Hcond : (Z.max 1 (width / 2 ^ Z.of_nat k) >? 1)
                    || (Z.max 1 (height / 2 ^ Z.of_nat k) >? 1) = true).
    { assert (Hp : 2 * 2 ^ Z.of_nat k <= 2 ^ L).
      { rewrite <- Z.pow_succ_r by lia. apply Z.pow_le_mono_r; lia. }
      assert (Hp0 : 0 < 2 ^ Z.of_nat k) by (apply Z.pow_pos_nonneg; lia).
      apply orb_true_iff.
      destruct (Z.max_spec width height) as [[_ Hm] | [_ Hm]]; rewrite Hm in Hspec.
      - right. assert (2 <= height / 2 ^ Z.of_nat k)
          by (apply Z.div_le_lower_bound; lia). lia.
      - left. assert (2 <= width / 2 ^ Z.of_nat k)
          by (apply Z.div_le_lower_bound; lia). lia. }
    rewrite Hcond.
    rewrite !Hstep by lia.
    replace (Z.of_nat k + 1) with (Z.of_nat (S k)) by lia.
    rewrite IH by lia.
    assert (Hterm : uastcBytesPerImageAtLevel (Z.of_nat (S k)) width height
                    = Js.ceilDiv4 (Z.max 1 (width / 2 ^ Z.of_nat (S k)))
                      * Js.ceilDiv4 (Z.max 1 (height / 2 ^ Z.of_nat (S k))) * 16).
    { unfold uastcBytesPerImageAtLevel. cbv zeta.
      rewrite !shr_small by lia. reflexivity. }
    f_equal. unfold chainSizes. cbn [seq map fold_right].
    rewrite Hterm. lia.
Qed.

(** The loop adds at most 4^j + 16 j bytes for dimensions up to 2^j. *)
Lemma mipChainLoop_bound (fuel : nat) :
  forall (j w h bytes r : Z),
    0 <= j <= 30 -> 1 <= w <= 2 ^ j -> 1 <= h <= 2 ^ j ->
    mipChainLoop fuel w h bytes = Some r ->
    r <= bytes + 4 ^ j + 16 * j.
Proof.
  induction fuel as [| fuel IH]; intros j w h bytes r Hj Hw Hh H;
    cbn [mipChainLoop] in H;
    destruct ((w >? 1) || (h >? 1)) eqn:Hcond; try discriminate H.
  1, 3: injection H as <-;
    pose proof (Z.pow_pos_nonneg 4 j ltac:(lia) ltac:(lia)); lia.
  assert (Hj1 : 1 <= j).
    { destruct (Z.eq_dec j 0) as [-> | ]; [| lia].
      change (2 ^ 0) with 1 in *. apply orb_true_iff in Hcond.
      destruct Hcond; lia. }
    assert (Hpow : 2 ^ j = 2 * 2 ^ (j - 1)).
    { rewrite <- Z.pow_succ_r by lia. f_equal. lia. }
    assert (Hpow4 : 4 ^ j = 4 * 4 ^ (j - 1)).
    { rewrite <- Z.pow_succ_r by lia. f_equal. lia. }
    assert (Hsq : 4 ^ (j - 1) = 2 ^ (j - 1) * 2 ^ (j - 1)).
    { change 4 with (2 * 2). rewrite Z.pow_mul_l. reflexivity. }
    assert (Hp : 1 <= 2 ^ (j - 1)).
    { pose proof (Z.pow_pos_nonneg 2 (j - 1) ltac:(lia) ltac:(lia)). lia. }
    assert (Hlt : 2 ^ j < 2 ^ 31) by (apply Z.pow_lt_mono_r; lia).
    assert (Hhalf : forall x, 1 <= x <= 2 ^ j ->
                     1 <= Z.max 1 (Js.shr x 1) <= 2 ^ (j - 1)).
    { intros x Hx. rewrite shr_small by lia. change (2 ^ 1) with 2.
      assert (x / 2 <= 2 ^ (j - 1)) by (apply Z.div_le_upper_bound; lia).
      lia. }
    pose proof (Hhalf w Hw) as Hw'. pose proof (Hhalf h Hh) as Hh'.
    apply (IH (j - 1)) in H; [| lia | exact Hw' | exact Hh'].
    set (w' := Z.max 1 (Js.shr w 1)) in *.
    set (h' := Z.max 1 (Js.shr h 1)) in *.
    assert (Hc : forall x, 1 <= x <= 2 ^ (j - 1) ->
                  1 <= Js.ceilDiv4 x /\ 4 * Js.ceilDiv4 x <= 2 ^ (j - 1) + 3).
    { intros x Hx. split; [apply ceilDiv4_pos; lia |].
      rewrite ceilDiv4_blocks. unfold SizeSpec.blocks.
      pose proof (Z.mul_div_le (x + 3) 4 ltac:(lia)). lia. }
    destruct (Hc w' Hw') as [Hcw1 Hcw2], (Hc h' Hh') as [Hch1 Hch2].
    assert (Hterm : Js.ceilDiv4 w' * Js.ceilDiv4 h' * 16 <= 3 * 4 ^ (j - 1) + 16).
    { rewrite Hsq. set (x := 2 ^ (j - 1)) in *.
      assert (H1 : (4 * Js.ceilDiv4 w') * (4 * Js.ceilDiv4 h') <= (x + 3) * (x + 3))
        by (apply Z.mul_le_mono_nonneg; lia).
      assert (H2 : (x + 3) * (x + 3) <= 3 * (x * x) + 16).
      { pose proof (Z.square_nonneg (2 * x - 3)). lia. }
      lia. }
    lia.
Qed.

(** X13.  For dimensions up to 2^25 the byte estimate of
    [uastcBytesAcrossMips] is the sum of the exact level sizes that the
    assembler uses, over the full mip chain down to 1x1; without mipmaps it
    is the size of level 0 alone.  The sum is at least the size of level 0
    and below 2^53, so that the doubles of the code hold every partial sum
    exactly. *)
Theorem X13_chain_bytes_sum (width height : Z) :
  1 <= width <= 2^25 -> 1 <= height <= 2^25 ->
  uastcBytesAcrossMips width height true
    = Some (fold_right Z.add 0
              (chainSizes 0 (fullMipCount width height) width height))
  /\ uastcBytesAcrossMips width height false
     = Some (uastcBytesPerImageAtLevel 0 width height)
  /\ uastcBytesPerImageAtLevel 0 width height
     <= fold_right Z.add 0 (chainSizes 0 (fullMipCount width height) width height)
     < 2^53.
Proof.
  intros Hw Hh.
  assert (Hbase : uastcBytesPerImageAtLevel 0 width height
                  = Js.ceilDiv4 width * Js.ceilDiv4 height * 16).
  { unfold uastcBytesPerImageAtLevel. cbv zeta.
    rewrite !shr_small by lia. change (2 ^ 0) with 1. rewrite !Z.div_1_r.
    rewrite !Z.max_r by lia. reflexivity. }
  assert (HL : 0 <= Z.log2 (Z.max width height) < 31).
  { split; [apply Z.log2_nonneg | apply Z.log2_lt_pow2; lia]. }
  pose proof (mipChainLoop_sum width height ltac:(lia) ltac:(lia)
                (Z.to_nat (Z.log2 (Z.max width height))) 0 mipChainFuel
                (Js.ceilDiv4 width * Js.ceilDiv4 height * 16)
                eq_refl) as Hsum.
  change (2 ^ Z.of_nat 0) with 1 in Hsum. rewrite !Z.div_1_r in Hsum.
  rewrite (Z.max_r 1 width), (Z.max_r 1 height) in Hsum by lia.
  specialize (Hsum ltac:(unfold mipChainFuel; lia)).
  assert (Hfold : fold_right Z.add 0
                    (chainSizes 0 (fullMipCount width height) width height)
                  = Js.ceilDiv4 width * Js.ceilDiv4 height * 16
                    + fold_right Z.add 0
                        (chainSizes 1 (Z.to_nat (Z.log2 (Z.max width height)))
                           width height)).
  { unfold fullMipCount, chainSizes. cbn [seq map fold_right].
    change (Z.of_nat 0) with 0. now rewrite Hbase. }
  unfold uastcBytesAcrossMips. cbv zeta.
  split; [now rewrite Hsum, Hfold |]. split; [now rewrite Hbase |].
  rewrite Hfold, Hbase.
  destruct (mipChainLoop_returns width height
              (Js.ceilDiv4 width * Js.ceilDiv4 height * 16)) as [r [Hr Hle]].
  rewrite Hsum in Hr. injection Hr as Hr. rewrite Hr. split; [exact Hle |].
  pose proof (mipChainLoop_bound mipChainFuel 25 width height _ _
                ltac:(lia) Hw Hh Hsum) as Hb.
  rewrite Hr in Hb.
  assert (Hc : forall x, 1 <= x <= 2^25 -> 0 <= Js.ceilDiv4 x <= 2^23).
  { intros x Hx. rewrite ceilDiv4_blocks. unfold SizeSpec.blocks.
    split; [apply Z.div_pos; lia |].
    assert ((x + 3) / 4 < 2^23 + 1) by (apply Z.div_lt_upper_bound; lia). lia. }
  pose proof (Hc width Hw) as Cw. pose proof (Hc height Hh) as Ch.
  assert (Js.ceilDiv4 width * Js.ceilDiv4 height <= 2^23 * 2^23)
    by (apply Z.mul_le_mono_nonneg; lia).
  change (4 ^ 25) with (2^50) in Hb. lia.
Qed.

Lemma X13_chain_bytes_sum_witness :
  uastcBytesAcrossMips 8 4 true
    = Some (fold_right Z.add 0 (chainSizes 0 (fullMipCount 8 4) 8 4))
  /\ uastcBytesAcrossMips 8 4 false = Some (uastcBytesPerImageAtLevel 0 8 4)
  /\ uastcBytesPerImageAtLevel 0 8 4
     <= fold_right Z.add 0 (chainSizes 0 (fullMipCount 8 4) 8 4)
     < 2^53.
Proof.
  apply (X13_chain_bytes_sum 8 4); lia.
Defined.

(** X14.  [calculateKTX2BufferSize] returns for every metadata answer,
    missing, zero-sized or of any integer dimensions (its halving loop ends
    within 32 iterations), and the size is between 1 MiB and 16 MiB. *)
Theorem X14_buffer_size_range (meta : option (Z * Z)) (mipmaps : bool) :
  exists size,
    calculateKTX2BufferSize meta mipmaps = Some size
    /\ 1024 * 1024 <= size <= 16 * 1024 * 1024.
Proof.
  unfold calculateKTX2BufferSize.
  destruct (match meta with
            | Some (w, h) => if (w =? 0) || (h =? 0) then (1024, 1024) else (w, h)
            | None => (1024, 1024)
            end) as [w h].
  cbv zeta.
  destruct mipmaps.
  - destruct (mipChainLoop_returns w h (Js.ceilDiv4 w * Js.ceilDiv4 h * 16))
      as [r [-> _]].
    eexists. split; [reflexivity | lia].
  - eexists. split; [reflexivity | lia].
Qed.

(** X16.  For an image of at most 2048 x 2048 the buffer holds the whole
    estimated UASTC payload (every mip level when [mipmaps] is set) and
    4096 bytes of headers. *)
Theorem X16_buffer_holds_payload (width height : Z) (mipmaps : bool) :
  1 <= width <= 2048 -> 1 <= height <= 2048 ->
  exists size bytes,
    calculateKTX2BufferSize (Some (width, height)) mipmaps = Some size
    /\ uastcBytesAcrossMips width height mipmaps = Some bytes
    /\ bytes + 4096 <= size.
Proof.
  intros Hw Hh.
  unfold calculateKTX2BufferSize, uastcBytesAcrossMips.
  replace ((width =? 0) || (height =? 0)) with false
    by (symmetry; apply orb_false_iff; split; apply Z.eqb_neq; lia).
  cbv zeta.
  set (base := Js.ceilDiv4 width * Js.ceilDiv4 height * 16).
  assert (Hret : exists bytes,
            (if mipmaps then mipChainLoop mipChainFuel width height base
             else Some base) = Some bytes /\ base <= bytes).
  { destruct mipmaps; [apply mipChainLoop_returns |].
    exists base. split; [reflexivity | lia]. }
  destruct Hret as [bytes [Hbytes Hle]]. rewrite Hbytes.
  eexists. exists bytes. split; [reflexivity |]. split; [reflexivity |].
  assert (Hb : 0 <= base <= 4 ^ 11).
  { subst base.
    assert (Hc : forall x, 1 <= x <= 2048 -> 1 <= Js.ceilDiv4 x <= 512).
    { intros x Hx. split; [apply ceilDiv4_pos; lia |].
      rewrite ceilDiv4_blocks. unfold SizeSpec.blocks.
      assert ((x + 3) / 4 < 513) by (apply Z.div_lt_upper_bound; lia). lia. }
    pose proof (Hc width Hw). pose proof (Hc height Hh).
    change (4 ^ 11) with (512 * 512 * 16). nia. }
  assert (Hbound : bytes <= base + 4 ^ 11 + 16 * 11).
  { destruct mipmaps.
    - apply (mipChainLoop_bound mipChainFuel 11 width height base bytes);
        [lia | change (2 ^ 11) with 2048; lia .. | exact Hbytes].
    - injection Hbytes as <-. change (4 ^ 11) with 4194304. lia. }
  change (4 ^ 11) with 4194304 in Hb, Hbound.
  unfold ceilSafety. rewrite ceilDiv4_blocks. unfold SizeSpec.blocks.
  assert (Hceil : bytes <= (5 * bytes + 3) / 4)
    by (apply Z.div_le_lower_bound; lia).
  assert (Hup : (5 * bytes + 3) / 4 <= 11000000)
    by (apply Z.div_le_upper_bound; lia).
  lia.
Qed.

Lemma X16_buffer_holds_payload_witness :
  exists size bytes,
    calculateKTX2BufferSize (Some (2048, 1024)) true = Some size
    /\ uastcBytesAcrossMips 2048 1024 true = Some bytes
    /\ bytes + 4096 <= size.
Proof.
  apply (X16_buffer_holds_payload 2048 1024 true); lia.
Defined.

(** X15.  From 4096 x 4096 on, for dimensions in the signed 32-bit range,
    the size is the 16 MiB cap, which is not more than the exact size of mip
    level 0 alone: the buffer cannot hold the texture and its headers. *)
Theorem X15_buffer_cap_below_payload (width height : Z) (mipmaps : bool) :
  4096 <= width < 2^31 -> 4096 <= height < 2^31 ->
  calculateKTX2BufferSize (Some (width, height)) mipmaps = Some (16 * 1024 * 1024)
  /\ 16 * 1024 * 1024 <= uastcBytesPerImageAtLevel 0 width height.
Proof.
  intros Hw Hh.
  assert (Hc : forall x, 4096 <= x -> 1024 <= Js.ceilDiv4 x).
  { intros x Hx. rewrite ceilDiv4_blocks. unfold SizeSpec.blocks.
    apply Z.div_le_lower_bound; lia. }
  pose proof (Hc width ltac:(lia)) as Hcw. pose proof (Hc height ltac:(lia)) as Hch.
  assert (Hbase : uastcBytesPerImageAtLevel 0 width height
                  = Js.ceilDiv4 width * Js.ceilDiv4 height * 16).
  { unfold uastcBytesPerImageAtLevel. cbv zeta.
    rewrite !shr_small by lia. change (2 ^ 0) with 1. rewrite !Z.div_1_r.
    rewrite !Z.max_r by lia. reflexivity. }
  split; [| rewrite Hbase; nia].
  unfold calculateKTX2BufferSize.
  replace ((width =? 0) || (height =? 0)) with false
    by (symmetry; apply orb_false_iff; split; apply Z.eqb_neq; lia).
  cbv zeta.
  set (base := Js.ceilDiv4 width * Js.ceilDiv4 height * 16).
  assert (Hb : 16 * 1024 * 1024 <= base) by (subst base; nia).
  assert (Hret : exists bytes,
            (if mipmaps then mipChainLoop mipChainFuel width height base
             else Some base) = Some bytes /\ base <= bytes).
  { destruct mipmaps; [apply mipChainLoop_returns |].
    exists base. split; [reflexivity | lia]. }
  destruct Hret as [bytes [-> Hle]]. f_equal.
  unfold ceilSafety. rewrite ceilDiv4_blocks. unfold SizeSpec.blocks.
  assert (Hceil : bytes <= (5 * bytes + 3) / 4)
    by (apply Z.div_le_lower_bound; lia).
  lia.
Qed.

Lemma X15_buffer_cap_below_payload_witness :
  calculateKTX2BufferSize (Some (4096, 4096)) true = Some (16 * 1024 * 1024)
  /\ 16 * 1024 * 1024 <= uastcBytesPerImageAtLevel 0 4096 4096.
Proof.
  apply (X15_buffer_cap_below_payload 4096 4096 true); lia.
Defined.

(** * Names given to the layers *)

Lemma occurs_app (c : ascii) (s t : string) :
  occurs c (s ++ t) = occurs c s || occurs c t.
Proof.
  induction s as [| c' s IH]; [reflexivity |].
  cbn [append occurs]. now rewrite IH, orb_assoc.
Qed.

Lemma append_assoc (s t u : string) : ((s ++ t) ++ u = s ++ (t ++ u))%string.
Proof.
  induction s as [| c s IH]; [reflexivity |].
  cbn [append]. now rewrite IH.
Qed.

(** What [split(sep).pop()] returns holds no separator. *)
Lemma splitPop_no_sep (sep : ascii) (s : string) :
  forall current, occurs sep current = false ->
    occurs sep (splitPop sep s current) = false.
Proof.
  induction s as [| c rest IH]; intros current Hcur; [exact Hcur |].
  cbn [splitPop]. destruct (Ascii.eqb c sep) eqn:Hc.
  - now apply IH.
  - apply IH. rewrite occurs_app, Hcur. cbn [occurs]. now rewrite Hc.
Qed.

(** A string without separator is returned whole. *)
Lemma splitPop_whole (sep : ascii) (s : string) :
  forall current, occurs sep s = false ->
    splitPop sep s current = (current ++ s)%string.
Proof.
  induction s as [| c rest IH]; intros current Hs.
  - clear Hs. induction current as [| c cur IHc]; [reflexivity |].
    cbn [append]. now rewrite <- IHc.
  - cbn [occurs] in Hs. apply orb_false_iff in Hs. destruct Hs as [Hc Hrest].
    cbn [splitPop]. rewrite Hc, (IH _ Hrest), append_assoc. reflexivity.
Qed.

(** After a trailing separator nothing is left. *)
Lemma splitPop_trailing (sep : ascii) (s : string) :
  forall current, endsWith sep s = true ->
    splitPop sep s current = EmptyString.
Proof.
  induction s as [| c rest IH]; intros current Hs; [discriminate Hs |].
  cbn [splitPop]. destruct rest as [| c' rest'].
  - cbn [endsWith] in Hs. now rewrite Hs.
  - change (endsWith sep (String c (String c' rest')))
      with (endsWith sep (String c' rest')) in Hs.
    destruct (Ascii.eqb c sep); now apply IH.
Qed.

Lemma orElse_nonempty (s fallback : string) :
  fallback <> EmptyString -> orElse s fallback <> EmptyString.
Proof.
  intros Hf. destruct s; [exact Hf | discriminate].
Qed.

Lemma orElse_occurs (c : ascii) (s fallback : string) :
  occurs c s = false -> occurs c fallback = false ->
  occurs c (orElse s fallback) = false.
Proof.
  intros Hs Hf. now destruct s.
Qed.

(** A decimal numeral holds digits only. *)
Lemma decimal_digits (c : ascii) (n : nat) :
  (nat_of_ascii c < 48)%nat -> occurs c (decimal n) = false.
Proof.
  intros Hc. unfold decimal.
  assert (Hd : forall d, (48 <= nat_of_ascii d)%nat -> Ascii.eqb d c = false).
  { intros d Hle. apply Ascii.eqb_neq. intros ->. lia. }
  induction (Nat.to_uint n) as [| u IH | u IH | u IH | u IH | u IH
                                | u IH | u IH | u IH | u IH | u IH];
    [reflexivity | cbn [NilEmpty.string_of_uint occurs]; rewrite IH, Hd;
                   [reflexivity | cbn; lia] ..].
Qed.

(** X17.  The names [imageGenerator] gives a layer: the file name is what
    follows the last slash of the URL, or image<i> when nothing does, so it
    is never empty and holds no slash; the extension is what follows the
    last dot of the file name, so it is never empty and holds no dot.  A
    file name without a dot is taken whole as the extension; jpg is the
    extension only of a name that ends in a dot. *)
Theorem X17_image_item_names (i : nat) (url : string) (data : bytes) :
  exists fileName extension,
    imageItem i url data = ImageLayer data fileName extension
    /\ fileName <> EmptyString /\ occurs "/" fileName = false
    /\ extension <> EmptyString /\ occurs "." extension = false
    /\ (endsWith "/" url = true \/ url = EmptyString ->
        fileName = ("image" ++ decimal i)%string)
    /\ (occurs "." fileName = false -> extension = fileName)
    /\ (endsWith "." fileName = true -> extension = "jpg"%string).
Proof.
  unfold imageItem. cbv zeta.
  set (fileName := orElse (splitPop "/" url EmptyString) ("image" ++ decimal i)%string).
  exists fileName, (orElse (splitPop "." fileName EmptyString) "jpg"%string).
  assert (Hname : fileName <> EmptyString).
  { apply orElse_nonempty. discriminate. }
  split; [reflexivity |]. split; [exact Hname |]. split.
  { apply orElse_occurs; [now apply splitPop_no_sep |].
    cbn [append occurs Ascii.eqb Bool.eqb orb]. apply decimal_digits. cbn. lia. }
  split; [apply orElse_nonempty; discriminate |]. split.
  { apply orElse_occurs; [now apply splitPop_no_sep | reflexivity]. }
  split; [| split].
  - intros [Hslash | ->]; subst fileName.
    + now rewrite (splitPop_trailing "/" url EmptyString Hslash).
    + reflexivity.
  - intros Hdot. rewrite (splitPop_whole "." fileName EmptyString Hdot).
    cbn [append]. destruct fileName; [now contradiction Hname | reflexivity].
  - intros Hdot. now rewrite (splitPop_trailing "." fileName EmptyString Hdot).
Qed.

(** * The layers handed to the array encoder *)

(** Lower-casing keeps a character clear of the two cut marks, and does
    nothing the second time. *)
Lemma lowerAscii_kept (c : ascii) :
  Ascii.eqb c "#" || Ascii.eqb c "?" = false ->
  Ascii.eqb (lowerAscii c) "#" || Ascii.eqb (lowerAscii c) "?" = false
  /\ lowerAscii (lowerAscii c) = lowerAscii c.
Proof.
  intros Hc. destruct c as [[] [] [] [] [] [] [] []];
    try discriminate Hc; split; reflexivity.
Qed.

Lemma getFileExtension_twice (s : string) :
  getFileExtension (getFileExtension s) = getFileExtension s.
Proof.
  induction s as [| c rest IH]; [reflexivity |].
  cbn [getFileExtension].
  destruct (Ascii.eqb c "#" || Ascii.eqb c "?") eqn:Hc; [reflexivity |].
  cbn [getFileExtension]. rewrite IH.
  destruct (lowerAscii_kept c Hc) as [-> ->]. reflexivity.
Qed.

Lemma lowerAscii_ascii (c : ascii) :
  (nat_of_ascii c <? 128)%nat = true ->
  (nat_of_ascii (lowerAscii c) <? 128)%nat = true.
Proof.
  destruct c as [[] [] [] [] [] [] [] []]; intros H;
    first [discriminate H | reflexivity].
Qed.

(** X20.  For an extension of ASCII characters, on which the model's lower
    case is the code's [toLowerCase]: cleaning it twice is cleaning it
    once, so the encoder may clean what a caller has cleaned already; the
    cleaned extension holds neither [#] nor [?] and no upper-case letter,
    it is not longer than the input, and it is made of ASCII characters
    again. *)
Theorem X20_extension_cleaning (input : string) :
  asciiOnly input = true ->
  getFileExtension (getFileExtension input) = getFileExtension input
  /\ occurs "#" (getFileExtension input) = false
  /\ occurs "?" (getFileExtension input) = false
  /\ (forall c, occurs c (getFileExtension input) = true -> lowerAscii c = c)
  /\ (String.length (getFileExtension input) <= String.length input)%nat
  /\ asciiOnly (getFileExtension input) = true.
Proof.
  intros Hascii.
  split; [apply getFileExtension_twice |].
  induction input as [| c rest IH].
  - repeat split; try reflexivity. intros c H; discriminate H.
  - cbn [asciiOnly] in Hascii. apply andb_true_iff in Hascii.
    destruct Hascii as [Hc7 Hrest].
    destruct (IH Hrest) as [IH1 [IH2 [IH3 [IH4 IH5]]]].
    cbn [getFileExtension].
    destruct (Ascii.eqb c "#" || Ascii.eqb c "?") eqn:Hc.
    + repeat split; try reflexivity; [intros c' H; discriminate H | cbn; lia].
    + destruct (lowerAscii_kept c Hc) as [Hk Hl].
      apply orb_false_iff in Hk. destruct Hk as [Hk1 Hk2].
      cbn [occurs String.length asciiOnly]. rewrite Hk1, Hk2, IH1, IH2, IH5.
      rewrite (lowerAscii_ascii c Hc7).
      split; [reflexivity |]. split; [reflexivity |].
      split; [| split; [lia | reflexivity]].
      intros c' H. apply orb_true_iff in H. destruct H as [H | H].
      * apply Ascii.eqb_eq in H. now subst c'.
      * now apply IH3.
Qed.

Lemma X20_extension_cleaning_witness :
  getFileExtension (getFileExtension "JpG?v=2#top") = getFileExtension "JpG?v=2#top"
  /\ occurs "#" (getFileExtension "JpG?v=2#top") = false
  /\ occurs "?" (getFileExtension "JpG?v=2#top") = false
  /\ (forall c, occurs c (getFileExtension "JpG?v=2#top") = true -> lowerAscii c = c)
  /\ (String.length (getFileExtension "JpG?v=2#top") <= String.length "JpG?v=2#top")%nat
  /\ asciiOnly (getFileExtension "JpG?v=2#top") = true.
Proof.
  apply (X20_extension_cleaning "JpG?v=2#top"). reflexivity.
Defined.

(** The cleaned extension of that input. *)
Example extension_cleaned : getFileExtension "JpG?v=2#top" = "jpg"%string.
Proof. reflexivity. Qed.

Lemma normalizeSlice_ok (idx : nat) (l : SliceInput) :
  acceptableSlice l = true ->
  exists n name,
    normalizeSlice idx l = Ok n
    /\ sliceData n = sliceData l
    /\ sliceFileName n = Some name /\ name <> EmptyString
    /\ sliceExtension n = getFileExtension (sliceExtension l)
    /\ isHdrExtension (sliceExtension n) = false.
Proof.
  unfold acceptableSlice, normalizeSlice, isHdrExtension.
  destruct (sliceData l) as [data |]; [| discriminate].
  cbv zeta. intros H. apply negb_true_iff in H. rewrite H.
  eexists. eexists. split; [reflexivity |]. cbn [sliceData sliceFileName sliceExtension].
  split; [reflexivity |]. split; [reflexivity |]. split.
  - destruct (sliceFileName l) as [n |]; [| discriminate].
    apply orElse_nonempty. discriminate.
  - split; [reflexivity |].
    now rewrite getFileExtension_twice.
Qed.

Lemma normalizeSlice_rejects (idx : nat) (l : SliceInput) :
  acceptableSlice l = false ->
  normalizeSlice idx l
  = Throw (match sliceData l with
           | None => MissingLayerData idx
           | Some _ => HdrNotSupported
           end).
Proof.
  unfold acceptableSlice, normalizeSlice, isHdrExtension.
  destruct (sliceData l) as [data |]; [| reflexivity].
  cbv zeta. intros H. apply negb_false_iff in H. now rewrite H.
Qed.

Lemma normalizeFrom_ok (layers : list SliceInput) :
  forall idx,
    forallb acceptableSlice layers = true ->
    exists normalized,
      normalizeFrom idx layers = Ok normalized
      /\ map sliceData normalized = map sliceData layers
      /\ map sliceExtension normalized
         = map (fun l => getFileExtension (sliceExtension l)) layers
      /\ Forall (fun n => (exists name, sliceFileName n = Some name
                                        /\ name <> EmptyString)
                          /\ acceptableSlice n = true) normalized.
Proof.
  induction layers as [| l rest IH]; intros idx Hall.
  - exists []. repeat split; constructor.
  - cbn [forallb] in Hall. apply andb_true_iff in Hall. destruct Hall as [Hl Hrest].
    destruct (normalizeSlice_ok idx l Hl)
      as [n [name [Hn [Hdata [Hname [Hne [Hext Hhdr]]]]]]].
    destruct (IH (S idx) Hrest) as [ns [Hns [Hd [He Hf]]]].
    exists (n :: ns). cbn [normalizeFrom map]. rewrite Hn, Hns.
    split; [reflexivity |]. split; [now rewrite Hdata, Hd |].
    split; [now rewrite Hext, He |].
    constructor; [| exact Hf]. split; [now exists name |].
    unfold acceptableSlice. rewrite Hdata, Hhdr.
    unfold acceptableSlice in Hl. now destruct (sliceData l).
Qed.

Lemma normalizeFrom_first_rejected (layers : list SliceInput) :
  forall idx k l,
    nth_error layers k = Some l ->
    acceptableSlice l = false ->
    forallb acceptableSlice (firstn k layers) = true ->
    normalizeFrom idx layers
    = Throw (match sliceData l with
             | None => MissingLayerData (idx + k)
             | Some _ => HdrNotSupported
             end).
Proof.
  induction layers as [| l0 rest IH]; intros idx k l Hnth Hbad Hgood.
  - destruct k; discriminate Hnth.
  - destruct k as [| k].
    + injection Hnth as ->. cbn [normalizeFrom].
      rewrite (normalizeSlice_rejects idx l Hbad), Nat.add_0_r. reflexivity.
    + cbn [nth_error] in Hnth. cbn [firstn forallb] in Hgood.
      apply andb_true_iff in Hgood. destruct Hgood as [H0 Hgood].
      destruct (normalizeSlice_ok idx l0 H0) as [n [_ [Hn _]]].
      cbn [normalizeFrom]. rewrite Hn, (IH (S idx) k l Hnth Hbad Hgood).
      replace (S idx + k)%nat with (idx + S k)%nat by lia. reflexivity.
Qed.

(** The sizing answers for every input, with a size between 1 MiB and
    32 MiB. *)
Lemma arrayBufferSize_returns (meta : option (Z * Z)) (layerCount : Z)
    (mipmaps : bool) :
  exists size,
    calculateKTX2ArrayBufferSize meta layerCount mipmaps = Some size
    /\ 1024 * 1024 <= size <= 32 * 1024 * 1024.
Proof.
  unfold calculateKTX2ArrayBufferSize.
  destruct (match meta with
            | Some (w, h) => if (w =? 0) || (h =? 0) then (1024, 1024) else (w, h)
            | None => (1024, 1024)
            end) as [width height].
  assert (Hb : exists b, uastcBytesAcrossMips width height mipmaps = Some b).
  { unfold uastcBytesAcrossMips. cbv zeta.
    destruct mipmaps; [| eexists; reflexivity].
    destruct (mipChainLoop_returns width height
                (Js.ceilDiv4 width * Js.ceilDiv4 height * 16)) as [r [Hr _]].
    now exists r. }
  destruct Hb as [b ->]. cbv zeta.
  eexists. split; [reflexivity |]. lia.
Qed.

(** From 2^25 bytes of blocks on the answer is the largest size, however
    the product by 1.35 is rounded. *)
Lemma arrayBufferSize_large (meta : option (Z * Z)) (layerCount size : Z)
    (mipmaps : bool) (width height bytesPerLayer : Z) :
  meta = Some (width, height) -> width <> 0 -> height <> 0 ->
  uastcBytesAcrossMips width height mipmaps = Some bytesPerLayer ->
  2^25 <= bytesPerLayer * Z.max 1 layerCount ->
  calculateKTX2ArrayBufferSize meta layerCount mipmaps = Some (32 * 1024 * 1024).
Proof.
  intros -> Hw Hh Hb Hbig. unfold calculateKTX2ArrayBufferSize.
  replace ((width =? 0) || (height =? 0)) with false
    by (symmetry; apply orb_false_iff; split; apply Z.eqb_neq; assumption).
  rewrite Hb. cbv zeta. f_equal.
  set (n := bytesPerLayer * Z.max 1 layerCount) in *.
  assert (Hr : 2^25 * 2^52 <= Js.roundDouble52 (n * 6079859496950170)).
  { unfold Js.roundDouble52. cbv zeta.
    set (p := n * 6079859496950170).
    assert (Hp : 2^25 * 2^52 <= p) by (unfold p; lia).
    rewrite (Z.abs_eq p) by lia.
    destruct (Z.log2 p - 52 <=? 0) eqn:Hs; [exact Hp |].
    apply Z.leb_gt in Hs.
    set (sh := Z.log2 p - 52) in *.
    rewrite Z.sgn_pos by lia. rewrite Z.mul_1_l.
    rewrite !Z.shiftl_mul_pow2, Z.shiftr_div_pow2 by lia.
    assert (H2 : 0 < 2 ^ sh) by (apply Z.pow_pos_nonneg; lia).
    assert (Hlog : 2 ^ Z.log2 p <= p) by (apply Z.log2_spec; lia).
    assert (Hq : 2 ^ 52 <= p / 2 ^ sh).
    { apply Z.div_le_lower_bound; [lia |].
      rewrite <- Z.pow_add_r by lia.
      replace (sh + 52) with (Z.log2 p) by (unfold sh; lia). exact Hlog. }
    assert (Hm : p / 2 ^ sh * 2 ^ sh
                 <= (if p - p / 2 ^ sh * 2 ^ sh <? 2 ^ (sh - 1) then p / 2 ^ sh
                     else if 2 ^ (sh - 1) <? p - p / 2 ^ sh * 2 ^ sh
                          then p / 2 ^ sh + 1
                          else if Z.even (p / 2 ^ sh) then p / 2 ^ sh
                               else p / 2 ^ sh + 1) * 2 ^ sh).
    { apply Z.mul_le_mono_nonneg_r; [lia |].
      destruct (p - p / 2 ^ sh * 2 ^ sh <? 2 ^ (sh - 1)); [lia |].
      destruct (2 ^ (sh - 1) <? p - p / 2 ^ sh * 2 ^ sh); [lia |].
      destruct (Z.even (p / 2 ^ sh)); lia. }
    assert (Hlow : 2^25 * 2^52 <= p / 2 ^ sh * 2 ^ sh).
    { assert (Hsh : 25 <= sh).
      { unfold sh. assert (2 ^ 77 <= p) by (change (2^77) with (2^25 * 2^52); lia).
        assert (77 <= Z.log2 p) by (apply Z.log2_le_pow2; lia). lia. }
      assert (2 ^ 25 <= 2 ^ sh) by (apply Z.pow_le_mono_r; lia).
      nia. }
    lia. }
  unfold Js.ceilTimes135.
  assert (Hc : 2^25 <= - (- Js.roundDouble52 (n * 6079859496950170) / 2 ^ 52)).
  { assert (- Js.roundDouble52 (n * 6079859496950170) / 2 ^ 52 <= - 2^25); [| lia].
    apply Z.div_le_upper_bound; lia. }
  lia.
Qed.

(** The normalised layers stand one for one for the layers given. *)
Lemma normalizeFrom_sources (layers : list SliceInput) :
  forall idx normalized,
    normalizeFrom idx layers = Ok normalized ->
    map sliceSource normalized
    = map (fun l => (dataOf l, imageTypeOf (getFileExtension (sliceExtension l))))
        layers
    /\ length normalized = length layers
    /\ forall first, nth_error layers 0 = Some first ->
         exists n, nth_error normalized 0 = Some n
                   /\ dataOf n = dataOf first
                   /\ sliceExtension n = getFileExtension (sliceExtension first).
Proof.
  induction layers as [| l rest IH]; intros idx normalized H.
  - injection H as <-. repeat split. intros first Hf. discriminate Hf.
  - cbn [normalizeFrom] in H.
    destruct (normalizeSlice idx l) as [n | e] eqn:Hn; [| discriminate H].
    destruct (normalizeFrom (S idx) rest) as [ns | e] eqn:Hns; [| discriminate H].
    injection H as <-.
    destruct (IH (S idx) ns Hns) as [Hsrc [Hlen _]].
    assert (Hshape : dataOf n = dataOf l
                     /\ sliceExtension n = getFileExtension (sliceExtension l)).
    { unfold normalizeSlice in Hn. unfold dataOf.
      destruct (sliceData l) as [data |]; [| discriminate Hn].
      cbv zeta in Hn.
      destruct (String.eqb (getFileExtension (sliceExtension l)) "exr"
                || String.eqb (getFileExtension (sliceExtension l)) "hdr");
        [discriminate Hn |].
      injection Hn as <-. split; reflexivity. }
    destruct Hshape as [Hd He].
    split; [| split].
    + cbn [map]. rewrite Hsrc. unfold sliceSource at 1. now rewrite Hd, He.
    + cbn [length]. now rewrite Hlen.
    + intros first Hf. injection Hf as <-. exists n. now repeat split.
Qed.

Section ArrayEncoder.

Variable sniffImageSize : bytes -> string -> option (Z * Z).
Variable mipmaps : bool.

(** X18.  For layers that all have data and none an HDR extension, the
    extensions being ASCII.  Without the Basis module no encoder runs and
    the error says that the module is not loaded; neither does one run
    when [initializeBasis] throws.  Otherwise the output buffer is sized
    from the first layer's data and cleaned extension and from the number
    of layers, between 1 MiB and 32 MiB, and the encoder runs once, on one
    slice per layer in the order given: the slice is the layer's data with
    the JPG image type when the cleaned extension is jpg, jpeg or jfif and
    with the PNG type otherwise.  What the encoder wrote is the result,
    unless it wrote nothing, which is an error, or more than the buffer
    holds. *)
Theorem X18_encoder_input (layers : list SliceInput) (first : SliceInput) :
  nth_error layers 0 = Some first ->
  forallb acceptableSlice layers = true ->
  forallb (fun l => asciiOnly (sliceExtension l)) layers = true ->
  encodeImagesToKtxArray None sniffImageSize mipmaps layers
    = ([], Throw (External "BASIS module not loaded"))
  /\ (forall (Module : BasisModule) (e : JsError),
        initializeBasis Module = Throw e ->
        encodeImagesToKtxArray (Some Module) sniffImageSize mipmaps layers
          = ([], Throw e))
  /\ exists bufferSize,
       calculateKTX2ArrayBufferSize
         (sniffImageSize (dataOf first) (getFileExtension (sliceExtension first)))
         (Z.of_nat (length layers)) mipmaps = Some bufferSize
       /\ 1024 * 1024 <= bufferSize <= 32 * 1024 * 1024
       /\ forall Module : BasisModule,
            initializeBasis Module = Ok tt ->
            let slices :=
              map (fun l => (dataOf l,
                             imageTypeOf (getFileExtension (sliceExtension l))))
                layers in
            encodeImagesToKtxArray (Some Module) sniffImageSize mipmaps layers
            = ([EvEncode 0],
               match basisEncode Module slices bufferSize with
               | Throw e => Throw e
               | Ok written =>
                   if bufferSize <? byteLength written then Throw RangeError
                   else if byteLength written =? 0
                   then Throw (External "encodeBasisTexture(array) failed! Output buffer may be too small or inputs mismatched.")
                   else Ok written
               end).
Proof.
  intros Hfirst Hall _.
  destruct (normalizeFrom_ok layers 0 Hall) as [normalized [Hn _]].
  destruct (normalizeFrom_sources layers 0 normalized Hn) as [Hsrc [Hlen Hhead]].
  destruct (Hhead first Hfirst) as [n [Hn0 [Hd He]]].
  destruct (arrayBufferSize_returns
              (sniffImageSize (dataOf first) (getFileExtension (sliceExtension first)))
              (Z.of_nat (length layers)) mipmaps) as [bufferSize [Hsize Hrange]].
  destruct layers as [| l rest]; [discriminate Hfirst |].
  split; [| split].
  - unfold encodeImagesToKtxArray. rewrite Hn. reflexivity.
  - intros Module e Hinit. unfold encodeImagesToKtxArray. rewrite Hn.
    cbn [lift bind ret emit throw fst snd app]. rewrite Hinit. reflexivity.
  - exists bufferSize. split; [exact Hsize |]. split; [exact Hrange |].
    intros Module Hinit slices. unfold encodeImagesToKtxArray. rewrite Hn.
    change (lift (Ok normalized)) with (ret normalized). rewrite bind_ret_l.
    rewrite Hinit. change (lift (Ok tt)) with (ret tt). rewrite bind_ret_l.
    rewrite Hn0. cbn [deref]. rewrite bind_ret_l.
    rewrite Hd, He, Hlen, Hsize, Hsrc. fold slices.
    destruct (basisEncode Module slices bufferSize) as [written | e];
      [| reflexivity].
    cbn [lift bind ret emit throw fst snd app].
    destruct (bufferSize <? byteLength written); [reflexivity |].
    destruct (byteLength written =? 0); reflexivity.
Qed.

(** X19.  The first layer without data or with an HDR extension decides the
    outcome: the Basis encoder is not called, and the error names that
    layer's index when its data is missing, also when its extension is an
    HDR one as well. *)
Theorem X19_first_rejected_layer (getBasisModule : option BasisModule)
    (layers : list SliceInput) (k : nat) (l : SliceInput) :
  nth_error layers k = Some l ->
  acceptableSlice l = false ->
  forallb acceptableSlice (firstn k layers) = true ->
  encodeImagesToKtxArray getBasisModule sniffImageSize mipmaps layers
  = ([], Throw (match sliceData l with
                | None => MissingLayerData k
                | Some _ => HdrNotSupported
                end)).
Proof.
  intros Hnth Hbad Hgood.
  pose proof (normalizeFrom_first_rejected layers 0 k l Hnth Hbad Hgood) as Hn.
  destruct layers as [| l0 rest]; [destruct k; discriminate Hnth |].
  unfold encodeImagesToKtxArray. rewrite Hn. reflexivity.
Qed.

End ArrayEncoder.

Lemma X18_encoder_input_witness :
  encodeImagesToKtxArray None sampleSniff true sampleSlices
    = ([], Throw (External "BASIS module not loaded"))
  /\ (forall (Module : BasisModule) (e : JsError),
        initializeBasis Module = Throw e ->
        encodeImagesToKtxArray (Some Module) sampleSniff true sampleSlices
          = ([], Throw e))
  /\ exists bufferSize,
       calculateKTX2ArrayBufferSize
         (sampleSniff (dataOf (nth 0 sampleSlices emptySlice))
            (getFileExtension (sliceExtension (nth 0 sampleSlices emptySlice))))
         (Z.of_nat (length sampleSlices)) true = Some bufferSize
       /\ 1024 * 1024 <= bufferSize <= 32 * 1024 * 1024
       /\ forall Module : BasisModule,
            initializeBasis Module = Ok tt ->
            let slices :=
              map (fun l => (dataOf l,
                             imageTypeOf (getFileExtension (sliceExtension l))))
                sampleSlices in
            encodeImagesToKtxArray (Some Module) sampleSniff true sampleSlices
            = ([EvEncode 0],
               match basisEncode Module slices bufferSize with
               | Throw e => Throw e
               | Ok written =>
                   if bufferSize <? byteLength written then Throw RangeError
                   else if byteLength written =? 0
                   then Throw (External "encodeBasisTexture(array) failed! Output buffer may be too small or inputs mismatched.")
                   else Ok written
               end).
Proof.
  apply (X18_encoder_input sampleSniff true sampleSlices
           (nth 0 sampleSlices emptySlice)); reflexivity.
Defined.

Lemma X19_first_rejected_layer_witness :
  encodeImagesToKtxArray (Some sampleModule) sampleSniff true hdrSlices
  = ([], Throw HdrNotSupported).
Proof.
  apply (X19_first_rejected_layer sampleSniff true (Some sampleModule) hdrSlices 1
           {| sliceData := Some [x02]; sliceFileName := None;
              sliceExtension := "EXR#1"%string |});
    reflexivity.
Defined.

(** The run on [sampleSlices]: a 1 MiB buffer for three layers of two by
    two pixels, and the slices with their image types. *)
Example sample_slices_run :
  calculateKTX2ArrayBufferSize (sampleSniff [x01] "png") 3 true = Some (1024 * 1024)
  /\ encodeImagesToKtxArray (Some sampleModule) sampleSniff true sampleSlices
     = ([EvEncode 0], Ok [x01; x02; x03])
  /\ map sliceSource
       [ {| sliceData := Some [x01]; sliceFileName := Some "a.PNG"%string;
            sliceExtension := "png"%string |};
         {| sliceData := Some [x02]; sliceFileName := Some "layer_1"%string;
            sliceExtension := "jpg"%string |};
         {| sliceData := Some [x03]; sliceFileName := Some "layer_2"%string;
            sliceExtension := "png"%string |} ]
     = [([x01], cPNGImage); ([x02], cJPGImage); ([x03], cPNGImage)].
Proof. repeat split; reflexivity. Qed.

(** An encoder that writes nothing, and one that is not there. *)
Example sample_slices_failures :
  encodeImagesToKtxArray (Some silentModule) sampleSniff true sampleSlices
    = ([EvEncode 0],
       Throw (External "encodeBasisTexture(array) failed! Output buffer may be too small or inputs mismatched."))
  /\ encodeImagesToKtxArray None sampleSniff true sampleSlices
     = ([], Throw (External "BASIS module not loaded")).
Proof. split; reflexivity. Qed.

(** [Math.ceil(n * 1.35)] is not the ceiling of 27 n / 20: the double
    product of 720 by 1.35 lies above 972. *)
Example ceilTimes135_values :
  Js.ceilTimes135 0 = 0
  /\ Js.ceilTimes135 20 = 27
  /\ Js.ceilTimes135 720 = 973
  /\ Js.ceilTimes135 1000000 = 1350000
  /\ Js.ceilTimes135 24855000 = 33554251.
Proof. repeat split; reflexivity. Qed.

(** The normalised layers of [sampleSlices]. *)
Example sample_slices_normalized :
  normalizeFrom 0 sampleSlices
  = Ok [ {| sliceData := Some [x01]; sliceFileName := Some "a.PNG"%string;
            sliceExtension := "png"%string |};
         {| sliceData := Some [x02]; sliceFileName := Some "layer_1"%string;
            sliceExtension := "jpg"%string |};
         {| sliceData := Some [x03]; sliceFileName := Some "layer_2"%string;
            sliceExtension := "png"%string |} ].
Proof. reflexivity. Qed.

(** * [ImagesToKtxSequential] against [KTX2Assembler] *)

Lemma pair_eta {A} (m : M A) : m = (events m, outcome m).
Proof. now destruct m. Qed.

Lemma bind_assoc {A B C} (m : M A) (f : A -> M B) (g : B -> M C) :
  bind (bind m f) g = bind m (fun a => bind (f a) g).
Proof.
  destruct m as [t [a | e]]; [| reflexivity].
  cbn. destruct (f a) as [t' [b | e]]; [| reflexivity].
  cbn. destruct (g b) as [t'' r]. now rewrite app_assoc.
Qed.

(** Two computations that agree so far and go on alike end alike. *)
Lemma bind_agree {S S' A} (P : JsError -> JsError -> Prop)
    (m : M S) (m' : M S') (k : S -> M A) (k' : S' -> M A) :
  (forall e, P e e) ->
  events m = events m' ->
  match outcome m, outcome m' with
  | Ok s, Ok s' => k s = k' s'
  | Throw e, Throw e' => P e e'
  | _, _ => False
  end ->
  events (bind m k) = events (bind m' k')
  /\ endAlike P (outcome (bind m k)) (outcome (bind m' k')).
Proof.
  intros Hrefl Hev Hout.
  rewrite !events_bind, !outcome_bind, <- Hev.
  destruct (outcome m) as [s | e], (outcome m') as [s' | e']; try contradiction.
  - rewrite Hout. split; [reflexivity |].
    unfold endAlike. destruct (outcome (k' s')); [reflexivity | apply Hrefl].
  - split; [reflexivity | exact Hout].
Qed.

Lemma bind_ret_r {A} (m : M A) : bind m (fun a => ret a) = m.
Proof.
  destruct m as [t [a | e]]; [| reflexivity].
  cbn. now rewrite app_nil_r.
Qed.

(** Two computations that end alike and go on with the same step end
    alike. *)
Lemma endAlike_bind {S A} (P : JsError -> JsError -> Prop)
    (m m' : M S) (k : S -> M A) :
  (forall e, P e e) ->
  events m = events m' ->
  endAlike P (outcome m) (outcome m') ->
  events (bind m k) = events (bind m' k)
  /\ endAlike P (outcome (bind m k)) (outcome (bind m' k)).
Proof.
  intros Hrefl Hev Hout. apply bind_agree; [exact Hrefl | exact Hev |].
  unfold endAlike in Hout.
  destruct (outcome m), (outcome m'); try exact Hout. now rewrite Hout.
Qed.

(** The three checks of [ImagesToKtxSequential.encode] are those of
    [_validateLayerConsistency]. *)
Lemma checkLayer_validate (c : Container.t) (locals : Sequential.Locals)
    (encodedLayers : list Layer.t) (first : Layer.t) (idx : nat) :
  nth_error encodedLayers 0 = Some first ->
  Sequential.checkLayer c locals encodedLayers idx
  = lift (_validateLayerConsistency c
            (paramsOf locals (length (Layer.levels first))) idx).
Proof.
  intros Hfirst.
  unfold Sequential.checkLayer, _validateLayerConsistency, paramsOf.
  cbn [baseFormat baseWidth baseHeight firstLayerMipCount].
  destruct (negb (Sequential.baseFormat locals =? 0)
            && negb (Container.vkFormat c =? 0)
            && negb (Container.vkFormat c =? Sequential.baseFormat locals));
    [reflexivity |].
  destruct (negb (Container.pixelWidth c =? Sequential.baseWidth locals)
            || negb (Container.pixelHeight c =? Sequential.baseHeight locals));
    [reflexivity |].
  rewrite Hfirst. cbn [deref]. rewrite bind_ret_l.
  now destruct (negb (length (Container.levels c) =? length (Layer.levels first))%nat).
Qed.

(** The three checks of [encodeFromVideoGenerator] are those of
    [_validateLayerConsistency], reworded. *)
Lemma checkFrame_validate (c : Container.t) (locals : Sequential.Locals)
    (encodedLayers : list Layer.t) (first : Layer.t) (idx : nat) :
  nth_error encodedLayers 0 = Some first ->
  Sequential.checkFrame c locals encodedLayers idx
  = ([], match _validateLayerConsistency c
                 (paramsOf locals (length (Layer.levels first))) idx with
         | Ok u => Ok u
         | Throw e => Throw (frameWording e)
         end).
Proof.
  intros Hfirst.
  unfold Sequential.checkFrame, _validateLayerConsistency, paramsOf.
  cbn [baseFormat baseWidth baseHeight firstLayerMipCount].
  destruct (negb (Sequential.baseFormat locals =? 0)
            && negb (Container.vkFormat c =? 0)
            && negb (Container.vkFormat c =? Sequential.baseFormat locals));
    [reflexivity |].
  destruct (negb (Container.pixelWidth c =? Sequential.baseWidth locals)
            || negb (Container.pixelHeight c =? Sequential.baseHeight locals));
    [reflexivity |].
  rewrite Hfirst. cbn [deref]. rewrite bind_ret_l.
  now destruct (negb (length (Container.levels c) =? length (Layer.levels first))%nat).
Qed.

(** The loop body of the sequential assembly is [assembleLevel]. *)
Lemma assembleLevel_agrees (encodedLayers : list Layer.t)
    (locals : Sequential.Locals) (mipCount mipLevel : nat) :
  Sequential.assembleLevel encodedLayers locals
    (Z.of_nat (length encodedLayers)) mipLevel
  = assembleLevel encodedLayers (paramsOf locals mipCount) mipLevel.
Proof. reflexivity. Qed.

(** What follows the loop is [_assembleMipLevels] and
    [_createArrayContainer]. *)
Lemma assembleContainer_agrees (locals : Sequential.Locals)
    (encodedLayers : list Layer.t) (first : Layer.t) (idx : nat) :
  nth_error encodedLayers 0 = Some first ->
  let bp := paramsOf locals (length (Layer.levels first)) in
  Sequential.assembleContainer (Sequential.Running locals encodedLayers idx)
  = (combinedLevels <- _assembleMipLevels encodedLayers (Some bp) ;;
     bp <- deref (Some bp) ;;
     ret (_createArrayContainer encodedLayers bp combinedLevels)).
Proof.
  intros Hfirst bp.
  unfold Sequential.assembleContainer, _assembleMipLevels.
  cbn [deref]. rewrite !bind_ret_l.
  rewrite Hfirst. cbn [deref]. rewrite !bind_ret_l.
  rewrite (mapM_ext _ (assembleLevel encodedLayers bp) _
             (fun m => assembleLevel_agrees encodedLayers locals
                         (length (Layer.levels first)) m)).
  pose proof (mapM_length (assembleLevel encodedLayers bp)
                (seq 0 (length (Layer.levels first)))) as Hlen.
  destruct (mapM (assembleLevel encodedLayers bp)
              (seq 0 (length (Layer.levels first))))
    as [t [combined | e]]; [| reflexivity].
  specialize (Hlen combined eq_refl). rewrite length_seq in Hlen.
  cbn. unfold _createArrayContainer. rewrite Hlen. reflexivity.
Qed.

(** The parameters read off the first container are the locals set from
    it. *)
Lemma paramsOf_first (c : Container.t) :
  paramsOf (Sequential.setLocals c) (length (Layer.levels (layerOfContainer c)))
  = _extractBaseParams c.
Proof.
  unfold paramsOf, _extractBaseParams, layerOfContainer.
  cbn. now rewrite length_map.
Qed.

(** A state of a sequential loop and the state of the assembler's loop
    that go on alike. *)
Lemma states_go_on_alike {A} (k : Container.t -> M A)
    (state : Sequential.LoopState) (layers : list Layer.t)
    (bp : option BaseParams) :
  match state with
  | Sequential.Start => layers = [] /\ bp = None
  | Sequential.Running locals layers' _ =>
      exists first,
        nth_error layers 0 = Some first /\ layers' = layers
        /\ bp = Some (paramsOf locals (length (Layer.levels first)))
  end ->
  (arrayContainer <- Sequential.assembleContainer state ;; k arrayContainer)
  = (arrayContainer <-
       (combinedLevels <- _assembleMipLevels layers bp ;;
        bp <- deref bp ;;
        ret (_createArrayContainer layers bp combinedLevels)) ;;
     k arrayContainer).
Proof.
  destruct state as [| locals layers' i].
  - intros [-> ->]. reflexivity.
  - intros [first [Hfirst [-> ->]]].
    now rewrite (assembleContainer_agrees locals layers first i Hfirst).
Qed.

Section SequentialAgrees.

Variable fetch : string -> result bytes.
Variable imageToKtx : bytes -> string -> string -> result bytes.
Variable fromImageFile : bytes -> string -> result bytes.
Variable fromRGBA : bytes -> Z -> Z -> result bytes.
Variable read : bytes -> result Container.t.
Variable write : Container.t -> result bytes.

(** The two single-image encoders accept the same inputs, and give the same
    bytes for them. *)
Hypothesis encoders_alike :
  forall data fileName extension,
    alike (imageToKtx data fileName extension) (fromImageFile data extension).

Local Abbreviation seqLoop := (Sequential.encodeLoop imageToKtx read).
Local Abbreviation asmLoop := (encodeLoop fromImageFile fromRGBA read).
Local Abbreviation failAlike :=
  (fun e e' : JsError => e = e' \/ imageEncodersFail imageToKtx fromImageFile e e').

Lemma seqLoop_fetch (url : string) (next : Gen) (state : Sequential.LoopState) :
  seqLoop (GFetch url next) state
  = (EvFetch url :: events (seqLoop next state), outcome (seqLoop next state)).
Proof. cbn [Sequential.encodeLoop]. apply bind_emit. Qed.

(** One iteration of the sequential loop on an image file. *)
Lemma seqLoop_image (data : bytes) (fileName extension : string) (next : Gen)
    (state : Sequential.LoopState) :
  seqLoop (GYield (ImageLayer data fileName extension) next) state
  = match state with
    | Sequential.Start =>
        match imageToKtx data fileName extension with
        | Throw e => ([EvEncode 0], Throw e)
        | Ok ktx2Buffer =>
            match read ktx2Buffer with
            | Throw e => ([EvEncode 0], Throw e)
            | Ok c =>
                let run := seqLoop next
                             (Sequential.Running (Sequential.setLocals c)
                                [layerOfContainer c] 1) in
                (EvEncode 0 :: events run, outcome run)
            end
        end
    | Sequential.Running locals encodedLayers idx =>
        match imageToKtx data fileName extension with
        | Throw e => ([EvEncode idx], Throw e)
        | Ok ktx2Buffer =>
            match read ktx2Buffer with
            | Throw e => ([EvEncode idx], Throw e)
            | Ok c =>
                match Sequential.checkLayer c locals encodedLayers idx with
                | (_, Throw e) => ([EvEncode idx], Throw e)
                | (_, Ok _) =>
                    let run := seqLoop next
                                 (Sequential.Running locals
                                    (encodedLayers ++ [layerOfContainer c])
                                    (S idx)) in
                    (EvEncode idx :: events run, outcome run)
                end
            end
        end
    end.
Proof.
  cbn [Sequential.encodeLoop]. cbv zeta. unfold Sequential.encodeLayer.
  destruct state as [| locals encodedLayers idx]; rewrite bind_assoc, bind_emit;
    (destruct (imageToKtx data fileName extension) as [b | e]; [| reflexivity]);
    change (lift (Ok b)) with (ret b); rewrite bind_ret_l;
    (destruct (read b) as [c | e]; [| reflexivity]);
    change (lift (Ok c)) with (ret c); rewrite bind_ret_l.
  - rewrite bind_ret_l. reflexivity.
  - assert (Hpure : events (Sequential.checkLayer c locals encodedLayers idx) = []).
    { unfold Sequential.checkLayer.
      repeat match goal with
             | |- context [if ?b then _ else _] => destruct b
             end; try reflexivity.
      destruct (nth_error encodedLayers 0); cbn; [| reflexivity].
      now destruct (negb _). }
    rewrite (pair_eta (Sequential.checkLayer c locals encodedLayers idx)), Hpure.
    destruct (outcome (Sequential.checkLayer c locals encodedLayers idx)) as [[] | e].
    + change ([], @Ok unit tt) with (ret tt). rewrite !bind_ret_l. reflexivity.
    + reflexivity.
Qed.

Lemma loops_agree_running (g : Gen) :
  imagesOnly g = true ->
  forall locals encodedLayers first idx,
    nth_error encodedLayers 0 = Some first ->
    let bp := paramsOf locals (length (Layer.levels first)) in
    let sequential := seqLoop g (Sequential.Running locals encodedLayers (S idx)) in
    let assembler := asmLoop g encodedLayers (Some bp) (S idx) in
    events sequential = events assembler
    /\ match outcome sequential, outcome assembler with
       | Ok (Sequential.Running locals' layers' _), Ok (layers, bp') =>
           locals' = locals /\ layers' = layers /\ bp' = Some bp
           /\ nth_error layers 0 = Some first
       | Throw e, Throw e' => failAlike e e'
       | _, _ => False
       end.
Proof.
  induction g as [| e | url next IH | layer next IH];
    intros Himg locals encodedLayers first idx Hfirst bp sequential assembler;
    subst sequential assembler.
  - cbn. auto.
  - cbn. auto.
  - rewrite seqLoop_fetch, encodeLoop_fetch. cbn [events outcome fst snd].
    destruct (IH Himg locals encodedLayers first idx Hfirst) as [Hev Hout].
    fold bp in Hev, Hout. split; [now rewrite Hev | exact Hout].
  - destruct layer as [data fileName extension | rgba width height fileName];
      [| discriminate Himg].
    cbn [imagesOnly] in Himg. rewrite seqLoop_image.
    pose proof (encoders_alike data fileName extension) as Halike.
    destruct (imageToKtx data fileName extension) as [b | e] eqn:Hseq;
      destruct (fromImageFile data extension) as [b' | e'] eqn:Hasm;
      cbn in Halike; try contradiction.
    + subst b'.
      assert (Hparse : parseLayer fromImageFile fromRGBA read
                         (ImageLayer data fileName extension) = read b).
      { unfold parseLayer. now rewrite Hasm. }
      destruct (read b) as [c | e] eqn:Hread.
      * rewrite (encodeLoop_yield_later fromImageFile fromRGBA read _ next
                   encodedLayers bp idx c Hparse).
        rewrite (checkLayer_validate c locals encodedLayers first (S idx) Hfirst).
        fold bp. unfold lift.
        destruct (_validateLayerConsistency c bp (S idx)) as [[] | e].
        -- cbn [events outcome fst snd].
           assert (Hfirst' : nth_error (encodedLayers ++ [layerOfContainer c]) 0
                             = Some first).
           { destruct encodedLayers; [discriminate Hfirst | exact Hfirst]. }
           destruct (IH Himg locals (encodedLayers ++ [layerOfContainer c]) first
                       (S idx) Hfirst') as [Hev Hout].
           fold bp in Hev, Hout. split; [now rewrite Hev | exact Hout].
        -- cbn. auto.
      * rewrite (encodeLoop_yield_throw fromImageFile fromRGBA read _ next
                   encodedLayers (Some bp) (S idx) e Hparse).
        cbn. auto.
    + assert (Hparse : parseLayer fromImageFile fromRGBA read
                         (ImageLayer data fileName extension) = Throw e').
      { unfold parseLayer. now rewrite Hasm. }
      rewrite (encodeLoop_yield_throw fromImageFile fromRGBA read _ next
                 encodedLayers (Some bp) (S idx) e' Hparse).
      cbn. split; [reflexivity |]. right. now exists data, fileName, extension.
Qed.

Lemma loops_agree (g : Gen) :
  imagesOnly g = true ->
  events (seqLoop g Sequential.Start) = events (asmLoop g [] None 0)
  /\ match outcome (seqLoop g Sequential.Start), outcome (asmLoop g [] None 0) with
     | Ok Sequential.Start, Ok (layers, bp) => layers = [] /\ bp = None
     | Ok (Sequential.Running locals layers' _), Ok (layers, bp) =>
         exists first,
           nth_error layers 0 = Some first /\ layers' = layers
           /\ bp = Some (paramsOf locals (length (Layer.levels first)))
     | Throw e, Throw e' => failAlike e e'
     | _, _ => False
     end.
Proof.
  induction g as [| e | url next IH | layer next IH]; intros Himg.
  - cbn. auto.
  - cbn. auto.
  - rewrite seqLoop_fetch, encodeLoop_fetch. cbn [events outcome fst snd].
    destruct (IH Himg) as [Hev Hout]. split; [now rewrite Hev | exact Hout].
  - clear IH.
    destruct layer as [data fileName extension | rgba width height fileName];
      [| discriminate Himg].
    cbn [imagesOnly] in Himg. rewrite seqLoop_image.
    pose proof (encoders_alike data fileName extension) as Halike.
    destruct (imageToKtx data fileName extension) as [b | e] eqn:Hseq;
      destruct (fromImageFile data extension) as [b' | e'] eqn:Hasm;
      cbn in Halike; try contradiction.
    + subst b'.
      assert (Hparse : parseLayer fromImageFile fromRGBA read
                         (ImageLayer data fileName extension) = read b).
      { unfold parseLayer. now rewrite Hasm. }
      destruct (read b) as [c | e] eqn:Hread.
      * rewrite (encodeLoop_yield_first fromImageFile fromRGBA read _ next
                   [] None c Hparse).
        cbn [events outcome fst snd app].
        destruct (loops_agree_running next Himg (Sequential.setLocals c)
                    [layerOfContainer c] (layerOfContainer c) 0 eq_refl)
          as [Hev Hout].
        cbv zeta in Hev, Hout. rewrite paramsOf_first in Hev, Hout.
        split; [now rewrite Hev |].
        revert Hout.
        destruct (outcome (seqLoop next (Sequential.Running (Sequential.setLocals c)
                                           [layerOfContainer c] 1)))
          as [[| locals' layers' i] | e];
          destruct (outcome (asmLoop next [layerOfContainer c]
                               (Some (_extractBaseParams c)) 1))
          as [[layers bp'] | e']; intros Hout; try contradiction; try exact Hout.
        destruct Hout as [-> [-> [-> Hfirst]]].
        exists (layerOfContainer c). now rewrite paramsOf_first.
      * rewrite (encodeLoop_yield_throw fromImageFile fromRGBA read _ next
                   [] None 0 e Hparse).
        cbn. auto.
    + assert (Hparse : parseLayer fromImageFile fromRGBA read
                         (ImageLayer data fileName extension) = Throw e').
      { unfold parseLayer. now rewrite Hasm. }
      rewrite (encodeLoop_yield_throw fromImageFile fromRGBA read _ next
                 [] None 0 e' Hparse).
      cbn. split; [reflexivity |]. right. now exists data, fileName, extension.
Qed.

Lemma containers_alike (g : Gen) :
  imagesOnly g = true ->
  events (Sequential.encodeContainer imageToKtx read g)
  = events (encodeContainer fromImageFile fromRGBA read g)
  /\ endAlike failAlike
       (outcome (Sequential.encodeContainer imageToKtx read g))
       (outcome (encodeContainer fromImageFile fromRGBA read g)).
Proof.
  intros Himg. destruct (loops_agree g Himg) as [Hev Hout].
  unfold Sequential.encodeContainer, encodeContainer.
  rewrite <- (bind_ret_r (state <- seqLoop g Sequential.Start ;; _)).
  rewrite <- (bind_ret_r (x <- asmLoop g [] None 0 ;; _)).
  rewrite !bind_assoc.
  apply bind_agree; [now left | exact Hev |].
  revert Hout.
  destruct (outcome (seqLoop g Sequential.Start)) as [state | e];
    destruct (outcome (asmLoop g [] None 0)) as [[layers bp] | e'];
    intros Hout; try exact Hout.
  - cbv beta iota. now apply states_go_on_alike.
  - now destruct state.
Qed.

(** X21.  On a source of image files, and with single-image encoders that
    accept the same inputs and give the same bytes for them,
    [ImagesToKtxSequential.encode] and [KTX2Assembler.encode] do the same:
    the same requests, encoder calls, allocations and copies in the same
    order, and the same file or the same error; only where both encoders
    refuse a layer may the two errors differ, each being its encoder's. *)
Theorem X21_sequential_encode_agrees (g : Gen) :
  imagesOnly g = true ->
  events (Sequential.encode imageToKtx read write g)
  = events (encode fromImageFile fromRGBA read write g)
  /\ endAlike failAlike
       (outcome (Sequential.encode imageToKtx read write g))
       (outcome (encode fromImageFile fromRGBA read write g)).
Proof.
  intros Himg. destruct (containers_alike g Himg) as [Hev Hout].
  unfold Sequential.encode, encode.
  apply endAlike_bind; [now left | exact Hev | exact Hout].
Qed.

Lemma imageGeneratorFrom_imagesOnly (rest : list string) :
  forall i url next, imagesOnly (imageGeneratorFrom fetch i url rest next) = true.
Proof.
  induction rest as [| url' rest' IH]; intros i url [data | e]; try reflexivity.
  cbn [imageGeneratorFrom imagesOnly imageItem]. apply IH.
Qed.

(** X22.  Under the same condition on the encoders,
    [ImagesToKtxSequential.encodeFromUrls] and [KTX2Assembler.fromImageUrls]
    agree in the same way on every non-empty array of URLs; the empty array
    is refused by both before any request, each under its own class name. *)
Theorem X22_encode_from_urls_agrees (urls : list string) :
  (urls <> [] ->
   events (Sequential.encodeFromUrls fetch imageToKtx read write urls)
   = events (fromImageUrls fetch fromImageFile fromRGBA read write urls)
   /\ endAlike failAlike
        (outcome (Sequential.encodeFromUrls fetch imageToKtx read write urls))
        (outcome (fromImageUrls fetch fromImageFile fromRGBA read write urls)))
  /\ Sequential.encodeFromUrls fetch imageToKtx read write []
     = ([], Throw (External "ImagesToKtxSequential: No URLs provided"))
  /\ fromImageUrls fetch fromImageFile fromRGBA read write []
     = ([], Throw NoUrlsProvided).
Proof.
  split; [| split; reflexivity].
  intros Hne. destruct urls as [| url rest]; [now contradiction Hne |].
  assert (Himg : imagesOnly (imageGenerator fetch url rest) = true).
  { unfold imageGenerator. cbn [imagesOnly]. apply imageGeneratorFrom_imagesOnly. }
  destruct (containers_alike _ Himg) as [Hev Hout].
  unfold Sequential.encodeFromUrls, fromImageUrls, Sequential.encode, encode.
  apply endAlike_bind; [now left | exact Hev | exact Hout].
Qed.

(** A loop that ends normally has met image files only. *)
Lemma seqLoop_ok_images (g : Gen) :
  forall state state',
    outcome (seqLoop g state) = Ok state' -> imagesOnly g = true.
Proof.
  induction g as [| e | url next IH | layer next IH]; intros state state' H.
  - reflexivity.
  - reflexivity.
  - rewrite seqLoop_fetch in H. cbn [outcome snd] in H.
    cbn [imagesOnly]. exact (IH _ _ H).
  - destruct layer as [data fileName extension | rgba width height fileName].
    + cbn [imagesOnly]. cbn [Sequential.encodeLoop] in H. cbv zeta in H.
      rewrite outcome_bind in H.
      destruct (outcome (Sequential.encodeLayer imageToKtx _ _)) as [b |];
        [| discriminate H].
      rewrite outcome_bind in H.
      destruct (outcome (lift (read b))) as [c |]; [| discriminate H].
      rewrite outcome_bind in H.
      match type of H with
      | match ?r with _ => _ end = _ => destruct r as [st |]; [| discriminate H]
      end.
      exact (IH _ _ H).
    + cbn [Sequential.encodeLoop] in H. cbv zeta in H.
      rewrite outcome_bind in H. unfold Sequential.encodeLayer in H.
      rewrite bind_emit in H. cbn in H. discriminate H.
Qed.

(** X23.  [ImagesToKtxSequential.encode] never writes a file from a source
    that yields a video frame: a frame has no [data], so the encoder call
    made for it fails. *)
Theorem X23_sequential_needs_images (g : Gen) (file : bytes) :
  outcome (Sequential.encode imageToKtx read write g) = Ok file ->
  imagesOnly g = true.
Proof.
  unfold Sequential.encode, Sequential.encodeContainer.
  rewrite !outcome_bind. intros H.
  destruct (outcome (seqLoop g Sequential.Start)) as [state |] eqn:Hloop;
    [| discriminate H].
  exact (seqLoop_ok_images g _ _ Hloop).
Qed.

End SequentialAgrees.

Lemma X21_sequential_encode_agrees_witness :
  events (Sequential.encode strictImageToKtx sampleRead sampleWrite refusedSource)
  = events (encode strictFromImageFile sampleFromRGBA sampleRead sampleWrite
              refusedSource)
  /\ endAlike
       (fun e e' => e = e' \/ imageEncodersFail strictImageToKtx strictFromImageFile e e')
       (outcome (Sequential.encode strictImageToKtx sampleRead sampleWrite
                   refusedSource))
       (outcome (encode strictFromImageFile sampleFromRGBA sampleRead sampleWrite
                   refusedSource)).
Proof.
  apply (X21_sequential_encode_agrees strictImageToKtx strictFromImageFile
           sampleFromRGBA sampleRead sampleWrite).
  - intros [| b data] fileName extension; reflexivity.
  - reflexivity.
Defined.

(** The run behind it: the second layer is refused by both encoders, each
    in its own words. *)
Example refused_layer_runs :
  Sequential.encode strictImageToKtx sampleRead sampleWrite refusedSource
  = ([EvEncode 0; EvEncode 1],
     Throw (External "encodeBasisTexture() failed! Image may be too large to compress using 32-bit WASM."))
  /\ encode strictFromImageFile sampleFromRGBA sampleRead sampleWrite refusedSource
     = ([EvEncode 0; EvEncode 1], Throw (External "Encoding failed")).
Proof. split; reflexivity. Qed.

(** With encoders that accept everything the two classes give the same
    file. *)
Example matching_source_runs :
  Sequential.encode sampleImageToKtx sampleRead sampleWrite matchingSource
  = encode sampleFromImageFile sampleFromRGBA sampleRead sampleWrite matchingSource
  /\ outcome (encode sampleFromImageFile sampleFromRGBA sampleRead sampleWrite
                matchingSource) = Ok matchingFile.
Proof. split; reflexivity. Qed.

Lemma X22_encode_from_urls_agrees_witness :
  (sampleUrls <> [] ->
   events (Sequential.encodeFromUrls sampleFetch sampleImageToKtx sampleRead
             sampleWrite sampleUrls)
   = events (fromImageUrls sampleFetch sampleFromImageFile sampleFromRGBA sampleRead
               sampleWrite sampleUrls)
   /\ endAlike
        (fun e e' => e = e'
                     \/ imageEncodersFail sampleImageToKtx sampleFromImageFile e e')
        (outcome (Sequential.encodeFromUrls sampleFetch sampleImageToKtx sampleRead
                    sampleWrite sampleUrls))
        (outcome (fromImageUrls sampleFetch sampleFromImageFile sampleFromRGBA
                    sampleRead sampleWrite sampleUrls)))
  /\ Sequential.encodeFromUrls sampleFetch sampleImageToKtx sampleRead sampleWrite []
     = ([], Throw (External "ImagesToKtxSequential: No URLs provided"))
  /\ fromImageUrls sampleFetch sampleFromImageFile sampleFromRGBA sampleRead
       sampleWrite []
     = ([], Throw NoUrlsProvided).
Proof.
  apply (X22_encode_from_urls_agrees sampleFetch sampleImageToKtx
           sampleFromImageFile sampleFromRGBA sampleRead sampleWrite).
  intros data fileName extension. reflexivity.
Defined.

Lemma X23_sequential_needs_images_witness : imagesOnly matchingSource = true.
Proof.
  apply (X23_sequential_needs_images sampleImageToKtx sampleRead sampleWrite
           matchingSource matchingFile).
  reflexivity.
Defined.

(** On video frames the two classes part: the assembler encodes them, the
    sequential encoder fails at the first one. *)
Example frames_part_the_encoders :
  outcome (Sequential.encode sampleImageToKtx sampleRead sampleWrite frameSource)
    = Throw (External "No image data provided")
  /\ exists file,
       outcome (encode sampleFromImageFile sampleFromRGBA sampleRead sampleWrite
                  frameSource) = Ok file.
Proof. split; [reflexivity | eexists; reflexivity]. Qed.

(** * The video path of [ImagesToKtxSequential] against [KTX2Assembler] *)

Section VideoAgrees.

Variable encodeRGBAToKtx : bytes -> Z -> Z -> string -> result bytes.
Variable fromImageFile : bytes -> string -> result bytes.
Variable fromRGBA : bytes -> Z -> Z -> result bytes.
Variable read : bytes -> result Container.t.
Variable write : Container.t -> result bytes.
Variable decodeSamples : string -> Z -> option Z -> result (list (result Frame)).

(** The two RGBA encoders accept the same frames, and give the same bytes
    for them. *)
Hypothesis rgba_encoders_alike :
  forall rgba width height fileName,
    alike (encodeRGBAToKtx rgba width height fileName) (fromRGBA rgba width height).

Local Abbreviation asmLoop := (encodeLoop fromImageFile fromRGBA read).
Local Abbreviation frames := (Sequential.videoFrameGenerator encodeRGBAToKtx read).
Local Abbreviation failAlike :=
  (fun e e' : JsError =>
     e = e' \/ e = frameWording e'
     \/ rgbaEncodersFail encodeRGBAToKtx fromRGBA e e').

(** One sample that is within the cap and decodes, as the consumer's loop
    goes through it. *)
Lemma frameLoop_sample (maxFrames : option Z) (f : Frame) (rest : list (result Frame))
    (frameCount : nat) (state : Sequential.LoopState) :
  let frameFileName := ("frame_" ++ padStart0 5 (decimal frameCount))%string in
  let next := frames maxFrames rest (S frameCount) in
  Sequential.frameLoop
    (Sequential.FEncode frameCount
       (match encodeRGBAToKtx (frameRgba f) (frameWidth f) (frameHeight f)
                frameFileName with
        | Throw e => Sequential.FThrow e
        | Ok ktx2Buffer =>
            match read ktx2Buffer with
            | Throw e => Sequential.FThrow e
            | Ok container =>
                Sequential.FYield
                  {| Sequential.ktx2Buffer := ktx2Buffer;
                     Sequential.container := container;
                     Sequential.fileName := frameFileName;
                     Sequential.frameIndex := frameCount |}
                  next
            end
        end)) state
  = match encodeRGBAToKtx (frameRgba f) (frameWidth f) (frameHeight f)
            frameFileName with
    | Throw e => ([EvEncode frameCount], Throw e)
    | Ok ktx2Buffer =>
        match read ktx2Buffer with
        | Throw e => ([EvEncode frameCount], Throw e)
        | Ok c =>
            match state with
            | Sequential.Start =>
                let run := Sequential.frameLoop next
                             (Sequential.Running (Sequential.setLocals c)
                                [layerOfContainer c] 1) in
                (EvEncode frameCount :: events run, outcome run)
            | Sequential.Running locals encodedLayers idx =>
                match outcome (Sequential.checkFrame c locals encodedLayers idx) with
                | Throw e => ([EvEncode frameCount], Throw e)
                | Ok _ =>
                    let run := Sequential.frameLoop next
                                 (Sequential.Running locals
                                    (encodedLayers ++ [layerOfContainer c])
                                    (S idx)) in
                    (EvEncode frameCount :: events run, outcome run)
                end
            end
        end
    end.
Proof.
  intros frameFileName next.
  cbn [Sequential.frameLoop]. rewrite bind_emit.
  destruct (encodeRGBAToKtx (frameRgba f) (frameWidth f) (frameHeight f)
              frameFileName) as [b | e]; [| reflexivity].
  destruct (read b) as [c | e]; [| reflexivity].
  cbn [Sequential.frameLoop Sequential.container]. cbv zeta.
  destruct state as [| locals encodedLayers idx].
  - rewrite bind_ret_l. reflexivity.
  - assert (Hpure : events (Sequential.checkFrame c locals encodedLayers idx) = []).
    { unfold Sequential.checkFrame.
      repeat match goal with
             | |- context [if ?b then _ else _] => destruct b
             end; try reflexivity.
      destruct (nth_error encodedLayers 0); cbn; [| reflexivity].
      now destruct (negb _). }
    rewrite (pair_eta (Sequential.checkFrame c locals encodedLayers idx)), Hpure.
    destruct (outcome (Sequential.checkFrame c locals encodedLayers idx)) as [[] | e].
    + change ([], @Ok unit tt) with (ret tt). rewrite !bind_ret_l. reflexivity.
    + reflexivity.
Qed.

Lemma frames_agree_running (maxFrames : option Z) (samples : list (result Frame)) :
  forall frameCount locals encodedLayers first,
    nth_error encodedLayers 0 = Some first ->
    let bp := paramsOf locals (length (Layer.levels first)) in
    let sequential :=
      Sequential.frameLoop (frames maxFrames samples (S frameCount))
        (Sequential.Running locals encodedLayers (S frameCount)) in
    let assembler :=
      asmLoop (rgbaFrameGenerator maxFrames samples (S frameCount))
        encodedLayers (Some bp) (S frameCount) in
    events sequential = events assembler
    /\ match outcome sequential, outcome assembler with
       | Ok (Sequential.Running locals' layers' _), Ok (layers, bp') =>
           locals' = locals /\ layers' = layers /\ bp' = Some bp
           /\ nth_error layers 0 = Some first
       | Throw e, Throw e' => failAlike e e'
       | _, _ => False
       end.
Proof.
  induction samples as [| sample rest IH];
    intros frameCount locals encodedLayers first Hfirst bp sequential assembler;
    subst sequential assembler.
  - cbn. auto.
  - cbn [Sequential.videoFrameGenerator rgbaFrameGenerator].
    destruct (match maxFrames with
              | Some m => Z.of_nat (S frameCount) >=? m
              | None => false
              end); [cbn; auto |].
    destruct sample as [f | e]; [| cbn; auto].
    rewrite frameLoop_sample. cbv zeta.
    set (name := ("frame_" ++ padStart0 5 (decimal (S frameCount)))%string).
    set (layer := FrameLayer (frameRgba f) (frameWidth f) (frameHeight f) name).
    pose proof (rgba_encoders_alike (frameRgba f) (frameWidth f) (frameHeight f) name)
      as Halike.
    destruct (encodeRGBAToKtx (frameRgba f) (frameWidth f) (frameHeight f) name)
      as [b | e] eqn:Hseq;
      destruct (fromRGBA (frameRgba f) (frameWidth f) (frameHeight f))
      as [b' | e'] eqn:Hasm; cbn in Halike; try contradiction.
    + subst b'.
      assert (Hparse : parseLayer fromImageFile fromRGBA read layer = read b).
      { unfold parseLayer, layer. now rewrite Hasm. }
      destruct (read b) as [c | e] eqn:Hread.
      * rewrite (encodeLoop_yield_later fromImageFile fromRGBA read layer _
                   encodedLayers bp frameCount c Hparse).
        rewrite (checkFrame_validate c locals encodedLayers first (S frameCount) Hfirst).
        fold bp. cbn [outcome snd].
        destruct (_validateLayerConsistency c bp (S frameCount)) as [[] | e].
        -- cbn [events outcome fst snd].
           assert (Hfirst' : nth_error (encodedLayers ++ [layerOfContainer c]) 0
                             = Some first).
           { destruct encodedLayers; [discriminate Hfirst | exact Hfirst]. }
           destruct (IH (S frameCount) locals (encodedLayers ++ [layerOfContainer c])
                       first Hfirst') as [Hev Hout].
           fold bp in Hev, Hout. split; [now rewrite Hev | exact Hout].
        -- cbn. auto.
      * rewrite (encodeLoop_yield_throw fromImageFile fromRGBA read layer _
                   encodedLayers (Some bp) (S frameCount) e Hparse).
        cbn. auto.
    + assert (Hparse : parseLayer fromImageFile fromRGBA read layer = Throw e').
      { unfold parseLayer, layer. now rewrite Hasm. }
      rewrite (encodeLoop_yield_throw fromImageFile fromRGBA read layer _
                 encodedLayers (Some bp) (S frameCount) e' Hparse).
      cbn. split; [reflexivity |]. right. right.
      now exists (frameRgba f), (frameWidth f), (frameHeight f), name.
Qed.

Lemma frames_agree (maxFrames : option Z) (samples : list (result Frame)) :
  let sequential :=
    Sequential.frameLoop (frames maxFrames samples 0) Sequential.Start in
  let assembler := asmLoop (rgbaFrameGenerator maxFrames samples 0) [] None 0 in
  events sequential = events assembler
  /\ match outcome sequential, outcome assembler with
     | Ok state, Ok (layers, bp) =>
         match state with
         | Sequential.Start => layers = [] /\ bp = None
         | Sequential.Running locals layers' _ =>
             exists first,
               nth_error layers 0 = Some first /\ layers' = layers
               /\ bp = Some (paramsOf locals (length (Layer.levels first)))
         end
     | Throw e, Throw e' => failAlike e e'
     | _, _ => False
     end.
Proof.
  intros sequential assembler. subst sequential assembler.
  destruct samples as [| sample rest]; [cbn; auto |].
  cbn [Sequential.videoFrameGenerator rgbaFrameGenerator].
  destruct (match maxFrames with
            | Some m => Z.of_nat 0 >=? m
            | None => false
            end); [cbn; auto |].
  destruct sample as [f | e]; [| cbn; auto].
  rewrite frameLoop_sample. cbv zeta.
  set (name := ("frame_" ++ padStart0 5 (decimal 0))%string).
  set (layer := FrameLayer (frameRgba f) (frameWidth f) (frameHeight f) name).
  pose proof (rgba_encoders_alike (frameRgba f) (frameWidth f) (frameHeight f) name)
    as Halike.
  destruct (encodeRGBAToKtx (frameRgba f) (frameWidth f) (frameHeight f) name)
    as [b | e] eqn:Hseq;
    destruct (fromRGBA (frameRgba f) (frameWidth f) (frameHeight f))
    as [b' | e'] eqn:Hasm; cbn in Halike; try contradiction.
  - subst b'.
    assert (Hparse : parseLayer fromImageFile fromRGBA read layer = read b).
    { unfold parseLayer, layer. now rewrite Hasm. }
    destruct (read b) as [c | e] eqn:Hread.
    + rewrite (encodeLoop_yield_first fromImageFile fromRGBA read layer _
                 [] None c Hparse).
      cbn [events outcome fst snd app].
      destruct (frames_agree_running maxFrames rest 0 (Sequential.setLocals c)
                  [layerOfContainer c] (layerOfContainer c) eq_refl) as [Hev Hout].
      cbv zeta in Hev, Hout. rewrite paramsOf_first in Hev, Hout.
      split; [now rewrite Hev |].
      revert Hout.
      destruct (outcome (Sequential.frameLoop (frames maxFrames rest 1)
                           (Sequential.Running (Sequential.setLocals c)
                              [layerOfContainer c] 1)))
        as [[| locals' layers' i] | e];
        destruct (outcome (asmLoop (rgbaFrameGenerator maxFrames rest 1)
                             [layerOfContainer c] (Some (_extractBaseParams c)) 1))
        as [[layers bp'] | e']; intros Hout; try contradiction; try exact Hout.
      destruct Hout as [-> [-> [-> Hfirst]]].
      exists (layerOfContainer c). now rewrite paramsOf_first.
    + rewrite (encodeLoop_yield_throw fromImageFile fromRGBA read layer _
                 [] None 0 e Hparse).
      cbn. auto.
  - assert (Hparse : parseLayer fromImageFile fromRGBA read layer = Throw e').
    { unfold parseLayer, layer. now rewrite Hasm. }
    rewrite (encodeLoop_yield_throw fromImageFile fromRGBA read layer _
               [] None 0 e' Hparse).
    cbn. split; [reflexivity |]. right. right.
    now exists (frameRgba f), (frameWidth f), (frameHeight f), name.
Qed.

(** X24.  With the Basis module loaded and RGBA encoders that accept the
    same frames and give the same bytes for them,
    [ImagesToKtxSequential.encodeFromVideoUrl] and
    [KTX2Assembler.fromVideoUrl] make the same encoder calls, allocations
    and copies in the same order and end alike: with the same file, or with
    the same error, apart from the wording of a mismatch between frames
    (Frame i for the one, Layer i for the other) and from the error of a
    frame that both encoders refuse. *)
Theorem X24_video_paths_agree (videoUrl : string) (maxFrames : option Z)
    (startTime : Z) (endTime : option Z) :
  let sequential :=
    Sequential.encodeFromVideoUrl encodeRGBAToKtx true read write decodeSamples
      videoUrl maxFrames startTime endTime in
  let assembler :=
    fromVideoUrl fromImageFile fromRGBA read write decodeSamples
      videoUrl maxFrames startTime endTime in
  events sequential = events assembler
  /\ endAlike failAlike (outcome sequential) (outcome assembler).
Proof.
  intros sequential assembler. subst sequential assembler.
  unfold Sequential.encodeFromVideoUrl, fromVideoUrl.
  destruct (decodeSamples videoUrl startTime endTime) as [samples | e];
    [| cbn; auto].
  change (lift (Ok samples)) with (ret samples). rewrite !bind_ret_l.
  unfold Sequential.encodeFromVideoGenerator, encode, encodeContainer.
  destruct (frames_agree maxFrames samples) as [Hev Hout]. cbv zeta in Hev, Hout.
  rewrite !bind_assoc.
  apply bind_agree; [now left | exact Hev |].
  revert Hout.
  destruct (outcome (Sequential.frameLoop (frames maxFrames samples 0)
                       Sequential.Start)) as [state | e];
    destruct (outcome (asmLoop (rgbaFrameGenerator maxFrames samples 0) [] None 0))
    as [[layers bp] | e']; intros Hout; try exact Hout.
  cbv beta iota. now apply states_go_on_alike.
Qed.

End VideoAgrees.

Lemma X24_video_paths_agree_witness :
  events (Sequential.encodeFromVideoUrl sampleEncodeRGBAToKtx true sampleRead
            sampleWrite (fun _ _ _ => Ok unequalFrames) "clip.webm" None 0 None)
  = events (fromVideoUrl sampleFromImageFile sampleFromRGBA sampleRead sampleWrite
              (fun _ _ _ => Ok unequalFrames) "clip.webm" None 0 None)
  /\ endAlike
       (fun e e' => e = e' \/ e = frameWording e'
                    \/ rgbaEncodersFail sampleEncodeRGBAToKtx sampleFromRGBA e e')
       (outcome (Sequential.encodeFromVideoUrl sampleEncodeRGBAToKtx true sampleRead
                   sampleWrite (fun _ _ _ => Ok unequalFrames) "clip.webm"
                   None 0 None))
       (outcome (fromVideoUrl sampleFromImageFile sampleFromRGBA sampleRead
                   sampleWrite (fun _ _ _ => Ok unequalFrames) "clip.webm"
                   None 0 None)).
Proof.
  apply (X24_video_paths_agree sampleEncodeRGBAToKtx sampleFromImageFile
           sampleFromRGBA sampleRead sampleWrite (fun _ _ _ => Ok unequalFrames)).
  intros rgba width height fileName. reflexivity.
Defined.

(** A second frame of another size, as each class reports it. *)
Example unequal_frames_wording :
  Sequential.encodeFromVideoUrl sampleEncodeRGBAToKtx true sampleRead sampleWrite
    (fun _ _ _ => Ok unequalFrames) "clip.webm" None 0 None
  = ([EvEncode 0; EvEncode 1],
     Throw (External "Frame 1 size mismatch: expected 4x4, got 4x8"))
  /\ fromVideoUrl sampleFromImageFile sampleFromRGBA sampleRead sampleWrite
       (fun _ _ _ => Ok unequalFrames) "clip.webm" None 0 None
     = ([EvEncode 0; EvEncode 1], Throw (SizeMismatch 1 4 4 4 8)).
Proof. split; reflexivity. Qed.

(** Frames of one size give the same file. *)
Example equal_frames_file :
  Sequential.encodeFromVideoUrl sampleEncodeRGBAToKtx true sampleRead sampleWrite
    (fun _ _ _ => Ok sampleFrames) "clip.webm" (Some 2) 0 None
  = fromVideoUrl sampleFromImageFile sampleFromRGBA sampleRead sampleWrite
      (fun _ _ _ => Ok sampleFrames) "clip.webm" (Some 2) 0 None
  /\ exists file,
       outcome (fromVideoUrl sampleFromImageFile sampleFromRGBA sampleRead
                  sampleWrite (fun _ _ _ => Ok sampleFrames) "clip.webm"
                  (Some 2) 0 None) = Ok file.
Proof. split; [reflexivity | eexists; reflexivity]. Qed.

(** Without the Basis module no frame is decoded or encoded. *)
Example video_needs_basis_module :
  Sequential.encodeFromVideoUrl sampleEncodeRGBAToKtx false sampleRead sampleWrite
    (fun _ _ _ => Ok sampleFrames) "clip.webm" None 0 None
  = ([], Throw (External "BASIS module not loaded")).
Proof. reflexivity. Qed.
